(** * File integrity checker: a shallow embedding of
      [file_integrity_checker.py] and the properties of its baseline
      construction and integrity comparison.

    The Python class [FileIntegrityChecker] is embedded as functions in a
    state-and-exception monad over a record holding the object's
    [baseline_data] and the part of the operating system it talks to:
    the directory tree, the baseline file, the clock and standard output. *)

From Stdlib Require Import ZArith List String Ascii Bool Lia Arith.
From Stdlib.Strings Require Import Byte.
Import ListNotations.
Set Warnings "-register-all".
Local Open Scope string_scope.
Local Open Scope list_scope.

(** ** hashlib.sha256

    [hashlib.sha256()] is FIPS 180-4 SHA-256.  Words are 32-bit integers
    held in [Z]; the wrap-around of every addition is written out. *)

Module SHA256.
Local Open Scope Z_scope.

Definition mask32 : Z := 4294967295.
Definition add32 (a b : Z) : Z := Z.land (a + b) mask32.
Definition rotr (n x : Z) : Z :=
  Z.lor (Z.shiftr x n) (Z.land (Z.shiftl x (32 - n)) mask32).
Definition not32 (x : Z) : Z := Z.lxor x mask32.

Definition Ch (x y z : Z) : Z := Z.lxor (Z.land x y) (Z.land (not32 x) z).
Definition Maj (x y z : Z) : Z :=
  Z.lxor (Z.lxor (Z.land x y) (Z.land x z)) (Z.land y z).
Definition bsig0 (x : Z) : Z := Z.lxor (Z.lxor (rotr 2 x) (rotr 13 x)) (rotr 22 x).
Definition bsig1 (x : Z) : Z := Z.lxor (Z.lxor (rotr 6 x) (rotr 11 x)) (rotr 25 x).
Definition ssig0 (x : Z) : Z := Z.lxor (Z.lxor (rotr 7 x) (rotr 18 x)) (Z.shiftr x 3).
Definition ssig1 (x : Z) : Z := Z.lxor (Z.lxor (rotr 17 x) (rotr 19 x)) (Z.shiftr x 10).

(** The round constants: the first 32 bits of the fractional parts of the
    cube roots of the first 64 primes. *)
Definition K : list Z :=
  [
    1116352408; 1899447441; 3049323471; 3921009573;
    961987163; 1508970993; 2453635748; 2870763221;
    3624381080; 310598401; 607225278; 1426881987;
    1925078388; 2162078206; 2614888103; 3248222580;
    3835390401; 4022224774; 264347078; 604807628;
    770255983; 1249150122; 1555081692; 1996064986;
    2554220882; 2821834349; 2952996808; 3210313671;
    3336571891; 3584528711; 113926993; 338241895;
    666307205; 773529912; 1294757372; 1396182291;
    1695183700; 1986661051; 2177026350; 2456956037;
    2730485921; 2820302411; 3259730800; 3345764771;
    3516065817; 3600352804; 4094571909; 275423344;
    430227734; 506948616; 659060556; 883997877;
    958139571; 1322822218; 1537002063; 1747873779;
    1955562222; 2024104815; 2227730452; 2361852424;
    2428436474; 2756734187; 3204031479; 3329325298 ].

(** The eight working variables a..h. *)
Record regs : Type := Regs {
  ra : Z; rb : Z; rc : Z; rd : Z; re : Z; rf : Z; rg : Z; rh : Z }.

Definition H0 : regs :=
  Regs 1779033703 3144134277 1013904242 2773480762
       1359893119 2600822924 528734635 1541459225.

Definition byte_val (b : byte) : Z := Z.of_N (Byte.to_N b).
Definition byte_of_Z (z : Z) : byte :=
  match Byte.of_N (Z.to_N (Z.land z 255)) with
  | Some b => b
  | None => x00
  end.

(** Message padding: 0x80, zero bytes up to 56 mod 64, then the bit length
    as a 64-bit big-endian integer. *)
Definition be_bytes (n : nat) (z : Z) : list byte :=
  map (fun i => byte_of_Z (Z.shiftr z (8 * Z.of_nat i))) (rev (seq 0 n)).

Definition pad (msg : list byte) : list byte :=
  let len := Z.of_nat (List.length msg) in
  let zeros := Z.to_nat ((55 - len) mod 64) in
  msg ++ x80 :: repeat x00 zeros ++ be_bytes 8 (8 * len).

Fixpoint words_of (fuel : nat) (bs : list byte) : list Z :=
  match fuel, bs with
  | S fuel', b0 :: b1 :: b2 :: b3 :: rest =>
      (Z.shiftl (byte_val b0) 24 + Z.shiftl (byte_val b1) 16
       + Z.shiftl (byte_val b2) 8 + byte_val b3)
      :: words_of fuel' rest
  | _, _ => []
  end.

(** The message schedule, kept newest word first: W[t-2] is at index 1,
    W[t-7] at 6, W[t-15] at 14 and W[t-16] at 15. *)
Fixpoint extend (n : nat) (wrev : list Z) : list Z :=
  match n with
  | O => wrev
  | S n' =>
      let w := add32 (add32 (ssig1 (nth 1 wrev 0)) (nth 6 wrev 0))
                     (add32 (ssig0 (nth 14 wrev 0)) (nth 15 wrev 0)) in
      extend n' (w :: wrev)
  end.

Definition schedule (block : list Z) : list Z := rev (extend 48 (rev block)).

Definition round (r : regs) (kw : Z * Z) : regs :=
  let t1 := add32 (add32 (add32 (rh r) (bsig1 (re r)))
                         (add32 (Ch (re r) (rf r) (rg r)) (fst kw))) (snd kw) in
  let t2 := add32 (bsig0 (ra r)) (Maj (ra r) (rb r) (rc r)) in
  Regs (add32 t1 t2) (ra r) (rb r) (rc r) (add32 (rd r) t1) (re r) (rf r) (rg r).

Definition compress (h : regs) (block : list Z) : regs :=
  let r := fold_left round (combine K (schedule block)) h in
  Regs (add32 (ra h) (ra r)) (add32 (rb h) (rb r)) (add32 (rc h) (rc r))
       (add32 (rd h) (rd r)) (add32 (re h) (re r)) (add32 (rf h) (rf r))
       (add32 (rg h) (rg r)) (add32 (rh h) (rh r)).

Fixpoint blocks (fuel : nat) (ws : list Z) (h : regs) : regs :=
  match fuel, ws with
  | S fuel', _ :: _ => blocks fuel' (skipn 16 ws) (compress h (firstn 16 ws))
  | _, _ => h
  end.

Definition digest (msg : list byte) : regs :=
  let bs := pad msg in
  let ws := words_of (List.length bs) bs in
  blocks (List.length ws) ws H0.

(** Lowercase hexadecimal rendering, as [hexdigest()] gives it. *)
Definition hexchars : list ascii :=
  [ "0"; "1"; "2"; "3"; "4"; "5"; "6"; "7";
    "8"; "9"; "a"; "b"; "c"; "d"; "e"; "f" ]%char.

Definition hex_digit (z : Z) : ascii :=
  nth (Z.to_nat (Z.land z 15)) hexchars "0"%char.

Definition hex8 (w : Z) (k : string) : string :=
  String (hex_digit (Z.shiftr w 28)) (String (hex_digit (Z.shiftr w 24))
  (String (hex_digit (Z.shiftr w 20)) (String (hex_digit (Z.shiftr w 16))
  (String (hex_digit (Z.shiftr w 12)) (String (hex_digit (Z.shiftr w 8))
  (String (hex_digit (Z.shiftr w 4)) (String (hex_digit w) k))))))).

Definition hex_of_regs (r : regs) : string :=
  hex8 (ra r) (hex8 (rb r) (hex8 (rc r) (hex8 (rd r)
  (hex8 (re r) (hex8 (rf r) (hex8 (rg r) (hex8 (rh r) EmptyString))))))).

Definition hexdigest (msg : list byte) : string := hex_of_regs (digest msg).

End SHA256.

(** ** Python values

    [json.load] yields [None], booleans, integers, floats, strings, lists
    and dictionaries.  A float is kept as mantissa and decimal exponent;
    only its being zero is ever looked at.  A dictionary is an association
    list in insertion order, which is the order Python iterates it in. *)

Inductive pyval : Type :=
| PNone
| PBool (b : bool)
| PInt (z : Z)
| PFloat (mantissa exponent : Z)
| PStr (s : string)
| PList (l : list pyval)
| PDict (d : list (string * pyval)).

(** Truth value testing, as [if x:] and [not x] do it. *)
Definition truthy (v : pyval) : bool :=
  match v with
  | PNone => false
  | PBool b => b
  | PInt z => negb (Z.eqb z 0)
  | PFloat m _ => negb (Z.eqb m 0)
  | PStr s => negb (String.eqb s "")
  | PList l => match l with [] => false | _ => true end
  | PDict d => match d with [] => false | _ => true end
  end.

(** [json.load] converts an integer literal with [int], which refuses
    more than 4300 digits unless the limit has been changed. *)
Definition int_max_str_digits : Z := 4300.

Fixpoint ints_ok (v : pyval) : bool :=
  match v with
  | PInt z => (Z.abs z <? 10 ^ int_max_str_digits)%Z
  | PList l => forallb ints_ok l
  | PDict d => forallb (fun kv => ints_ok (snd kv)) d
  | _ => true
  end.

(** How deep lists and dictionaries are nested in a value. *)
Fixpoint json_depth (v : pyval) : nat :=
  match v with
  | PList l => S (fold_right (fun x acc => Nat.max (json_depth x) acc) 0 l)
  | PDict d => S (fold_right (fun kv acc => Nat.max (json_depth (snd kv)) acc) 0 d)
  | _ => 0
  end.

Fixpoint dict_get (k : string) (d : list (string * pyval)) : option pyval :=
  match d with
  | [] => None
  | (k', v) :: d' => if String.eqb k k' then Some v else dict_get k d'
  end.

(** [d[k] = v]: the value of an existing key is replaced where it stands,
    a new key goes to the end. *)
Fixpoint dict_set (k : string) (v : pyval) (d : list (string * pyval))
  : list (string * pyval) :=
  match d with
  | [] => [(k, v)]
  | (k', v') :: d' =>
      if String.eqb k k' then (k, v) :: d' else (k', v') :: dict_set k v d'
  end.

Definition dict_mem (k : string) (d : list (string * pyval)) : bool :=
  match dict_get k d with Some _ => true | None => false end.

Definition dict_keys (d : list (string * pyval)) : list string := map fst d.

(** [current_hash != file_data["hash"]], where [current_hash] is what
    [calculate_hash] returned: [None] or a [str]. *)
Definition hash_ne (current : option string) (stored : pyval) : bool :=
  match current, stored with
  | None, PNone => false
  | Some h, PStr h' => negb (String.eqb h h')
  | _, _ => true
  end.

(** ** posixpath *)

Definition slash : ascii := "/"%char.

Definition starts_with_slash (s : string) : bool :=
  match s with
  | String c _ => Ascii.eqb c slash
  | EmptyString => false
  end.

Fixpoint ends_with_slash (s : string) : bool :=
  match s with
  | EmptyString => false
  | String c EmptyString => Ascii.eqb c slash
  | String _ s' => ends_with_slash s'
  end.

(** [os.path.join(a, b)] *)
Definition os_path_join (a b : string) : string :=
  if starts_with_slash b then b
  else if String.eqb a "" || ends_with_slash a then a ++ b
  else a ++ "/" ++ b.

(** [s.split("/")] *)
Fixpoint split_slash (s : string) : list string :=
  match s with
  | EmptyString => [""]
  | String c s' =>
      if Ascii.eqb c slash then "" :: split_slash s'
      else match split_slash s' with
           | h :: t => String c h :: t
           | [] => [String c ""]
           end
  end.

(** One step of [normpath] on an absolute path; the stack of components
    is kept last component first. *)
Definition norm_step (stack : list string) (comp : string) : list string :=
  if String.eqb comp "" || String.eqb comp "." then stack
  else if String.eqb comp ".." then tl stack
  else comp :: stack.

(** The components of [os.path.abspath(p)].  The process runs with the
    root of the modelled tree as its working directory, so a relative and
    an absolute spelling of a path have the same components. *)
Definition abspath_comps (p : string) : list string :=
  rev (fold_left norm_step (split_slash p) []).

Fixpoint common_prefix (a b : list string) : list string :=
  match a, b with
  | x :: a', y :: b' => if String.eqb x y then x :: common_prefix a' b' else []
  | _, _ => []
  end.

(** [os.path.relpath(path, start)] *)
Definition os_path_relpath (path start : string) : string :=
  let start_list := abspath_comps start in
  let path_list := abspath_comps path in
  let i := List.length (common_prefix start_list path_list) in
  let rel_list := repeat ".." (List.length start_list - i) ++ skipn i path_list in
  match rel_list with
  | [] => "."
  | _ => String.concat "/" rel_list
  end.

(** ** The directory tree

    A directory entry is a directory or something else.  [File (Some data)]
    is a regular file that can be read and holds [data]; [File None] is an
    entry that exists and is not a directory but whose [open(..., "rb")]
    raises [IOError]: a regular file without read permission, a socket.
    [Dir children] is a directory that can be listed; [Locked children] is
    one that can be entered but not listed, for want of the read
    permission: paths through it resolve as through any directory, but
    [os.scandir] fails on it.  Every directory can be entered; symbolic
    links are not modelled. *)

Inductive node : Type :=
| File (data : option (list byte))
| Dir (children : list (string * node))
| Locked (children : list (string * node)).

(** Induction on trees, with the hypothesis for every child. *)
Section NodeInduction.
Variable P : node -> Prop.
Hypothesis on_file : forall data, P (File data).
Hypothesis on_dir :
  forall children, Forall (fun e => P (snd e)) children -> P (Dir children).
Hypothesis on_locked :
  forall children, Forall (fun e => P (snd e)) children -> P (Locked children).

Fixpoint node_induction (n : node) : P n :=
  match n with
  | File data => on_file data
  | Dir children =>
      on_dir children
        ((fix each (l : list (string * node)) : Forall (fun e => P (snd e)) l :=
            match l with
            | [] => Forall_nil _
            | e :: l' => Forall_cons e (node_induction (snd e)) (each l')
            end) children)
  | Locked children =>
      on_locked children
        ((fix each (l : list (string * node)) : Forall (fun e => P (snd e)) l :=
            match l with
            | [] => Forall_nil _
            | e :: l' => Forall_cons e (node_induction (snd e)) (each l')
            end) children)
  end.
End NodeInduction.

Fixpoint fs_find (name : string) (children : list (string * node)) : option node :=
  match children with
  | [] => None
  | (n, c) :: rest => if String.eqb name n then Some c else fs_find name rest
  end.

(** Path resolution as the kernel does it, one component at a time, with
    the chain of parent directories for [..]. *)
Fixpoint resolve (parents : list node) (cur : node) (comps : list string)
  : option (list node * node) :=
  match comps with
  | [] => Some (parents, cur)
  | c :: cs =>
      match cur with
      | File _ => None
      | Dir children | Locked children =>
          if String.eqb c "" || String.eqb c "." then resolve parents cur cs
          else if String.eqb c ".." then
            match parents with
            | [] => resolve [] cur cs
            | p :: ps => resolve ps p cs
            end
          else match fs_find c children with
               | Some n => resolve (cur :: parents) n cs
               | None => None
               end
      end
  end.

(** [os.stat(path)], [None] standing for [OSError].  Resolution starts at
    the root of the tree for a relative path as for an absolute one: the
    working directory of the process is the root. *)
Definition os_stat (root : node) (path : string) : option node :=
  if String.eqb path "" then None
  else option_map snd (resolve [] root (split_slash path)).

Definition os_path_exists (root : node) (path : string) : bool :=
  match os_stat root path with Some _ => true | None => false end.

Definition os_path_isdir (root : node) (path : string) : bool :=
  match os_stat root path with
  | Some (Dir _) | Some (Locked _) => true
  | _ => false
  end.

(** [open(path, "rb")]: the content to be read, or [None] for [IOError]. *)
Definition open_rb (root : node) (path : string) : option (list byte) :=
  match os_stat root path with
  | Some (File (Some data)) => Some data
  | _ => None
  end.

Definition dirnames (children : list (string * node)) : list string :=
  flat_map (fun e => match snd e with File _ => [] | _ => [fst e] end) children.

Definition filenames (children : list (string * node)) : list string :=
  flat_map (fun e => match snd e with File _ => [fst e] | _ => [] end) children.

(** [os.walk(top)] on the tree found at [top], top-down: the triple of a
    directory comes before the triples of its subdirectories, which are
    visited in listing order.  What is not a directory yields nothing, and
    so does a directory that cannot be listed: no [onerror] is given, so
    the error of [os.scandir] is dropped. *)
Fixpoint walk_tree (top : string) (n : node)
  : list (string * list string * list string) :=
  match n with
  | File _ => []
  | Locked _ => []
  | Dir children =>
      (top, dirnames children, filenames children)
      :: (fix subdirs (l : list (string * node)) :=
            match l with
            | [] => []
            | (name, c) :: l' => walk_tree (os_path_join top name) c ++ subdirs l'
            end) children
  end.

Definition os_walk (root : node) (top : string)
  : list (string * list string * list string) :=
  match os_stat root top with
  | Some n => walk_tree top n
  | None => []
  end.

(** ** The baseline file

    What [open(self.baseline_file)] finds.  [json.dump] followed by
    [json.load] gives back the dictionaries, lists, strings and numbers
    that were written, so a file that holds JSON text is kept as the value
    it parses to.  [json.load] does not get through every valid text: it
    raises [ValueError] on an integer of too many digits, which is told
    from the value, and [RecursionError] on nesting deeper than the
    interpreter follows, which depends on the interpreter and is a case
    of its own.  The baseline file lives outside the monitored tree. *)

Inductive bfile : Type :=
| Absent                  (* os.path.exists is False *)
| Unreadable              (* open raises IOError *)
| NotText                 (* the bytes are not valid text: UnicodeDecodeError *)
| NotJson                 (* text that json.load rejects: JSONDecodeError *)
| TooDeep                 (* JSON nested too deep for json.load: RecursionError *)
| Json (v : pyval).

(** The exceptions, each standing for the class that is raised:
    [JSONDecodeError] and [UnicodeDecodeError] are subclasses of
    [ValueError], and [IOError] is [OSError] with its subclasses. *)
Inductive exn : Type :=
| AttributeError | KeyError | TypeError | OverflowError | UnicodeDecodeError
| IOError | JSONDecodeError | ValueError | RecursionError.

(** The lines the program prints. *)
Inductive line : Type :=
| ErrorReadingFile (file_path : string)
| ErrorLoadingBaseline
| BaselineSaved (file : string)
| ErrorSavingBaseline
| NotValidDirectory (directory : string)
| BaselineCreated (directory : string) (n : nat)
| NoBaselineData
| BaselineDirectoryNotValid (directory : pyval)
| AllFilesMatch
| ChangedHeader
| NewHeader
| MissingHeader
| Item (file : string).

(** The checker object together with the world it runs in.  The [n]-th
    call of [datetime.now().isoformat()] returns [clock n]. *)
Record state : Type := State {
  baseline_file : string;
  baseline_data : pyval;
  fs : node;
  bfile_content : bfile;
  bfile_writable : bool;
  clock : nat -> string;
  ticks : nat;
  stdout : list line }.

Definition set_baseline_data (v : pyval) (s : state) : state :=
  State (baseline_file s) v (fs s) (bfile_content s) (bfile_writable s)
        (clock s) (ticks s) (stdout s).

Definition set_fs (t : node) (s : state) : state :=
  State (baseline_file s) (baseline_data s) t (bfile_content s)
        (bfile_writable s) (clock s) (ticks s) (stdout s).

Definition set_bfile (b : bfile) (s : state) : state :=
  State (baseline_file s) (baseline_data s) (fs s) b (bfile_writable s)
        (clock s) (ticks s) (stdout s).

Definition tick (s : state) : state :=
  State (baseline_file s) (baseline_data s) (fs s) (bfile_content s)
        (bfile_writable s) (clock s) (S (ticks s)) (stdout s).

Definition emit (l : line) (s : state) : state :=
  State (baseline_file s) (baseline_data s) (fs s) (bfile_content s)
        (bfile_writable s) (clock s) (ticks s) (stdout s ++ [l]).

(** ** A state and exception monad *)

Inductive outcome (A : Type) : Type :=
| Ok (a : A)
| Raise (e : exn).
Arguments Ok {A} a.
Arguments Raise {A} e.

Definition M (A : Type) : Type := state -> outcome A * state.

Definition ret {A} (a : A) : M A := fun s => (Ok a, s).
Definition raise {A} (e : exn) : M A := fun s => (Raise e, s).
Definition bind {A B} (m : M A) (k : A -> M B) : M B :=
  fun s => match m s with
           | (Ok a, s') => k a s'
           | (Raise e, s') => (Raise e, s')
           end.
Definition gets {A} (f : state -> A) : M A := fun s => (Ok (f s), s).
Definition modify (f : state -> state) : M unit := fun s => (Ok tt, f s).
(** [print(...)]: the line goes to the console, which is taken to encode
    it; [line_encodable], further down, tells the lines for which a
    console in UTF-8 does. *)
Definition print (l : line) : M unit := modify (emit l).

Notation "x <- c1 ;; c2" := (bind c1 (fun x => c2))
  (at level 61, c1 at next level, right associativity).
Notation "c1 ;; c2" := (bind c1 (fun _ => c2))
  (at level 61, right associativity).

Fixpoint for_each {A} (l : list A) (body : A -> M unit) : M unit :=
  match l with
  | [] => ret tt
  | a :: l' => body a ;; for_each l' body
  end.

(** A [for] loop that appends to local lists: the lists are threaded. *)
Fixpoint for_fold {A B} (l : list A) (acc : B) (body : B -> A -> M B) : M B :=
  match l with
  | [] => ret acc
  | a :: l' => acc' <- body acc a ;; for_fold l' acc' body
  end.

(** [datetime.now().isoformat()] *)
Definition now_isoformat : M string :=
  t <- gets (fun s => clock s (ticks s)) ;;
  modify tick ;;
  ret t.

(** Subscription [v[k]] with a string key. *)
Definition py_getitem (v : pyval) (k : string) : M pyval :=
  match v with
  | PDict d => match dict_get k d with
               | Some x => ret x
               | None => raise KeyError
               end
  | _ => raise TypeError
  end.

(** [v.get(k)] *)
Definition py_get (v : pyval) (k : string) : M pyval :=
  match v with
  | PDict d => match dict_get k d with
               | Some x => ret x
               | None => ret PNone
               end
  | _ => raise AttributeError
  end.

(** [v.items()] *)
Definition py_items (v : pyval) : M (list (string * pyval)) :=
  match v with
  | PDict d => ret d
  | _ => raise AttributeError
  end.

(** An operation that can raise but leaves the state alone. *)
Definition attempt {A} (f : state -> outcome A) : M A := fun s => (f s, s).

(** [os.path.isdir(v)] on whatever the baseline holds.  An integer is taken
    for a file descriptor, and the process holds no descriptor of a
    directory; an integer that does not fit a C int overflows; on anything
    else that is not a string [os.stat] raises [TypeError], which [isdir]
    does not catch. *)
Definition os_path_isdir_py (root : node) (v : pyval) : outcome bool :=
  match v with
  | PStr d => Ok (os_path_isdir root d)
  | PBool _ => Ok false
  | PInt z => if ((-2147483648 <=? z) && (z <=? 2147483647))%Z
              then Ok false else Raise OverflowError
  | _ => Raise TypeError
  end.

(** ** class FileIntegrityChecker *)

Definition chunk_size : nat := 4096.

(** The loop [for byte_block in iter(lambda: f.read(4096), b"")] with
    [sha256_hash.update(byte_block)] as its body.  [f] is what is left to
    read; the hash object is the message it has been fed so far.  Every
    round but the last consumes at least one byte. *)
Fixpoint read_blocks (fuel : nat) (f : list byte) (sha256_hash : list byte)
  : list byte :=
  match fuel with
  | O => sha256_hash
  | S fuel' =>
      match firstn chunk_size f with
      | [] => sha256_hash
      | byte_block => read_blocks fuel' (skipn chunk_size f)
                                  (sha256_hash ++ byte_block)
      end
  end.

Definition calculate_hash (file_path : string) : M (option string) :=
  opened <- gets (fun s => open_rb (fs s) file_path) ;;
  match opened with
  | Some f =>
      let sha256_hash := read_blocks (S (List.length f)) f [] in
      ret (Some (SHA256.hexdigest sha256_hash))
  | None =>
      print (ErrorReadingFile file_path) ;;
      ret None
  end.

(** [try: body except classes: handler]: an exception of [body] that is
    an instance of one of the classes is handled, any other goes on. *)
Definition try_except {A} (body : M A) (classes : exn -> bool)
  (handler : exn -> M A) : M A :=
  fun s => match body s with
           | (Raise e, s') => if classes e then handler e s' else (Raise e, s')
           | (Ok a, s') => (Ok a, s')
           end.

(** [with open(self.baseline_file, "r") as f: return json.load(f)] *)
Definition json_load_file : M pyval :=
  content <- gets bfile_content ;;
  match content with
  | Absent => raise IOError
  | Unreadable => raise IOError
  | NotText => raise UnicodeDecodeError
  | NotJson => raise JSONDecodeError
  | TooDeep => raise RecursionError
  | Json v => if ints_ok v then ret v else raise ValueError
  end.

(** [except (IOError, json.JSONDecodeError)]: of the exceptions of the
    model these two are instances of the classes named. *)
Definition load_errors (e : exn) : bool :=
  match e with
  | IOError | JSONDecodeError => true
  | _ => false
  end.

Definition load_baseline : M pyval :=
  found <- gets (fun s => match bfile_content s with
                          | Absent => false
                          | _ => true
                          end) ;;
  if found then
    try_except json_load_file load_errors
               (fun _ => print ErrorLoadingBaseline ;; ret (PDict []))
  else ret (PDict []).

(** [__init__] *)
Definition init : M unit :=
  data <- load_baseline ;;
  modify (set_baseline_data data).

(** [json.dump] is taken to get through the value; [max_nesting], further
    down, bounds the nesting for which it does. *)
Definition save_baseline : M unit :=
  writable <- gets bfile_writable ;;
  if writable then
    data <- gets baseline_data ;;
    modify (set_bfile (Json data)) ;;
    file <- gets baseline_file ;;
    print (BaselineSaved file)
  else
    print ErrorSavingBaseline.

(** [self.baseline_data["files"][relative_path] = entry] *)
Definition set_file_entry (relative_path : string) (entry : pyval) : M unit :=
  data <- gets baseline_data ;;
  files <- py_getitem data "files" ;;
  match data, files with
  | PDict d, PDict fl =>
      modify (set_baseline_data
                (PDict (dict_set "files" (PDict (dict_set relative_path entry fl)) d)))
  | _, _ => raise TypeError
  end.

(** [len(self.baseline_data['files'])] *)
Definition len_files : M nat :=
  data <- gets baseline_data ;;
  files <- py_getitem data "files" ;;
  match files with
  | PDict fl => ret (List.length fl)
  | PList l => ret (List.length l)
  | PStr s => ret (String.length s)
  | _ => raise TypeError
  end.

(** The body of the inner loop of [create_baseline], from the second
    statement on: [file_path] is [os.path.join(root, file)]. *)
Definition add_file (directory file_path : string) : M unit :=
  file_hash <- calculate_hash file_path ;;
  match file_hash with
  | Some h =>
      if String.eqb h "" then ret tt
      else
        let relative_path := os_path_relpath file_path directory in
        last_checked <- now_isoformat ;;
        set_file_entry relative_path
          (PDict [("hash", PStr h); ("last_checked", PStr last_checked)])
  | None => ret tt
  end.

Definition create_baseline (directory : string) : M unit :=
  isdir <- gets (fun s => os_path_isdir (fs s) directory) ;;
  if negb isdir then
    print (NotValidDirectory directory)
  else
    timestamp <- now_isoformat ;;
    modify (set_baseline_data
              (PDict [("directory", PStr directory);
                      ("timestamp", PStr timestamp);
                      ("files", PDict [])])) ;;
    walk <- gets (fun s => os_walk (fs s) directory) ;;
    for_each walk (fun '(root, _, files) =>
      for_each files (fun file =>
        add_file directory (os_path_join root file))) ;;
    save_baseline ;;
    n <- len_files ;;
    print (BaselineCreated directory n).

(** What [verify_integrity] returns when it does not return [None]. *)
Record report : Type := Report {
  changed_files : list string;
  new_files : list string;
  missing_files : list string }.

(** The body of the loop over [baseline_files.items()]; the pair holds
    [changed_files] and [missing_files]. *)
Definition check_entry (directory : string)
  (lists : list string * list string) (item : string * pyval)
  : M (list string * list string) :=
  let '(changed, missing) := lists in
  let '(relative_path, file_data) := item in
  let file_path := os_path_join directory relative_path in
  present <- gets (fun s => os_path_exists (fs s) file_path) ;;
  if negb present then
    ret (changed, missing ++ [relative_path])
  else
    current_hash <- calculate_hash file_path ;;
    stored <- py_getitem file_data "hash" ;;
    if hash_ne current_hash stored
    then ret (changed ++ [relative_path], missing)
    else ret (changed, missing).

(** The body of the inner loop of the second walk. *)
Definition check_new (directory : string) (baseline_files : list (string * pyval))
  (root : string) (new : list string) (file : string) : M (list string) :=
  let file_path := os_path_join root file in
  let relative_path := os_path_relpath file_path directory in
  if negb (dict_mem relative_path baseline_files)
  then ret (new ++ [relative_path])
  else ret new.

Definition print_list (header : line) (files : list string) : M unit :=
  match files with
  | [] => ret tt
  | _ => print header ;; for_each files (fun file => print (Item file))
  end.

Definition print_results (changed new missing : list string) : M unit :=
  match changed, new, missing with
  | [], [], [] => print AllFilesMatch
  | _, _, _ =>
      print_list ChangedHeader changed ;;
      print_list NewHeader new ;;
      print_list MissingHeader missing
  end.

(** [self.baseline_data["last_checked"] = value] *)
Definition set_last_checked (value : string) : M unit :=
  data <- gets baseline_data ;;
  match data with
  | PDict d =>
      modify (set_baseline_data (PDict (dict_set "last_checked" (PStr value) d)))
  | _ => raise TypeError
  end.

Definition verify_integrity : M (option report) :=
  data <- gets baseline_data ;;
  if negb (truthy data) then
    print NoBaselineData ;;
    ret None
  else
    directory <- py_get data "directory" ;;
    valid <- (if negb (truthy directory) then ret false
              else attempt (fun s => os_path_isdir_py (fs s) directory)) ;;
    if negb valid then
      print (BaselineDirectoryNotValid directory) ;;
      ret None
    else
      match directory with
      | PStr directory =>
          baseline_files <- py_getitem data "files" ;;
          items <- py_items baseline_files ;;
          (* Check all files in the baseline *)
          lists <- for_fold items ([], []) (check_entry directory) ;;
          let '(changed, missing) := lists in
          (* Check for new files not in baseline *)
          walk <- gets (fun s => os_walk (fs s) directory) ;;
          new <- for_fold walk []
            (fun new '(root, _, files) =>
               for_fold files new (check_new directory items root)) ;;
          print_results changed new missing ;;
          (* Update last checked time *)
          last_checked <- now_isoformat ;;
          set_last_checked last_checked ;;
          save_baseline ;;
          ret (Some (Report changed new missing))
      | _ => raise TypeError
      end.

Inductive command : Type := create | verify.

(** [main] after argument parsing: the checker is built, which loads the
    baseline, and the command is run. *)
Definition main (cmd : command) (path : string) : M unit :=
  init ;;
  match cmd with
  | create => create_baseline path
  | verify => verify_integrity ;; ret tt
  end.

(** ** Notions the properties are stated with *)

Definition bytes (s : string) : list byte := list_byte_of_string s.

(** A proper file name: not empty, not [.] or [..], and without a slash. *)
Fixpoint has_slash (s : string) : bool :=
  match s with
  | EmptyString => false
  | String c s' => Ascii.eqb c slash || has_slash s'
  end.

Definition name_ok (name : string) : bool :=
  negb (String.eqb name "") && negb (String.eqb name ".")
  && negb (String.eqb name "..") && negb (has_slash name).

Abbreviation names_ok := (Forall (fun n => name_ok n = true)).

Fixpoint distinct (l : list string) : bool :=
  match l with
  | [] => true
  | x :: l' => negb (existsb (String.eqb x) l') && distinct l'
  end.

(** A well-formed tree: every directory lists proper names, each once. *)
Fixpoint tree_ok (n : node) : bool :=
  match n with
  | File _ => true
  | Dir children | Locked children =>
      forallb name_ok (map fst children) && distinct (map fst children)
      && (fix all (l : list (string * node)) :=
            match l with
            | [] => true
            | (_, c) :: l' => tree_ok c && all l'
            end) children
  end.

(** The entries under a directory that are not directories and that a
    walk reaches, each with its path from that directory, component by
    component, and with what reading it gives; in the order of
    [os.walk]. *)
Fixpoint tree_files (n : node) : list (list string * option (list byte)) :=
  match n with
  | File _ => []
  | Locked _ => []
  | Dir children =>
      flat_map (fun e => match snd e with
                         | File data => [([fst e], data)]
                         | _ => []
                         end) children
      ++ (fix subdirs (l : list (string * node)) :=
            match l with
            | [] => []
            | (name, c) :: l' =>
                map (fun f => (name :: fst f, snd f)) (tree_files c) ++ subdirs l'
            end) children
  end.

(** Every directory at or below [n] can be listed. *)
Fixpoint listable (n : node) : bool :=
  match n with
  | File _ => true
  | Locked _ => false
  | Dir children =>
      (fix all (l : list (string * node)) :=
         match l with
         | [] => true
         | (_, c) :: l' => listable c && all l'
         end) children
  end.

Definition all_readable (n : node) : bool :=
  forallb (fun f => match snd f with Some _ => true | None => false end)
          (tree_files n).

(** A relative path written with slashes. *)
Definition rel_key (rel : list string) : string := String.concat "/" rel.

(** Descent from a node along proper names. *)
Fixpoint tree_lookup (n : node) (rel : list string) : option node :=
  match rel with
  | [] => Some n
  | c :: cs =>
      match n with
      | File _ => None
      | Dir children | Locked children =>
          match fs_find c children with
          | Some n' => tree_lookup n' cs
          | None => None
          end
      end
  end.

(** The file paths a walk hands to the loop bodies, in order. *)
Definition walk_paths (walk : list (string * list string * list string))
  : list string :=
  flat_map (fun '(root, _, files) => map (os_path_join root) files) walk.

(** A walked path [p] names the entry [f] found [pre] below [directory]
    and has the expected relative path. *)
Definition walked (root : node) (directory : string) (pre : list string)
  (p : string) (f : list string * option (list byte)) : Prop :=
  os_stat root p = Some (File (snd f))
  /\ os_path_relpath p directory = rel_key (pre ++ fst f).

(** The relative paths the second loop of [verify_integrity] looks at. *)
Definition disk_paths (root : node) (directory : string) : list string :=
  map (fun p => os_path_relpath p directory) (walk_paths (os_walk root directory)).

(** What [calculate_hash] returns for a path, as a function of the tree. *)
Definition current_digest (root : node) (path : string) : option string :=
  option_map SHA256.hexdigest (open_rb root path).

Definition stored_hash (file_data : pyval) : option pyval :=
  match file_data with
  | PDict e => dict_get "hash" e
  | _ => None
  end.

(** The three tests of the first loop on one baseline entry. *)
Definition is_missing (root : node) (directory : string) (item : string * pyval) : bool :=
  negb (os_path_exists root (os_path_join directory (fst item))).

Definition is_changed (root : node) (directory : string) (item : string * pyval) : bool :=
  os_path_exists root (os_path_join directory (fst item))
  && match stored_hash (snd item) with
     | Some stored =>
         hash_ne (current_digest root (os_path_join directory (fst item))) stored
     | None => false
     end.

(** An entry the first loop gets through without an exception. *)
Definition entry_ok (root : node) (directory : string) (item : string * pyval) : bool :=
  is_missing root directory item
  || match stored_hash (snd item) with Some _ => true | None => false end.

Definition is_new (baseline_files : list (string * pyval)) (relative_path : string) : bool :=
  negb (dict_mem relative_path baseline_files).

(** The lines [calculate_hash] prints during the first loop. *)
Definition read_errors (root : node) (directory : string)
  (items : list (string * pyval)) : list line :=
  flat_map (fun item =>
              let file_path := os_path_join directory (fst item) in
              if os_path_exists root file_path then
                match open_rb root file_path with
                | Some _ => []
                | None => [ErrorReadingFile file_path]
                end
              else []) items.

Definition emits (ls : list line) (s : state) : state :=
  State (baseline_file s) (baseline_data s) (fs s) (bfile_content s)
        (bfile_writable s) (clock s) (ticks s) (stdout s ++ ls).

(** What [create_baseline] stores for a file. *)
Definition file_entry (hash last_checked : string) : pyval :=
  PDict [("hash", PStr hash); ("last_checked", PStr last_checked)].

(** The [files] dictionary and the clock reading after the loops of
    [create_baseline] have gone through [paths]. *)
Fixpoint scan (root : node) (clock : nat -> string) (directory : string)
  (paths : list string) (t : nat) (files : list (string * pyval))
  : nat * list (string * pyval) :=
  match paths with
  | [] => (t, files)
  | p :: paths' =>
      match open_rb root p with
      | Some data =>
          scan root clock directory paths' (S t)
               (dict_set (os_path_relpath p directory)
                         (file_entry (SHA256.hexdigest data) (clock t)) files)
      | None => scan root clock directory paths' t files
      end
  end.

(** The entries expected for the files of a tree, in order; an entry that
    cannot be read gets none. *)
Fixpoint entries_of (clock : nat -> string) (t : nat)
  (files : list (list string * option (list byte))) : list (string * pyval) :=
  match files with
  | [] => []
  | (rel, Some data) :: files' =>
      (rel_key rel, file_entry (SHA256.hexdigest data) (clock t))
      :: entries_of clock (S t) files'
  | (_, None) :: files' => entries_of clock t files'
  end.

(** The snapshot [create_baseline] builds. *)
Definition snapshot (directory timestamp : string)
  (files : list (string * pyval)) : pyval :=
  PDict [("directory", PStr directory); ("timestamp", PStr timestamp);
         ("files", PDict files)].

(** The state a [create_baseline] on a valid directory leaves. *)
Definition created (s : state) (directory : string) (out : list line) : state :=
  let r := scan (fs s) (clock s) directory
                (walk_paths (os_walk (fs s) directory)) (S (ticks s)) [] in
  let data := snapshot directory (clock s (ticks s)) (snd r) in
  State (baseline_file s) data (fs s)
        (if bfile_writable s then Json data else bfile_content s)
        (bfile_writable s) (clock s) (fst r) (stdout s ++ out).

(** An entry as [create_baseline] writes it. *)
Definition entry_shape (e : string * pyval) : Prop :=
  exists h t, snd e = file_entry h t.

(** What [baseline_data.get("directory")] gives. *)
Definition directory_of (data : list (string * pyval)) : pyval :=
  match dict_get "directory" data with
  | Some v => v
  | None => PNone
  end.

(** The test [not directory or not os.path.isdir(directory)] comes out
    true: the run stops with the message about the directory. *)
Definition invalid_directory (root : node) (v : pyval) : Prop :=
  truthy v = false \/ os_path_isdir_py root v = Ok false.

(** The lists a completed comparison returns. *)
Definition expected_report (root : node) (directory : string)
  (items : list (string * pyval)) : report :=
  Report (map fst (filter (is_changed root directory) items))
         (filter (is_new items) (disk_paths root directory))
         (map fst (filter (is_missing root directory) items)).

(** The state a completed [verify_integrity] leaves: the top-level
    [last_checked] is set, the result is saved if the file can be written,
    the clock has been read once and [out] has been printed. *)
Definition verified (s : state) (data : list (string * pyval))
  (out : list line) : state :=
  let data' := PDict (dict_set "last_checked" (PStr (clock s (ticks s))) data) in
  State (baseline_file s) data' (fs s)
        (if bfile_writable s then Json data' else bfile_content s)
        (bfile_writable s) (clock s) (S (ticks s)) (stdout s ++ out).




(** What [load_baseline] returns when it returns. *)
Definition loaded (b : bfile) : pyval :=
  match b with
  | Json v => v
  | _ => PDict []
  end.

(** The baseline files [load_baseline] gets through: all but one that
    is not text, one nested too deep, and one with an integer of too many
    digits. *)
Definition loads (b : bfile) : bool :=
  match b with
  | NotText | TooDeep => false
  | Json v => ints_ok v
  | _ => true
  end.

(** [json.dump] goes down a value by recursion, a frame for each level of
    nesting, and raises [RecursionError] when the interpreter's limit, 1000
    frames unless it has been changed, is reached.  A value nested no
    deeper than this is well within it. *)
Definition max_nesting : nat := 200.

(** A [string] of the model is a Python [str] in UTF-8.  A lone surrogate,
    which [json.load] takes from an escape such as [\ud800] and which
    stands in a file name for a byte that is not UTF-8, has no encoding;
    it is kept in the three bytes of the generalised form, [ED] and then a
    byte from [A0] on.  [print] to a console in UTF-8 raises
    [UnicodeEncodeError] on a string that holds one, and on no other. *)
Fixpoint encodable (s : string) : bool :=
  match s with
  | EmptyString => true
  | String c s' =>
      match s' with
      | String c' _ =>
          negb (Ascii.eqb c (ascii_of_nat 237) && Nat.leb 160 (nat_of_ascii c'))
      | EmptyString => true
      end && encodable s'
  end.

(** The lines the console can take.  What is printed of a value that is
    not a string, and of the error of a file that could not be read, goes
    through [repr], which escapes what cannot be encoded. *)
Definition line_encodable (l : line) : bool :=
  match l with
  | ErrorReadingFile file_path => encodable file_path
  | BaselineSaved file => encodable file
  | NotValidDirectory directory => encodable directory
  | BaselineCreated directory _ => encodable directory
  | BaselineDirectoryNotValid (PStr directory) => encodable directory
  | Item file => encodable file
  | _ => true
  end.

(** The snapshots [verify_integrity] gets through without an exception:
    an empty one; or a dictionary whose [directory] is missing or empty or
    can be tested and is no directory; or one whose [directory] names a
    directory and whose [files] is a dictionary in which every entry that
    is found on disk is a dictionary with a [hash]. *)
Definition verifiable (root : node) (v : pyval) : bool :=
  negb (truthy v)
  || match v with
     | PDict data =>
         let directory := directory_of data in
         negb (truthy directory)
         || match os_path_isdir_py root directory with
            | Ok false => true
            | Ok true =>
                match directory, dict_get "files" data with
                | PStr d, Some (PDict items) => forallb (entry_ok root d) items
                | _, _ => false
                end
            | Raise _ => false
            end
     | _ => false
     end.

(** A computation that, however it ends, prints no line saying that there
    is no baseline. *)
Definition quiet {A} (m : M A) : Prop :=
  forall s o s',
    m s = (o, s') ->
    exists out, stdout s' = stdout s ++ out /\ ~ In NoBaselineData out.

(** The run stops before the comparison: there is no baseline, or its
    directory is not valid. *)
Definition early_abort (s : state) : Prop :=
  truthy (baseline_data s) = false
  \/ exists data, baseline_data s = PDict data /\ data <> []
                  /\ invalid_directory (fs s) (directory_of data).

(** ** Concrete trees and states *)

Definition demo_clock (n : nat) : string :=
  String "T" (String (ascii_of_nat (48 + n)) "").

(** [srv/a.txt] holds "hello" and [srv/sub/b.txt] holds "world". *)
Definition demo_tree : node :=
  Dir [("srv", Dir [("a.txt", File (Some (bytes "hello")));
                    ("sub", Dir [("b.txt", File (Some (bytes "world")))])])].

(** The same with a file [srv/lock] that cannot be read. *)
Definition locked_tree : node :=
  Dir [("srv", Dir [("a.txt", File (Some (bytes "hello")));
                    ("lock", File None);
                    ("sub", Dir [("b.txt", File (Some (bytes "world")))])])].

(** [srv/a.txt] has lost its read permission, [srv/sub/b.txt] has become
    a directory and [srv/c.txt] has appeared. *)
Definition later_tree : node :=
  Dir [("srv", Dir [("a.txt", File None);
                    ("c.txt", File (Some (bytes "new")));
                    ("sub", Dir [("b.txt", Dir [])])])].

(** The tree of [demo_tree] with [srv/sub] having lost its read
    permission: [srv/sub/b.txt] can still be opened, but [srv/sub] cannot
    be listed. *)
Definition hidden_tree : node :=
  Dir [("srv", Dir [("a.txt", File (Some (bytes "hello")));
                    ("sub", Locked [("b.txt", File (Some (bytes "world")))])])].


(** A checker that found no baseline file. *)
Definition fresh (t : node) : state :=
  State "baseline.json" (PDict []) t Absent true demo_clock 0 [].

(** The snapshot [create_baseline "srv"] takes of [demo_tree] when the
    clock reads [T0], [T1], [T2]. *)
Definition demo_files : list (string * pyval) :=
  [("a.txt",
    file_entry "2cf24dba5fb0a30e26e83b2ac5b9e29e1b161e5c1fa7425e73043362938b9824"
               "T1");
   ("sub/b.txt",
    file_entry "486ea46224d1bb4fb680f34f7c9ad96a8f24ec88be73ea8e5a6c65260e9cb8a7"
               "T2")].

Definition demo_snapshot : pyval := snapshot "srv" "T0" demo_files.

(** The state [create_baseline "srv"] leaves on [fresh demo_tree]. *)
Definition demo_created : state :=
  State "baseline.json" demo_snapshot demo_tree (Json demo_snapshot) true
        demo_clock 3 [BaselineSaved "baseline.json"; BaselineCreated "srv" 2].

Arguments SHA256.hexdigest : simpl never.

(** ** What the commands print and leave *)

(** The line [save_baseline] prints. *)
Definition save_line (s : state) : line :=
  if bfile_writable s then BaselineSaved (baseline_file s)
  else ErrorSavingBaseline.

(** A list of the report as it is printed: nothing for an empty list, else
    the header and one line for each path. *)
Definition list_lines (header : line) (files : list string) : list line :=
  match files with
  | [] => []
  | _ => header :: map Item files
  end.

Definition result_lines (r : report) : list line :=
  match changed_files r, new_files r, missing_files r with
  | [], [], [] => [AllFilesMatch]
  | _, _, _ =>
      list_lines ChangedHeader (changed_files r)
      ++ list_lines NewHeader (new_files r)
      ++ list_lines MissingHeader (missing_files r)
  end.

(** The lines [calculate_hash] prints while [create_baseline] goes through
    [paths]. *)
Definition scan_errors (root : node) (paths : list string) : list line :=
  flat_map (fun p => match open_rb root p with
                     | Some _ => []
                     | None => [ErrorReadingFile p]
                     end) paths.

Definition is_readable (f : list string * option (list byte)) : bool :=
  match snd f with Some _ => true | None => false end.

(** Key and stored digest of an entry, without its time. *)
Definition key_and_hash (e : string * pyval) : string * option pyval :=
  (fst e, stored_hash (snd e)).

(** Everything but what was printed is as it was. *)
Definition untouched (s s' : state) : Prop :=
  baseline_file s' = baseline_file s
  /\ baseline_data s' = baseline_data s
  /\ fs s' = fs s
  /\ bfile_content s' = bfile_content s
  /\ bfile_writable s' = bfile_writable s
  /\ clock s' = clock s
  /\ ticks s' = ticks s.

(** The tree of [demo_tree] with empty directories added inside and
    outside [srv]. *)
Definition padded_tree : node :=
  Dir [("srv", Dir [("a.txt", File (Some (bytes "hello")));
                    ("empty", Dir []);
                    ("sub", Dir [("b.txt", File (Some (bytes "world")));
                                 ("deep", Dir [("deeper", Dir [])])])]);
       ("tmp", Dir [])].

(** Unfolds the updates of the state and reads the fields off. *)
Ltac simpl_state :=
  unfold set_baseline_data, set_fs, set_bfile, tick, emit, emits in *;
  cbn [baseline_file baseline_data fs bfile_content bfile_writable clock
       ticks stdout] in *.

(** * Properties *)

(** ** The digest *)

Lemma hexdigest_not_empty (msg : list byte) :
  String.eqb (SHA256.hexdigest msg) "" = false.
Proof. reflexivity. Qed.

Lemma hexdigest_length (msg : list byte) :
  String.length (SHA256.hexdigest msg) = 64.
Proof. reflexivity. Qed.

Lemma hex_digit_lowercase (z : Z) : In (SHA256.hex_digit z) SHA256.hexchars.
Proof.
  unfold SHA256.hex_digit.
  destruct (Nat.lt_ge_cases (Z.to_nat (Z.land z 15)) (List.length SHA256.hexchars))
    as [Hlt | Hge].
  - now apply nth_In.
  - rewrite nth_overflow by exact Hge. simpl. now left.
Qed.

Lemma hexdigest_lowercase (msg : list byte) :
  Forall (fun c => In c SHA256.hexchars)
         (list_ascii_of_string (SHA256.hexdigest msg)).
Proof.
  unfold SHA256.hexdigest, SHA256.hex_of_regs, SHA256.hex8.
  cbn [list_ascii_of_string].
  repeat (apply Forall_cons; [apply hex_digit_lowercase|]).
  constructor.
Qed.

(** ** Reading a file in blocks *)

Lemma chunk_size_pos : chunk_size <> 0.
Proof. discriminate. Qed.

Lemma firstn_nil_inv {A} (n : nat) (l : list A) :
  n <> 0 -> firstn n l = [] -> l = [].
Proof. destruct n, l; simpl; congruence. Qed.

Lemma read_blocks_all (fuel : nat) :
  forall f acc, List.length f < fuel -> read_blocks fuel f acc = acc ++ f.
Proof.
  induction fuel as [|fuel IH]; intros f acc Hlen; [lia|].
  cbn [read_blocks].
  destruct (firstn chunk_size f) as [|b blk] eqn:Hblk.
  - apply firstn_nil_inv in Hblk; [|exact chunk_size_pos].
    subst f. now rewrite app_nil_r.
  - rewrite IH.
    + rewrite <- Hblk, <- app_assoc. now rewrite firstn_skipn.
    + assert (Hf : f <> []) by (intros ->; now rewrite firstn_nil in Hblk).
      rewrite length_skipn.
      destruct f; [congruence|]. simpl in Hlen |- *.
      pose proof chunk_size_pos. lia.
Qed.

Lemma calculate_hash_spec (file_path : string) (s : state) :
  calculate_hash file_path s =
  match open_rb (fs s) file_path with
  | Some data => (Ok (Some (SHA256.hexdigest data)), s)
  | None => (Ok None, emit (ErrorReadingFile file_path) s)
  end.
Proof.
  unfold calculate_hash, bind, gets.
  destruct (open_rb (fs s) file_path) as [data|]; [|reflexivity].
  unfold ret. now rewrite read_blocks_all by lia.
Qed.

Lemma calculate_hash_digest (file_path : string) (s : state) :
  fst (calculate_hash file_path s) = Ok (current_digest (fs s) file_path).
Proof.
  rewrite calculate_hash_spec. unfold current_digest.
  now destruct (open_rb (fs s) file_path).
Qed.

(** ** Paths as strings and as components *)

Lemma append_assoc (a b c : string) : ((a ++ b) ++ c = a ++ (b ++ c))%string.
Proof. induction a as [|x a IH]; simpl; [reflexivity | now rewrite IH]. Qed.

Lemma append_empty_r (a : string) : (a ++ "")%string = a.
Proof. induction a as [|x a IH]; simpl; [reflexivity | now rewrite IH]. Qed.

Lemma split_slash_cons (s : string) : exists h t, split_slash s = h :: t.
Proof.
  induction s as [|c s [h [t IH]]]; simpl; [now eauto|].
  destruct (Ascii.eqb c slash); [now eauto|]. rewrite IH. now eauto.
Qed.

Lemma split_slash_app (a b : string) :
  split_slash (a ++ "/" ++ b) = split_slash a ++ split_slash b.
Proof.
  induction a as [|c a IH]; [reflexivity|].
  change (split_slash (String c (a ++ "/" ++ b))
          = split_slash (String c a) ++ split_slash b).
  cbn [split_slash].
  destruct (Ascii.eqb c slash).
  - now rewrite IH.
  - rewrite IH. destruct (split_slash_cons a) as [h [t ->]]. reflexivity.
Qed.

Lemma split_slash_name (name : string) :
  has_slash name = false -> split_slash name = [name].
Proof.
  induction name as [|c name IH]; [reflexivity|].
  cbn [has_slash split_slash]. intros H.
  apply orb_false_iff in H as [-> H]. now rewrite IH.
Qed.

Lemma ends_with_slash_inv (a : string) :
  ends_with_slash a = true -> exists a0, a = (a0 ++ "/")%string.
Proof.
  induction a as [|c a IH]; [discriminate|].
  destruct a as [|c' a'].
  - cbn. intros H. apply Ascii.eqb_eq in H. subst c. now exists "".
  - intros H. change (ends_with_slash (String c' a') = true) in H.
    destruct (IH H) as [a0 ->]. now exists (String c a0).
Qed.

(** Joining appends components, up to one empty component at the seam. *)
Lemma join_split (a b : string) :
  starts_with_slash b = false ->
  exists X E, (E = [] \/ E = [""]) /\ split_slash a = X ++ E
              /\ split_slash (os_path_join a b) = X ++ split_slash b.
Proof.
  intros Hb. unfold os_path_join. rewrite Hb.
  destruct (String.eqb_spec a "") as [-> | Ha].
  - exists [], [""]. cbn. auto.
  - cbn [orb]. destruct (ends_with_slash a) eqn:He.
    + destruct (ends_with_slash_inv a He) as [a0 ->].
      exists (split_slash a0), [""]. split; [auto|]. split.
      * rewrite <- (append_empty_r (a0 ++ "/")), append_assoc.
        now rewrite split_slash_app.
      * now rewrite append_assoc, split_slash_app.
    + exists (split_slash a), []. split; [auto|]. split.
      * now rewrite app_nil_r.
      * apply split_slash_app.
Qed.

Lemma name_ok_inv (name : string) :
  name_ok name = true ->
  name <> "" /\ name <> "." /\ name <> ".." /\ has_slash name = false.
Proof.
  unfold name_ok. intros H.
  repeat (apply andb_true_iff in H as [H ?]).
  repeat split;
    try (apply String.eqb_neq; now apply negb_true_iff);
    now apply negb_true_iff.
Qed.

Lemma name_ok_no_leading_slash (name : string) :
  name_ok name = true -> starts_with_slash name = false.
Proof.
  intros H. apply name_ok_inv in H as (_ & _ & _ & H).
  destruct name as [|c name]; [reflexivity|].
  cbn in H |- *. now apply orb_false_iff in H as [? _].
Qed.

Lemma append_not_empty (a b : string) : b <> "" -> (a ++ b)%string <> "".
Proof. destruct a; simpl; [auto | discriminate]. Qed.

Lemma join_not_empty (a b : string) : b <> "" -> os_path_join a b <> "".
Proof.
  intros Hb. unfold os_path_join.
  destruct (starts_with_slash b); [exact Hb|].
  destruct (_ || _); [now apply append_not_empty|].
  apply append_not_empty. discriminate.
Qed.

(** [rel_key] and [split_slash] are inverse on lists of proper names. *)
Lemma rel_key_cons (x y : string) (rel : list string) :
  rel_key (x :: y :: rel) = (x ++ "/" ++ rel_key (y :: rel))%string.
Proof. reflexivity. Qed.

Lemma split_rel_key (rel : list string) :
  rel <> [] -> Forall (fun n => name_ok n = true) rel ->
  split_slash (rel_key rel) = rel.
Proof.
  induction rel as [|x rel IH]; [congruence|]. intros _ Hok.
  inversion Hok as [|? ? Hx Hrel]; subst.
  apply name_ok_inv in Hx as (_ & _ & _ & Hx).
  destruct rel as [|y rel].
  - now apply split_slash_name.
  - rewrite rel_key_cons, split_slash_app, split_slash_name by exact Hx.
    rewrite IH; [reflexivity | discriminate | exact Hrel].
Qed.

Lemma rel_key_no_leading_slash (rel : list string) :
  rel <> [] -> Forall (fun n => name_ok n = true) rel ->
  starts_with_slash (rel_key rel) = false.
Proof.
  destruct rel as [|x rel]; [congruence|]. intros _ Hok.
  inversion Hok as [|? ? Hx Hrel]; subst.
  pose proof (name_ok_no_leading_slash x Hx) as Hs.
  apply name_ok_inv in Hx as (Hne & _).
  destruct rel as [|y rel]; [exact Hs|].
  rewrite rel_key_cons. destruct x; [congruence | exact Hs].
Qed.

Lemma rel_key_not_empty (rel : list string) :
  rel <> [] -> Forall (fun n => name_ok n = true) rel -> rel_key rel <> "".
Proof.
  intros Hne Hok Hk. pose proof (split_rel_key rel Hne Hok) as Hs.
  rewrite Hk in Hs. cbn in Hs. subst rel.
  inversion Hok as [|? ? Hx _]; subst. discriminate.
Qed.

Lemma rel_key_inj (r1 r2 : list string) :
  r1 <> [] -> r2 <> [] ->
  Forall (fun n => name_ok n = true) r1 ->
  Forall (fun n => name_ok n = true) r2 ->
  rel_key r1 = rel_key r2 -> r1 = r2.
Proof.
  intros H1 H2 O1 O2 E.
  rewrite <- (split_rel_key r1 H1 O1), <- (split_rel_key r2 H2 O2).
  now rewrite E.
Qed.

(** ** Resolution of joined paths *)

Lemma resolve_app (xs ys : list string) :
  forall ps cur,
    resolve ps cur (xs ++ ys) =
    match resolve ps cur xs with
    | Some (ps', n') => resolve ps' n' ys
    | None => None
    end.
Proof.
  induction xs as [|c xs IH]; intros ps cur; [reflexivity|].
  cbn [app resolve]. destruct cur as [data|children|children]; [reflexivity| |].
  all: destruct (_ || _); [apply IH|].
  all: destruct (String.eqb c "..").
  all: try (destruct ps; apply IH).
  all: destruct (fs_find c children); [apply IH | reflexivity].
Qed.

Lemma resolve_names (rel : list string) :
  names_ok rel ->
  forall ps n, option_map snd (resolve ps n rel) = tree_lookup n rel.
Proof.
  induction 1 as [|c rel Hc Hrel IH]; intros ps n; [reflexivity|].
  apply name_ok_inv in Hc as (H1 & H2 & H3 & _).
  apply String.eqb_neq in H1, H2, H3.
  cbn [resolve tree_lookup]. destruct n as [data|children|children];
    [reflexivity| |].
  all: rewrite H1, H2, H3; cbn [orb].
  all: destruct (fs_find c children); [apply IH | reflexivity].
Qed.

Lemma resolve_seam (X E : list string) ps cur ps' children :
  E = [] \/ E = [""] ->
  resolve ps cur (X ++ E) = Some (ps', Dir children) ->
  resolve ps cur X = Some (ps', Dir children).
Proof.
  intros [-> | ->]; [now rewrite app_nil_r|].
  rewrite resolve_app.
  destruct (resolve ps cur X) as [[ps1 [data|ch1|ch1]]|]; cbn; congruence.
Qed.

Lemma os_stat_not_empty root path n : os_stat root path = Some n -> path <> "".
Proof. unfold os_stat. now destruct (String.eqb_spec path ""). Qed.

(** A slash-separated relative path joined to a directory leads where the
    descent along its components leads. *)
Lemma stat_join (root : node) (d : string) (children : list (string * node))
  (rel : list string) :
  os_stat root d = Some (Dir children) -> rel <> [] -> names_ok rel ->
  os_stat root (os_path_join d (rel_key rel)) = tree_lookup (Dir children) rel.
Proof.
  intros Hd Hne Hok.
  pose proof (os_stat_not_empty _ _ _ Hd) as Hdne.
  unfold os_stat in *.
  apply String.eqb_neq in Hdne. rewrite Hdne in Hd.
  pose proof (join_not_empty d (rel_key rel) (rel_key_not_empty rel Hne Hok)) as Hj.
  apply String.eqb_neq in Hj. rewrite Hj.
  destruct (join_split d (rel_key rel) (rel_key_no_leading_slash rel Hne Hok))
    as (X & E & HE & Hsd & Hsj).
  rewrite Hsj, split_rel_key by assumption. rewrite Hsd in Hd.
  destruct (resolve [] root (X ++ E)) as [[ps' n']|] eqn:HX; [|discriminate].
  cbn in Hd. injection Hd as ->.
  rewrite resolve_app, (resolve_seam X E _ _ _ _ HE HX).
  now apply resolve_names.
Qed.

Lemma stat_join_name (root : node) (d name : string)
  (children : list (string * node)) :
  os_stat root d = Some (Dir children) -> name_ok name = true ->
  os_stat root (os_path_join d name) = fs_find name children.
Proof.
  intros Hd Hn.
  change name with (rel_key [name]).
  rewrite (stat_join root d children [name] Hd); [|discriminate|now constructor].
  cbn. now destruct (fs_find name children).
Qed.

Lemma fold_norm_seam (X E : list string) (st : list string) :
  E = [] \/ E = [""] ->
  fold_left norm_step (X ++ E) st = fold_left norm_step X st.
Proof.
  intros [-> | ->]; [now rewrite app_nil_r|].
  now rewrite fold_left_app.
Qed.

Lemma abspath_join_name (a name : string) :
  name_ok name = true ->
  abspath_comps (os_path_join a name) = abspath_comps a ++ [name].
Proof.
  intros Hn. unfold abspath_comps.
  destruct (join_split a name (name_ok_no_leading_slash name Hn))
    as (X & E & HE & Hsa & Hsj).
  rewrite Hsj, Hsa, fold_left_app, (fold_norm_seam X E [] HE).
  apply name_ok_inv in Hn as (H1 & H2 & H3 & Hs).
  rewrite (split_slash_name name Hs). cbn [fold_left]. unfold norm_step at 1.
  apply String.eqb_neq in H1, H2, H3. rewrite H1, H2, H3. reflexivity.
Qed.

Lemma common_prefix_app (D R : list string) : common_prefix D (D ++ R) = D.
Proof.
  induction D as [|x D IH]; [now destruct R|].
  cbn. now rewrite String.eqb_refl, IH.
Qed.

Lemma relpath_under (p d : string) (rel : list string) :
  rel <> [] -> abspath_comps p = abspath_comps d ++ rel ->
  os_path_relpath p d = rel_key rel.
Proof.
  intros Hne Hp. unfold os_path_relpath.
  rewrite Hp, common_prefix_app, Nat.sub_diag. cbn [repeat app].
  rewrite skipn_app, skipn_all, Nat.sub_diag. cbn [skipn app].
  now destruct rel.
Qed.

(** ** The tree and its walk *)

Lemma tree_files_dir (children : list (string * node)) :
  tree_files (Dir children) =
  flat_map (fun e => match snd e with
                     | File data => [([fst e], data)]
                     | _ => []
                     end) children
  ++ flat_map (fun e => map (fun f => (fst e :: fst f, snd f)) (tree_files (snd e)))
              children.
Proof.
  cbn [tree_files]. f_equal.
  induction children as [|[name c] l IH]; [reflexivity|].
  cbn [flat_map fst snd]. now rewrite IH.
Qed.

Lemma walk_tree_dir (top : string) (children : list (string * node)) :
  walk_tree top (Dir children) =
  (top, dirnames children, filenames children)
  :: flat_map (fun e => walk_tree (os_path_join top (fst e)) (snd e)) children.
Proof.
  cbn [walk_tree]. f_equal.
  induction children as [|[name c] l IH]; [reflexivity|].
  cbn [flat_map fst snd]. now rewrite IH.
Qed.

Lemma tree_ok_dir (children : list (string * node)) :
  tree_ok (Dir children) = true ->
  names_ok (map fst children) /\ distinct (map fst children) = true
  /\ Forall (fun e => tree_ok (snd e) = true) children.
Proof.
  cbn [tree_ok]. intros H.
  apply andb_true_iff in H as [H Hall]. apply andb_true_iff in H as [Hn Hd].
  split; [|split; [exact Hd|]].
  - apply Forall_forall. now apply forallb_forall.
  - clear Hn Hd. induction children as [|[name c] l IH]; [constructor|].
    apply andb_true_iff in Hall as [Hc Hl]. constructor; [exact Hc | now apply IH].
Qed.

Lemma distinct_NoDup (l : list string) : distinct l = true -> NoDup l.
Proof.
  induction l as [|x l IH]; [constructor|]. cbn [distinct]. intros H.
  apply andb_true_iff in H as [Hx Hl]. constructor; [|now apply IH].
  intros Hin. apply negb_true_iff in Hx.
  assert (existsb (String.eqb x) l = true) as E; [|congruence].
  apply existsb_exists. exists x. split; [exact Hin | apply String.eqb_refl].
Qed.

Lemma fs_find_In (children : list (string * node)) (name : string) (c : node) :
  NoDup (map fst children) -> In (name, c) children ->
  fs_find name children = Some c.
Proof.
  induction children as [|[n' c'] l IH]; [contradiction|].
  cbn [map fst fs_find]. intros Hnd [E | Hin].
  - injection E as -> ->. now rewrite String.eqb_refl.
  - inversion Hnd as [|? ? Hn' Hl]; subst.
    destruct (String.eqb_spec name n') as [-> | _].
    + exfalso. apply Hn'. change n' with (fst (n', c)). now apply in_map.
    + now apply IH.
Qed.

Lemma walk_paths_cons root dirs files rest :
  walk_paths ((root, dirs, files) :: rest) =
  map (os_path_join root) files ++ walk_paths rest.
Proof. reflexivity. Qed.

Lemma walk_paths_app w1 w2 : walk_paths (w1 ++ w2) = walk_paths w1 ++ walk_paths w2.
Proof. apply flat_map_app. Qed.

Lemma Forall2_map_r {A B C} (R : A -> C -> Prop) (g : B -> C) l l' :
  Forall2 (fun a b => R a (g b)) l l' -> Forall2 R l (map g l').
Proof. induction 1; cbn; constructor; assumption. Qed.

(** What every non-directory entry of a well-formed tree satisfies. *)
Lemma tree_files_lookup (n : node) :
  tree_ok n = true ->
  forall rel data, In (rel, data) (tree_files n) ->
    rel <> [] /\ names_ok rel /\ tree_lookup n rel = Some (File data).
Proof.
  induction n as [data0|children IH|children IH] using node_induction;
    [contradiction| |contradiction].
  intros Hok rel data Hin.
  destruct (tree_ok_dir children Hok) as (Hn & Hd & Hc).
  apply distinct_NoDup in Hd.
  rewrite tree_files_dir in Hin. apply in_app_or in Hin as [Hin | Hin];
    apply in_flat_map in Hin as [[name c] [He Hin]]; cbn [fst snd] in Hin.
  - destruct c as [data'|sub|sub]; [|contradiction|contradiction].
    destruct Hin as [E|[]]. injection E as <- <-.
    split; [discriminate|]. split.
    + constructor; [|constructor].
      rewrite Forall_forall in Hn. apply Hn.
      change name with (fst (name, File data')). now apply in_map.
    + cbn [tree_lookup]. now rewrite (fs_find_In children name _ Hd He).
  - apply in_map_iff in Hin as [[rel' data'] [E Hin]].
    cbn [fst snd] in E. injection E as <- <-.
    rewrite Forall_forall in IH, Hc.
    destruct (IH _ He (Hc _ He) rel' data' Hin) as (Hne & Hrel & Hl).
    split; [discriminate|]. split.
    + constructor; [|exact Hrel].
      rewrite Forall_forall in Hn. apply Hn.
      change name with (fst (name, c)). now apply in_map.
    + cbn [tree_lookup]. now rewrite (fs_find_In children name _ Hd He).
Qed.

Section Walk.
Variable root : node.
Variable directory : string.

Lemma walk_files (n : node) :
  tree_ok n = true ->
  forall top pre,
    os_stat root top = Some n ->
    abspath_comps top = abspath_comps directory ++ pre ->
    Forall2 (walked root directory pre) (walk_paths (walk_tree top n))
            (tree_files n).
Proof.
  induction n as [data0|children IH|children IH] using node_induction;
    intros Hok top pre Htop Habs; [constructor| |constructor].
  destruct (tree_ok_dir children Hok) as (Hn & Hd & Hc).
  apply distinct_NoDup in Hd.
  assert (Hname : forall e, In e children -> name_ok (fst e) = true).
  { intros e He. rewrite Forall_forall in Hn. apply Hn. now apply in_map. }
  assert (Hfind : forall e, In e children ->
                            os_stat root (os_path_join top (fst e)) = Some (snd e)).
  { intros [name c] He. cbn [fst snd].
    rewrite (stat_join_name root top name children Htop (Hname _ He)).
    now apply fs_find_In. }
  assert (Hrel : forall e, In e children ->
                           abspath_comps (os_path_join top (fst e))
                           = abspath_comps directory ++ (pre ++ [fst e])).
  { intros e He. rewrite abspath_join_name by now apply Hname.
    now rewrite Habs, app_assoc. }
  rewrite walk_tree_dir, walk_paths_cons, tree_files_dir.
  apply Forall2_app.
  - assert (Hincl : incl children children) by apply incl_refl.
    revert Hincl. generalize children at 1 3 4 as l.
    induction l as [|[name c] l IHl]; intros Hincl; [constructor|].
    assert (He : In (name, c) children) by (apply Hincl; now left).
    assert (Hl : incl l children) by (intros x Hx; apply Hincl; now right).
    unfold filenames in *. cbn [flat_map fst snd].
    destruct c as [data|sub|sub]; cbn [app map]; [|now apply IHl|now apply IHl].
    constructor; [|now apply IHl].
    split; cbn [fst snd].
    + exact (Hfind _ He).
    + apply relpath_under; [now destruct pre | exact (Hrel _ He)].
  - assert (Hincl : incl children children) by apply incl_refl.
    revert Hincl. generalize children at 1 3 4 as l.
    induction l as [|[name c] l IHl]; intros Hincl; [constructor|].
    assert (He : In (name, c) children) by (apply Hincl; now left).
    assert (Hl : incl l children) by (intros x Hx; apply Hincl; now right).
    cbn [flat_map fst snd]. rewrite walk_paths_app.
    apply Forall2_app; [|now apply IHl].
    apply Forall2_map_r. rewrite Forall_forall in IH, Hc.
    eapply Forall2_impl;
      [|exact (IH _ He (Hc _ He) _ (pre ++ [name]) (Hfind _ He) (Hrel _ He))].
    intros p f [H1 H2]. split; [exact H1|].
    cbn [fst snd]. now rewrite H2, <- app_assoc.
Qed.
End Walk.

Lemma filenames_names (l : list (string * node)) (name : string) :
  In name (filenames l) -> In name (map fst l).
Proof.
  unfold filenames. intros H. apply in_flat_map in H as [e [He H]].
  destruct (snd e); try contradiction. destruct H as [<-|[]]. now apply in_map.
Qed.

Lemma tree_files_not_root (n : node) (rel : list string) :
  In rel (map fst (tree_files n)) -> rel <> [].
Proof.
  destruct n as [data|children|children]; [contradiction| |contradiction].
  rewrite tree_files_dir, map_app. intros H Hnil. subst rel.
  apply in_app_or in H as [H | H]; apply in_map_iff in H as [[rel d] [E H]];
    cbn in E; subst rel;
    apply in_flat_map in H as [e [_ H]].
  - destruct (snd e); try contradiction. now destruct H as [E|[]].
  - apply in_map_iff in H as [f [E _]]. discriminate.
Qed.

(** No two entries of a well-formed tree have the same path. *)
Lemma tree_files_NoDup (n : node) :
  tree_ok n = true -> NoDup (map fst (tree_files n)).
Proof.
  induction n as [data0|children IH|children IH] using node_induction;
    [constructor| |constructor].
  intros Hok. destruct (tree_ok_dir children Hok) as (_ & Hd & Hc).
  apply distinct_NoDup in Hd. clear Hok.
  rewrite tree_files_dir, map_app. apply NoDup_app.
  - clear IH Hc. induction children as [|[name c] l IHl]; [constructor|].
    cbn [map fst] in Hd. inversion Hd as [|? ? Hname Hl]; subst.
    cbn [flat_map fst snd].
    destruct c as [data|sub|sub]; [|now apply IHl|now apply IHl].
    cbn [app map fst]. constructor; [|now apply IHl].
    intros Hin. apply Hname. apply in_map_iff in Hin as [[rel d] [E Hin]].
    cbn in E. subst rel. apply in_flat_map in Hin as [e [He Hin]].
    destruct (snd e) eqn:Hs; try contradiction.
    destruct Hin as [E|[]]. injection E as E _. rewrite <- E. now apply in_map.
  - induction children as [|[name c] l IHl]; [constructor|].
    cbn [map fst] in Hd. inversion Hd as [|? ? Hname Hl]; subst.
    inversion IH as [|? ? IHc IHrest]; subst.
    inversion Hc as [|? ? Hcok Hrest]; subst.
    cbn [flat_map fst snd]. rewrite map_app. apply NoDup_app.
    + rewrite map_map. cbn [fst].
      rewrite <- (map_map fst (cons name)).
      apply NoDup_map_NoDup_ForallPairs; [|now apply IHc].
      intros x y _ _ E. now injection E.
    + now apply IHl.
    + intros rel H1 H2. apply Hname.
      apply in_map_iff in H1 as [[r1 d1] [E1 H1]].
      apply in_map_iff in H1 as [f1 [E1' _]]. injection E1' as <- _.
      cbn in E1. subst rel.
      apply in_map_iff in H2 as [[r2 d2] [E2 H2]]. cbn in E2. subst r2.
      apply in_flat_map in H2 as [e [He H2]].
      apply in_map_iff in H2 as [f2 [E2 _]]. injection E2 as E2 _.
      rewrite <- E2. now apply in_map.
  - intros rel H1 H2.
    apply in_map_iff in H1 as [[r1 d1] [E1 H1]]. cbn in E1. subst r1.
    apply in_flat_map in H1 as [e1 [_ H1]].
    destruct (snd e1); try contradiction. destruct H1 as [E1|[]].
    injection E1 as <- _.
    apply in_map_iff in H2 as [[r2 d2] [E2 H2]]. cbn in E2. subst r2.
    apply in_flat_map in H2 as [e2 [_ H2]].
    apply in_map_iff in H2 as [f2 [E2 Hf2]]. injection E2 as _ E2 _.
    apply (tree_files_not_root (snd e2) (fst f2)); [now apply in_map | auto].
Qed.

(** The keys of a well-formed tree, one for each of its entries. *)
Lemma tree_keys_NoDup (n : node) :
  tree_ok n = true -> NoDup (map (fun f => rel_key (fst f)) (tree_files n)).
Proof.
  intros Hok. rewrite <- (map_map fst rel_key).
  apply NoDup_map_NoDup_ForallPairs; [|now apply tree_files_NoDup].
  intros r1 r2 H1 H2 E.
  apply in_map_iff in H1 as [[r1' d1] [E1 H1]], H2 as [[r2' d2] [E2 H2]].
  cbn in E1, E2. subst r1' r2'.
  destruct (tree_files_lookup n Hok _ _ H1) as (N1 & O1 & _).
  destruct (tree_files_lookup n Hok _ _ H2) as (N2 & O2 & _).
  now apply rel_key_inj.
Qed.

(** ** Running the monad *)

Lemma bind_Ok_inv {A B} (m : M A) (k : A -> M B) s b s' :
  bind m k s = (Ok b, s') ->
  exists a s1, m s = (Ok a, s1) /\ k a s1 = (Ok b, s').
Proof.
  unfold bind. destruct (m s) as [[a|e] s1]; [eauto | discriminate].
Qed.

Lemma bind_Ok {A B} (m : M A) (k : A -> M B) s a s1 :
  m s = (Ok a, s1) -> bind m k s = k a s1.
Proof. unfold bind. now intros ->. Qed.

Lemma emits_nil s : emits [] s = s.
Proof. destruct s. unfold emits. cbn. now rewrite app_nil_r. Qed.

Lemma emits_emits l1 l2 s : emits l2 (emits l1 s) = emits (l1 ++ l2) s.
Proof. unfold emits. cbn. now rewrite app_assoc. Qed.

Lemma emit_emits l s : emit l s = emits [l] s.
Proof. reflexivity. Qed.

Lemma for_each_print (l : list string) s :
  for_each l (fun file => print (Item file)) s = (Ok tt, emits (map Item l) s).
Proof.
  revert s. induction l as [|x l IH]; intros s; cbn [for_each map].
  - unfold ret. now rewrite emits_nil.
  - unfold bind, print, modify. rewrite IH, emit_emits, emits_emits. reflexivity.
Qed.

Lemma print_list_spec header l s :
  exists out, print_list header l s = (Ok tt, emits out s).
Proof.
  destruct l as [|x l]; cbn [print_list].
  - exists []. unfold ret. now rewrite emits_nil.
  - unfold bind, print at 1, modify. rewrite for_each_print, emit_emits, emits_emits.
    eauto.
Qed.

Lemma print_results_spec changed new missing s :
  exists out, print_results changed new missing s = (Ok tt, emits out s).
Proof.
  assert (exists out,
             (print_list ChangedHeader changed ;;
              print_list NewHeader new ;;
              print_list MissingHeader missing) s = (Ok tt, emits out s)) as G.
  { destruct (print_list_spec ChangedHeader changed s) as [o1 H1].
    destruct (print_list_spec NewHeader new (emits o1 s)) as [o2 H2].
    destruct (print_list_spec MissingHeader missing (emits o2 (emits o1 s)))
      as [o3 H3].
    rewrite (bind_Ok _ _ _ _ _ H1), (bind_Ok _ _ _ _ _ H2), H3.
    rewrite !emits_emits. eauto. }
  unfold print_results.
  destruct changed; [|exact G]. destruct new; [|exact G].
  destruct missing; [|exact G].
  exists [AllFilesMatch]. reflexivity.
Qed.

(** ** The first loop of verify_integrity *)

Lemma read_errors_cons root d item items :
  read_errors root d (item :: items)
  = read_errors root d [item] ++ read_errors root d items.
Proof. unfold read_errors. cbn [flat_map]. now rewrite app_nil_r. Qed.

Lemma check_entry_step d changed missing item s :
  check_entry d (changed, missing) item s =
  if is_missing (fs s) d item then (Ok (changed, missing ++ [fst item]), s)
  else match stored_hash (snd item) with
       | Some stored =>
           (Ok (if hash_ne (current_digest (fs s) (os_path_join d (fst item))) stored
                then (changed ++ [fst item], missing)
                else (changed, missing)),
            emits (read_errors (fs s) d [item]) s)
       | None =>
           (Raise (match snd item with PDict _ => KeyError | _ => TypeError end),
            emits (read_errors (fs s) d [item]) s)
       end.
Proof.
  destruct item as [k fd]. unfold check_entry, is_missing. cbn [fst snd].
  unfold bind at 1, gets at 1.
  destruct (os_path_exists (fs s) (os_path_join d k)) eqn:Hex; cbn [negb];
    [|reflexivity].
  unfold bind at 1. rewrite calculate_hash_spec.
  unfold read_errors, current_digest. cbn [flat_map fst]. rewrite Hex, app_nil_r.
  destruct (open_rb (fs s) (os_path_join d k)) as [data|]; cbn [option_map];
    rewrite ?emits_nil, ?emit_emits;
    (destruct fd as [| | | | |l|e]; cbn [stored_hash py_getitem bind raise];
     try reflexivity; unfold bind;
     cbn [py_getitem]; destruct (dict_get "hash" e) as [stored|];
     [unfold ret; now destruct (hash_ne _ stored) | reflexivity]).
Qed.

Lemma first_loop_ok d (items : list (string * pyval)) :
  forall changed missing s,
    forallb (entry_ok (fs s) d) items = true ->
    for_fold items (changed, missing) (check_entry d) s =
    (Ok (changed ++ map fst (filter (is_changed (fs s) d) items),
         missing ++ map fst (filter (is_missing (fs s) d) items)),
     emits (read_errors (fs s) d items) s).
Proof.
  induction items as [|item items IH]; intros changed missing s Hok.
  - cbn. unfold ret. now rewrite !app_nil_r, emits_nil.
  - cbn [forallb] in Hok. apply andb_true_iff in Hok as [Hitem Hok].
    cbn [for_fold filter]. unfold bind. rewrite check_entry_step.
    rewrite (read_errors_cons _ _ item items).
    unfold entry_ok in Hitem. unfold is_changed at 1.
    destruct (is_missing (fs s) d item) eqn:Hm.
    + unfold is_missing in Hm. apply negb_true_iff in Hm.
      rewrite Hm. cbn [andb]. rewrite IH by exact Hok.
      cbn [map app]. rewrite <- !app_assoc. cbn [app].
      unfold read_errors at 2. cbn [flat_map]. rewrite Hm. reflexivity.
    + unfold is_missing in Hm. apply negb_false_iff in Hm. rewrite Hm.
      cbn [orb andb] in Hitem |- *.
      destruct (stored_hash (snd item)) as [stored|]; [|discriminate].
      destruct (hash_ne _ stored);
        rewrite IH by exact Hok; cbn [fs emits map app];
        rewrite <- ?app_assoc, emits_emits; reflexivity.
Qed.

Lemma first_loop_inv d (items : list (string * pyval)) :
  forall lists s r s',
    for_fold items lists (check_entry d) s = (Ok r, s') ->
    forallb (entry_ok (fs s) d) items = true.
Proof.
  induction items as [|item items IH]; intros [changed missing] s r s' H;
    [reflexivity|].
  cbn [for_fold] in H. apply bind_Ok_inv in H as (lists' & s1 & H1 & H).
  rewrite check_entry_step in H1. cbn [forallb]. unfold entry_ok at 1.
  destruct (is_missing (fs s) d item).
  - injection H1 as <- <-. cbn [orb andb]. exact (IH _ _ _ _ H).
  - destruct (stored_hash (snd item)); [|discriminate].
    injection H1 as <- <-. cbn [orb andb]. exact (IH _ _ _ _ H).
Qed.

(** ** The second loop of verify_integrity *)

Lemma second_loop_files d items root (files : list string) :
  forall new s,
    for_fold files new (check_new d items root) s =
    (Ok (new ++ filter (is_new items)
                       (map (fun f => os_path_relpath (os_path_join root f) d) files)),
     s).
Proof.
  induction files as [|f files IH]; intros new s.
  - cbn. unfold ret. now rewrite app_nil_r.
  - cbn [for_fold map filter]. unfold bind, check_new at 1.
    unfold is_new at 1.
    destruct (negb (dict_mem _ items)); unfold ret; rewrite IH;
      [now rewrite <- app_assoc | reflexivity].
Qed.

Lemma second_loop d items (walk : list (string * list string * list string)) :
  forall new s,
    for_fold walk new
      (fun new '(root, _, files) => for_fold files new (check_new d items root)) s =
    (Ok (new ++ filter (is_new items)
                       (map (fun p => os_path_relpath p d) (walk_paths walk))),
     s).
Proof.
  induction walk as [|[[root dirs] files] walk IH]; intros new s.
  - cbn. unfold ret. now rewrite app_nil_r.
  - cbn [for_fold]. unfold bind. rewrite second_loop_files, IH.
    rewrite walk_paths_cons, map_app, filter_app, map_map, app_assoc.
    reflexivity.
Qed.

(** ** verify_integrity as a whole *)

Lemma bind_gets {A B} (f : state -> A) (k : A -> M B) s :
  bind (gets f) k s = k (f s) s.
Proof. reflexivity. Qed.

Lemma bind_ret {A B} (a : A) (k : A -> M B) s : bind (ret a) k s = k a s.
Proof. reflexivity. Qed.

Lemma bind_modify {B} (f : state -> state) (k : unit -> M B) s :
  bind (modify f) k s = k tt (f s).
Proof. reflexivity. Qed.

Lemma bind_print {B} (l : line) (k : unit -> M B) s :
  bind (print l) k s = k tt (emit l s).
Proof. reflexivity. Qed.

Lemma bind_bind {A B C} (m : M A) (k : A -> M B) (h : B -> M C) s :
  bind (bind m k) h s = bind m (fun a => bind (k a) h) s.
Proof. unfold bind. now destruct (m s) as [[a|e] s1]. Qed.

Lemma load_baseline_spec s :
  load_baseline s =
  match bfile_content s with
  | Absent => (Ok (PDict []), s)
  | Unreadable | NotJson => (Ok (PDict []), emit ErrorLoadingBaseline s)
  | NotText => (Raise UnicodeDecodeError, s)
  | TooDeep => (Raise RecursionError, s)
  | Json v => if ints_ok v then (Ok v, s) else (Raise ValueError, s)
  end.
Proof.
  unfold load_baseline. rewrite bind_gets.
  destruct (bfile_content s) as [| | | | |w] eqn:E; [reflexivity|..];
    unfold try_except, json_load_file; rewrite bind_gets, E; try reflexivity.
  unfold ret, raise. now destruct (ints_ok w).
Qed.

Lemma isdir_not_empty root d : os_path_isdir root d = true -> String.eqb d "" = false.
Proof.
  unfold os_path_isdir, os_stat. now destruct (String.eqb d "").
Qed.

Lemma save_baseline_spec s :
  exists l,
    save_baseline s =
    (Ok tt, emit l (if bfile_writable s
                    then set_bfile (Json (baseline_data s)) s else s)).
Proof.
  unfold save_baseline. rewrite bind_gets.
  destruct (bfile_writable s).
  - rewrite bind_gets, bind_modify, bind_gets. now eexists.
  - now eexists.
Qed.

Lemma verify_ok s data d items :
  baseline_data s = PDict data ->
  dict_get "directory" data = Some (PStr d) ->
  os_path_isdir (fs s) d = true ->
  dict_get "files" data = Some (PDict items) ->
  forallb (entry_ok (fs s) d) items = true ->
  exists out,
    verify_integrity s =
    (Ok (Some (expected_report (fs s) d items)), verified s data out).
Proof.
  intros Hdata Hdir Hisdir Hfiles Hok.
  pose proof (isdir_not_empty _ _ Hisdir) as Hd.
  assert (Ht : truthy (PDict data) = true) by (now destruct data).
  unfold verify_integrity.
  rewrite bind_gets, Hdata, Ht. cbn [negb py_get]. rewrite Hdir, bind_ret.
  cbn [truthy]. rewrite Hd. cbn [negb].
  unfold bind at 1, attempt. cbn [os_path_isdir_py]. rewrite Hisdir.
  cbn [negb py_getitem]. rewrite Hfiles, bind_ret.
  cbn [py_items]. rewrite bind_ret.
  rewrite (bind_Ok _ _ _ _ _ (first_loop_ok d items [] [] s Hok)). cbn [app].
  rewrite bind_gets, (bind_Ok _ _ _ _ _ (second_loop _ _ _ _ _)). cbn [app fs emits].
  match goal with
  | |- context [print_results ?c ?n ?m] =>
      destruct (print_results_spec c n m (emits (read_errors (fs s) d items) s))
        as [out Hout]
  end.
  rewrite (bind_Ok _ _ _ _ _ Hout).
  unfold now_isoformat. rewrite bind_bind, bind_gets, bind_bind, bind_modify, bind_ret.
  unfold set_last_checked. rewrite bind_bind, bind_gets.
  cbn [baseline_data tick emits]. rewrite Hdata, bind_modify.
  match goal with
  | |- context [bind save_baseline _ ?s1] =>
      destruct (save_baseline_spec s1) as [l Hsave];
      rewrite (bind_Ok _ _ _ _ _ Hsave)
  end.
  exists (read_errors (fs s) d items ++ out ++ [l]).
  unfold ret, expected_report, disk_paths, verified. f_equal.
  clear. destruct s as [bf bd t bc bw ck tk so]. cbn.
  destruct bw; unfold emit, set_bfile, set_baseline_data, tick, emits; cbn;
    now rewrite <- !app_assoc.
Qed.

Lemma verify_inv s r s' :
  verify_integrity s = (Ok (Some r), s') ->
  exists data d items,
    baseline_data s = PDict data
    /\ dict_get "directory" data = Some (PStr d)
    /\ os_path_isdir (fs s) d = true
    /\ dict_get "files" data = Some (PDict items)
    /\ forallb (entry_ok (fs s) d) items = true.
Proof.
  unfold verify_integrity. rewrite bind_gets.
  destruct (truthy (baseline_data s)) eqn:Ht; cbn [negb];
    [|discriminate].
  destruct (baseline_data s) as [| | | | | |data] eqn:Hdata; try discriminate.
  cbn [py_get].
  assert (exists v, (match dict_get "directory" data with
                     | Some x => ret x | None => ret PNone end)
                    = ret v
                    /\ (forall d, v = PStr d ->
                                  dict_get "directory" data = Some (PStr d)))
    as (v & -> & Hv).
  { destruct (dict_get "directory" data) as [x|]; eexists; split;
      try reflexivity; intros; subst; try reflexivity; discriminate. }
  rewrite bind_ret. intros H.
  apply bind_Ok_inv in H as (valid & s1 & Hvalid & H).
  destruct valid; cbn [negb] in H; [|discriminate].
  assert (exists d, v = PStr d /\ os_path_isdir (fs s) d = true /\ s1 = s)
    as (d & -> & Hisdir & ->).
  { unfold attempt in Hvalid.
    destruct v as [|b|z|m e|d|l|dd]; cbn [os_path_isdir_py] in Hvalid;
      destruct (truthy _) in Hvalid; cbn [negb] in Hvalid; try discriminate;
      try (destruct (_ && _) in Hvalid; discriminate).
    injection Hvalid as ? ?. eauto. }
  apply bind_Ok_inv in H as (files & s1 & Hfiles & H).
  cbn [py_getitem] in Hfiles.
  destruct (dict_get "files" data) as [files'|] eqn:Hf; [|discriminate].
  injection Hfiles as <- <-.
  apply bind_Ok_inv in H as (items & s1 & Hitems & H).
  destruct files' as [| | | | | |items']; try discriminate.
  injection Hitems as <- <-.
  apply bind_Ok_inv in H as (lists & s1 & Hloop & _).
  exists data, d, items'. repeat split; auto.
  exact (first_loop_inv _ _ _ _ _ _ Hloop).
Qed.

(** A completed run is the run [verify_ok] describes. *)
Lemma verify_completed s r s' :
  verify_integrity s = (Ok (Some r), s') ->
  exists data d items out,
    baseline_data s = PDict data
    /\ dict_get "directory" data = Some (PStr d)
    /\ os_path_isdir (fs s) d = true
    /\ dict_get "files" data = Some (PDict items)
    /\ forallb (entry_ok (fs s) d) items = true
    /\ r = expected_report (fs s) d items
    /\ s' = verified s data out.
Proof.
  intros H.
  destruct (verify_inv s r s' H) as (data & d & items & H1 & H2 & H3 & H4 & H5).
  destruct (verify_ok s data d items H1 H2 H3 H4 H5) as [out Hrun].
  rewrite Hrun in H. injection H as <- <-.
  exists data, d, items, out. repeat split; assumption.
Qed.

Lemma verify_no_baseline s :
  truthy (baseline_data s) = false ->
  verify_integrity s = (Ok None, emit NoBaselineData s).
Proof. intros H. unfold verify_integrity. rewrite bind_gets, H. reflexivity. Qed.

Lemma verify_none s s' :
  verify_integrity s = (Ok None, s') ->
  (truthy (baseline_data s) = false /\ s' = emit NoBaselineData s)
  \/ (exists data,
        baseline_data s = PDict data /\ data <> []
        /\ invalid_directory (fs s) (directory_of data)
        /\ s' = emit (BaselineDirectoryNotValid (directory_of data)) s).
Proof.
  unfold verify_integrity. rewrite bind_gets.
  destruct (truthy (baseline_data s)) eqn:Ht; cbn [negb].
  2: { intros H. injection H as <-. now left. }
  intros H. right.
  destruct (baseline_data s) as [| | | | | |data]; try discriminate.
  exists data. split; [reflexivity|]. split; [now destruct data|].
  cbn [py_get] in H.
  replace (match dict_get "directory" data with
           | Some x => ret x | None => ret PNone end)
    with (ret (A := pyval) (directory_of data)) in H
    by (unfold directory_of; now destruct (dict_get "directory" data)).
  rewrite bind_ret in H.
  apply bind_Ok_inv in H as (valid & s1 & Hvalid & H).
  assert (s1 = s /\ (valid = false -> invalid_directory (fs s) (directory_of data)))
    as [-> Hinv].
  { unfold invalid_directory.
    destruct (truthy (directory_of data)); cbn [negb] in Hvalid.
    - unfold attempt in Hvalid.
      destruct (os_path_isdir_py (fs s) (directory_of data)) as [b|e] eqn:E;
        [|discriminate].
      injection Hvalid as -> <-. split; [reflexivity|]. intros ->. now right.
    - injection Hvalid as <- <-. split; [reflexivity|]. now left. }
  destruct valid; cbn [negb] in H.
  - exfalso. destruct (directory_of data); try discriminate.
    repeat (apply bind_Ok_inv in H as (? & ? & _ & H)).
    match type of H with context [let '(_, _) := ?x in _] => destruct x end.
    repeat (apply bind_Ok_inv in H as (? & ? & _ & H)).
    discriminate.
  - split; [now apply Hinv|]. now injection H.
Qed.

Lemma verify_invalid_directory s data :
  baseline_data s = PDict data -> data <> [] ->
  invalid_directory (fs s) (directory_of data) ->
  verify_integrity s
  = (Ok None, emit (BaselineDirectoryNotValid (directory_of data)) s).
Proof.
  intros Hdata Hne Hinv. unfold verify_integrity.
  rewrite bind_gets, Hdata.
  assert (truthy (PDict data) = true) as -> by (now destruct data).
  cbn [negb py_get].
  replace (match dict_get "directory" data with
           | Some x => ret x | None => ret PNone end)
    with (ret (A := pyval) (directory_of data))
    by (unfold directory_of; now destruct (dict_get "directory" data)).
  rewrite bind_ret. unfold bind at 1.
  destruct (truthy (directory_of data)) eqn:Ht; cbn [negb]; [|reflexivity].
  destruct Hinv as [Hf | Hd]; [congruence|].
  unfold attempt. now rewrite Hd.
Qed.

(** ** create_baseline as a whole *)

Lemma for_each_app {A} (l1 l2 : list A) (body : A -> M unit) s :
  for_each (l1 ++ l2) body s = (for_each l1 body ;; for_each l2 body) s.
Proof.
  revert s. induction l1 as [|a l1 IH]; intros s; [reflexivity|].
  cbn [app for_each]. unfold bind in *.
  destruct (body a s) as [[[]|e] s1]; [apply IH | reflexivity].
Qed.

Lemma for_each_map {A B} (f : A -> B) (l : list A) (body : B -> M unit) s :
  for_each (map f l) body s = for_each l (fun a => body (f a)) s.
Proof.
  revert s. induction l as [|a l IH]; intros s; [reflexivity|].
  cbn [map for_each]. unfold bind. destruct (body (f a) s) as [[[]|e] s1];
    [apply IH | reflexivity].
Qed.

(** The nested loops are one loop over the walked file paths. *)
Lemma for_each_walk (walk : list (string * list string * list string))
  (body : string -> M unit) s :
  for_each walk (fun '(root, _, files) =>
    for_each files (fun file => body (os_path_join root file))) s
  = for_each (walk_paths walk) body s.
Proof.
  revert s. induction walk as [|[[root dirs] files] walk IH]; intros s;
    [reflexivity|].
  rewrite walk_paths_cons, for_each_app. cbn [for_each].
  unfold bind. rewrite for_each_map.
  destruct (for_each files _ s) as [[[]|e] s1]; [apply IH | reflexivity].
Qed.

Lemma add_file_step d p s d0 ts fl :
  baseline_data s = snapshot d0 ts fl ->
  add_file d p s =
  match open_rb (fs s) p with
  | Some data =>
      (Ok tt,
       set_baseline_data
         (snapshot d0 ts
            (dict_set (os_path_relpath p d)
                      (file_entry (SHA256.hexdigest data) (clock s (ticks s))) fl))
         (tick s))
  | None => (Ok tt, emit (ErrorReadingFile p) s)
  end.
Proof.
  intros Hdata. unfold add_file.
  unfold bind at 1. rewrite calculate_hash_spec.
  destruct (open_rb (fs s) p) as [data|]; [|reflexivity].
  rewrite hexdigest_not_empty.
  unfold now_isoformat. rewrite bind_bind, bind_gets, bind_bind, bind_modify, bind_ret.
  unfold set_file_entry. rewrite bind_gets. cbn [baseline_data tick].
  rewrite Hdata. reflexivity.
Qed.

Lemma create_loop d (paths : list string) :
  forall s d0 ts fl,
    baseline_data s = snapshot d0 ts fl ->
    exists out,
      for_each paths (add_file d) s =
      (Ok tt,
       State (baseline_file s)
             (snapshot d0 ts (snd (scan (fs s) (clock s) d paths (ticks s) fl)))
             (fs s) (bfile_content s) (bfile_writable s) (clock s)
             (fst (scan (fs s) (clock s) d paths (ticks s) fl))
             (stdout s ++ out)).
Proof.
  induction paths as [|p paths IH]; intros s d0 ts fl Hdata.
  - exists []. cbn. unfold ret. rewrite app_nil_r, <- Hdata. now destruct s.
  - cbn [for_each scan]. unfold bind.
    rewrite (add_file_step d p s d0 ts fl Hdata).
    destruct (open_rb (fs s) p) as [data|].
    + edestruct IH as [out Hout]; [|rewrite Hout; exists out; reflexivity].
      reflexivity.
    + edestruct (IH (emit (ErrorReadingFile p) s)) as [out Hout]; [exact Hdata|].
      rewrite Hout. exists (ErrorReadingFile p :: out).
      cbn. now rewrite <- app_assoc.
Qed.

Lemma create_baseline_ok s d :
  os_path_isdir (fs s) d = true ->
  exists out, create_baseline d s = (Ok tt, created s d out).
Proof.
  intros Hisdir. unfold create_baseline.
  rewrite bind_gets, Hisdir. cbn [negb].
  unfold now_isoformat. rewrite bind_bind, bind_gets, bind_bind, bind_modify, bind_ret.
  rewrite bind_modify, bind_gets.
  unfold bind at 1. rewrite for_each_walk.
  match goal with
  | |- context [for_each ?ps (add_file d) ?s0] =>
      destruct (create_loop d ps s0 d (clock s (ticks s)) [] eq_refl) as [out Hout];
      rewrite Hout; clear Hout
  end.
  match goal with
  | |- context [bind save_baseline _ ?s1] =>
      destruct (save_baseline_spec s1) as [l Hsave];
      rewrite (bind_Ok _ _ _ _ _ Hsave); clear Hsave
  end.
  unfold len_files. rewrite bind_bind, bind_gets.
  exists (out ++ [l; BaselineCreated d
                       (List.length
                          (snd (scan (fs s) (clock s) d
                                     (walk_paths (os_walk (fs s) d))
                                     (S (ticks s)) [])))]).
  unfold created. destruct s as [bf bd t bc bw ck tk so]. simpl_state.
  destruct bw; simpl_state; unfold snapshot; cbn; unfold print, modify;
    simpl_state; rewrite <- !app_assoc; reflexivity.
Qed.

(** ** Dictionaries *)

Lemma dict_get_None k d : dict_get k d = None <-> ~ In k (dict_keys d).
Proof.
  induction d as [|[k' v] d IH]; cbn; [tauto|].
  destruct (String.eqb_spec k k') as [-> | Hne].
  - split; [discriminate | intros H; exfalso; apply H; now left].
  - rewrite IH. split; [intros H [E | Hin]; [congruence | tauto] | tauto].
Qed.

Lemma dict_mem_In k d : dict_mem k d = true <-> In k (dict_keys d).
Proof.
  unfold dict_mem. destruct (dict_get k d) eqn:E.
  - split; [intros _ | reflexivity].
    destruct (in_dec string_dec k (dict_keys d)) as [H | H]; [exact H|].
    apply dict_get_None in H. congruence.
  - apply dict_get_None in E. split; [discriminate | tauto].
Qed.

Lemma dict_get_In k v d :
  NoDup (dict_keys d) -> In (k, v) d -> dict_get k d = Some v.
Proof.
  induction d as [|[k' v'] d IH]; [contradiction|].
  cbn [dict_keys map fst dict_get]. intros Hnd [E | Hin].
  - injection E as -> ->. now rewrite String.eqb_refl.
  - inversion Hnd as [|? ? Hk Hd]; subst.
    destruct (String.eqb_spec k k') as [-> | _]; [|now apply IH].
    exfalso. apply Hk. change k' with (fst (k', v)). now apply in_map.
Qed.

Lemma dict_set_fresh k v d :
  ~ In k (dict_keys d) -> dict_set k v d = d ++ [(k, v)].
Proof.
  induction d as [|[k' v'] d IH]; [reflexivity|].
  cbn [dict_keys map fst dict_set app]. intros H.
  destruct (String.eqb_spec k k') as [-> | _]; [exfalso; apply H; now left|].
  rewrite IH; [reflexivity | intros Hin; apply H; now right].
Qed.




Lemma dict_get_set_other k k' v d :
  k' <> k -> dict_get k' (dict_set k v d) = dict_get k' d.
Proof.
  intros Hne. induction d as [|[k0 v0] d IH]; cbn [dict_set dict_get].
  - apply String.eqb_neq in Hne. now rewrite Hne.
  - destruct (String.eqb_spec k k0) as [-> | Hk]; cbn [dict_get].
    + apply String.eqb_neq in Hne. now rewrite Hne.
    + now rewrite IH.
Qed.

Lemma dict_get_set_same k v d : dict_get k (dict_set k v d) = Some v.
Proof.
  induction d as [|[k0 v0] d IH]; cbn [dict_set dict_get].
  - now rewrite String.eqb_refl.
  - destruct (String.eqb_spec k k0) as [-> | Hk]; cbn [dict_get].
    + now rewrite String.eqb_refl.
    + apply String.eqb_neq in Hk. now rewrite Hk.
Qed.

(** ** What the scan of create_baseline collects *)


Lemma walked_open root d p f :
  walked root d [] p f ->
  open_rb root p = snd f /\ os_path_relpath p d = rel_key (fst f).
Proof.
  intros [Hs Hr]. split; [|exact Hr].
  unfold open_rb. rewrite Hs. now destruct (snd f).
Qed.

Lemma scan_exact root clock d paths files :
  Forall2 (walked root d []) paths files ->
  forall t fl,
    NoDup (dict_keys fl ++ map (fun f => rel_key (fst f)) files) ->
    snd (scan root clock d paths t fl) = fl ++ entries_of clock t files.
Proof.
  induction 1 as [|p [rel data] paths files Hw _ IH]; intros t fl Hnd.
  - cbn. now rewrite app_nil_r.
  - destruct (walked_open _ _ _ _ Hw) as [Hopen Hrel]. cbn [fst snd] in *.
    cbn [scan entries_of map fst] in *. rewrite Hopen, Hrel.
    destruct data as [data|].
    + rewrite dict_set_fresh.
      * rewrite IH; [now rewrite <- app_assoc|].
        unfold dict_keys in *. now rewrite map_app, <- app_assoc.
      * apply NoDup_remove_2 in Hnd. intros Hin. apply Hnd.
        apply in_or_app. now left.
    + apply IH. now apply NoDup_remove_1 in Hnd.
Qed.

(** On a well-formed tree the walk hands over the entries of the tree. *)
Lemma walk_of_tree root d n :
  os_stat root d = Some n -> tree_ok n = true ->
  Forall2 (walked root d []) (walk_paths (os_walk root d)) (tree_files n).
Proof.
  intros Hs Hok. unfold os_walk. rewrite Hs.
  apply walk_files; [exact Hok | exact Hs | now rewrite app_nil_r].
Qed.

Lemma disk_paths_tree root d n :
  os_stat root d = Some n -> tree_ok n = true ->
  disk_paths root d = map (fun f => rel_key (fst f)) (tree_files n).
Proof.
  intros Hs Hok. unfold disk_paths.
  pose proof (walk_of_tree root d n Hs Hok) as H.
  induction H as [|p f ps fs' Hw _ IH]; [reflexivity|].
  cbn [map]. rewrite IH. f_equal. exact (proj2 (walked_open _ _ _ _ Hw)).
Qed.

Lemma scan_tree root clock d n t :
  os_stat root d = Some n -> tree_ok n = true ->
  snd (scan root clock d (walk_paths (os_walk root d)) t [])
  = entries_of clock t (tree_files n).
Proof.
  intros Hs Hok.
  rewrite (scan_exact root clock d _ _ (walk_of_tree root d n Hs Hok)).
  - reflexivity.
  - cbn [dict_keys map app]. now apply tree_keys_NoDup.
Qed.

(** * The claims *)

(** C7: for every path that does not exist or is not a directory,
    [create_baseline] reports the invalid directory and stops: it returns
    normally after printing that one line, the baseline file is not
    touched, the snapshot held in memory is the one that was there before,
    and neither the tree nor the clock is affected. *)
Theorem create_baseline_invalid_directory (s : state) (directory : string) :
  os_stat (fs s) directory = None
  \/ (exists data, os_stat (fs s) directory = Some (File data)) ->
  exists s',
    create_baseline directory s = (Ok tt, s')
    /\ stdout s' = stdout s ++ [NotValidDirectory directory]
    /\ baseline_data s' = baseline_data s
    /\ bfile_content s' = bfile_content s
    /\ fs s' = fs s
    /\ ticks s' = ticks s.
Proof.
  intros H.
  assert (Hisdir : os_path_isdir (fs s) directory = false).
  { unfold os_path_isdir. destruct H as [-> | [data ->]]; reflexivity. }
  exists (emit (NotValidDirectory directory) s).
  unfold create_baseline. rewrite bind_gets, Hisdir. cbn [negb].
  repeat split.
Qed.

Lemma create_baseline_invalid_directory_witness :
  exists s',
    create_baseline "srv/a.txt" demo_created = (Ok tt, s')
    /\ stdout s' = stdout demo_created ++ [NotValidDirectory "srv/a.txt"]
    /\ baseline_data s' = baseline_data demo_created
    /\ bfile_content s' = bfile_content demo_created
    /\ fs s' = fs demo_created
    /\ ticks s' = ticks demo_created.
Proof.
  apply create_baseline_invalid_directory.
  right. exists (Some (bytes "hello")). reflexivity.
Defined.

Lemma early_abort_result s :
  early_abort s ->
  exists l, verify_integrity s = (Ok None, emit l s)
            /\ (l = NoBaselineData \/ exists v, l = BaselineDirectoryNotValid v).
Proof.
  intros [Hf | (data & Hdata & Hne & Hinv)].
  - exists NoBaselineData. split; [now apply verify_no_baseline | now left].
  - exists (BaselineDirectoryNotValid (directory_of data)).
    split; [now apply verify_invalid_directory | right; eauto].
Qed.

Lemma completed_not_abort s r s' :
  verify_integrity s = (Ok (Some r), s') -> ~ early_abort s.
Proof.
  intros H Ha. destruct (early_abort_result s Ha) as (l & Hl & _). congruence.
Qed.

(** C10: whenever [verify_integrity] stops early, for want of a baseline
    or of a valid directory, it returns [None], reads no clock, leaves
    snapshot and baseline file as they are, and only prints the one line
    saying why; [None] is returned in no other case; and a dictionary of
    the three lists is returned only by a run that went through the
    comparison, whose lists it holds, and that set the timestamp and
    saved. *)
Theorem verify_early_abort (s : state) (o : outcome (option report)) (s' : state) :
  verify_integrity s = (o, s') ->
  (early_abort s ->
     o = Ok None
     /\ baseline_data s' = baseline_data s
     /\ bfile_content s' = bfile_content s
     /\ ticks s' = ticks s
     /\ exists l, stdout s' = stdout s ++ [l]
                  /\ (l = NoBaselineData \/ exists v, l = BaselineDirectoryNotValid v))
  /\ (o = Ok None -> early_abort s)
  /\ (forall r, o = Ok (Some r) ->
        ~ early_abort s
        /\ exists data d items out,
             baseline_data s = PDict data
             /\ dict_get "directory" data = Some (PStr d)
             /\ dict_get "files" data = Some (PDict items)
             /\ r = expected_report (fs s) d items
             /\ s' = verified s data out).
Proof.
  intros H. split; [|split].
  - intros Ha. destruct (early_abort_result s Ha) as (l & Hl & Hkind).
    rewrite Hl in H. injection H as <- <-.
    repeat split; try reflexivity. exists l. now split.
  - intros ->. apply verify_none in H as [[Hf ->] | (data & Hd & Hne & Hinv & ->)].
    + now left.
    + right. now exists data.
  - intros r ->. split; [exact (completed_not_abort s r s' H)|].
    destruct (verify_completed s r s' H)
      as (data & d & items & out & H1 & H2 & _ & H4 & _ & H6 & H7).
    exists data, d, items, out. repeat split; assumption.
Qed.

Lemma verify_early_abort_witness :
  (early_abort (fresh demo_tree) ->
     Ok (@None report) = Ok None
     /\ baseline_data (emit NoBaselineData (fresh demo_tree))
        = baseline_data (fresh demo_tree)
     /\ bfile_content (emit NoBaselineData (fresh demo_tree))
        = bfile_content (fresh demo_tree)
     /\ ticks (emit NoBaselineData (fresh demo_tree)) = ticks (fresh demo_tree)
     /\ exists l, stdout (emit NoBaselineData (fresh demo_tree))
                  = stdout (fresh demo_tree) ++ [l]
                  /\ (l = NoBaselineData \/ exists v, l = BaselineDirectoryNotValid v))
  /\ (Ok (@None report) = Ok None -> early_abort (fresh demo_tree))
  /\ (forall r, Ok None = Ok (Some r) ->
        ~ early_abort (fresh demo_tree)
        /\ exists data d items out,
             baseline_data (fresh demo_tree) = PDict data
             /\ dict_get "directory" data = Some (PStr d)
             /\ dict_get "files" data = Some (PDict items)
             /\ r = expected_report (fs (fresh demo_tree)) d items
             /\ emit NoBaselineData (fresh demo_tree)
                = verified (fresh demo_tree) data out).
Proof.
  apply (verify_early_abort (fresh demo_tree) (Ok None)
           (emit NoBaselineData (fresh demo_tree))).
  reflexivity.
Defined.

(** C6: a run of [verify_integrity] that completes changes one thing in
    the snapshot, the top-level [last_checked]: under every other key,
    among them [directory], [timestamp] and [files] with every entry, its
    digest and its own [last_checked], the snapshot holds what it held
    before; and what is saved to the baseline file is that snapshot. *)
Theorem verify_updates_only_last_checked (s : state) (r : report) (s' : state) :
  verify_integrity s = (Ok (Some r), s') ->
  exists data data',
    baseline_data s = PDict data
    /\ baseline_data s' = PDict data'
    /\ data' = dict_set "last_checked" (PStr (clock s (ticks s))) data
    /\ (forall k, k <> "last_checked" -> dict_get k data' = dict_get k data)
    /\ dict_get "files" data' = dict_get "files" data
    /\ dict_get "directory" data' = dict_get "directory" data
    /\ dict_get "timestamp" data' = dict_get "timestamp" data
    /\ bfile_content s'
       = if bfile_writable s then Json (PDict data') else bfile_content s.
Proof.
  intros H.
  destruct (verify_completed s r s' H)
    as (data & d & items & out & H1 & _ & _ & _ & _ & _ & ->).
  exists data, (dict_set "last_checked" (PStr (clock s (ticks s))) data).
  repeat split; try assumption; try reflexivity;
    try (intros; apply dict_get_set_other; assumption);
    apply dict_get_set_other; discriminate.
Qed.

Lemma verify_updates_only_last_checked_witness :
  exists data data',
    baseline_data demo_created = PDict data
    /\ baseline_data (snd (verify_integrity demo_created)) = PDict data'
    /\ data' = dict_set "last_checked"
                 (PStr (clock demo_created (ticks demo_created))) data
    /\ (forall k, k <> "last_checked" -> dict_get k data' = dict_get k data)
    /\ dict_get "files" data' = dict_get "files" data
    /\ dict_get "directory" data' = dict_get "directory" data
    /\ dict_get "timestamp" data' = dict_get "timestamp" data
    /\ bfile_content (snd (verify_integrity demo_created))
       = if bfile_writable demo_created then Json (PDict data')
         else bfile_content demo_created.
Proof.
  apply (verify_updates_only_last_checked demo_created (Report [] [] [])).
  vm_compute. reflexivity.
Defined.

Lemma unreadable_changed root d items k file_data stored :
  In (k, file_data) items ->
  os_path_exists root (os_path_join d k) = true ->
  current_digest root (os_path_join d k) = None ->
  stored_hash file_data = Some stored -> stored <> PNone ->
  In k (changed_files (expected_report root d items))
  /\ ~ In k (missing_files (expected_report root d items)).
Proof.
  intros Hin Hex Hdig Hst Hne. cbn [expected_report changed_files missing_files].
  split.
  - apply in_map_iff. exists (k, file_data). split; [reflexivity|].
    apply filter_In. split; [exact Hin|].
    unfold is_changed. cbn [fst snd]. rewrite Hex, Hst, Hdig.
    destruct stored; cbn; congruence.
  - intros H. apply in_map_iff in H as [[k' fd'] [E H]]. cbn in E. subst k'.
    apply filter_In in H as [_ H]. unfold is_missing in H. cbn [fst] in H.
    now rewrite Hex in H.
Qed.

(** C2: an entry of the baseline whose file is still there but whose
    digest [calculate_hash] cannot compute, so that it returns [None], is
    reported in [changed_files] and is not in [missing_files], whatever
    digest the baseline stores for it. *)
Theorem unreadable_entry_is_changed
  (s : state) (r : report) (s' : state) (data items : list (string * pyval))
  (d k : string) (file_data stored : pyval) :
  verify_integrity s = (Ok (Some r), s') ->
  baseline_data s = PDict data ->
  dict_get "directory" data = Some (PStr d) ->
  dict_get "files" data = Some (PDict items) ->
  In (k, file_data) items ->
  stored_hash file_data = Some stored -> stored <> PNone ->
  os_path_exists (fs s) (os_path_join d k) = true ->
  fst (calculate_hash (os_path_join d k) s) = Ok None ->
  In k (changed_files r) /\ ~ In k (missing_files r).
Proof.
  intros H Hdata Hdir Hfiles Hin Hst Hne Hex Hhash.
  destruct (verify_completed s r s' H)
    as (data' & d' & items' & out & H1 & H2 & _ & H4 & _ & -> & _).
  rewrite Hdata in H1. injection H1 as <-.
  rewrite Hdir in H2. injection H2 as <-.
  rewrite Hfiles in H4. injection H4 as <-.
  rewrite calculate_hash_digest in Hhash. injection Hhash as Hdig.
  now apply (unreadable_changed (fs s) d items k file_data stored).
Qed.

Lemma unreadable_entry_is_changed_witness :
  In "a.txt" ["a.txt"; "sub/b.txt"] /\ ~ In "a.txt" (@nil string).
Proof.
  apply (unreadable_entry_is_changed
           (set_fs later_tree demo_created)
           (Report ["a.txt"; "sub/b.txt"] ["c.txt"] [])
           (snd (verify_integrity (set_fs later_tree demo_created)))
           [("directory", PStr "srv"); ("timestamp", PStr "T0");
            ("files", PDict demo_files)]
           demo_files "srv" "a.txt"
           (file_entry
              "2cf24dba5fb0a30e26e83b2ac5b9e29e1b161e5c1fa7425e73043362938b9824"
              "T1")
           (PStr "2cf24dba5fb0a30e26e83b2ac5b9e29e1b161e5c1fa7425e73043362938b9824")).
  - vm_compute. reflexivity.
  - reflexivity.
  - reflexivity.
  - reflexivity.
  - left. reflexivity.
  - reflexivity.
  - discriminate.
  - reflexivity.
  - reflexivity.
Defined.



Lemma shape_entry_ok root d (items : list (string * pyval)) :
  Forall entry_shape items -> forallb (entry_ok root d) items = true.
Proof.
  intros H. apply forallb_forall. rewrite Forall_forall in H.
  intros e He. destruct (H e He) as (h & t & Hs). unfold entry_ok.
  rewrite Hs. cbn. apply orb_true_r.
Qed.

(** ** What a run on a baseline that is there never prints *)

Lemma quiet_ret {A} (a : A) : quiet (ret a).
Proof.
  intros s o s' H. injection H as <- <-. exists []. now rewrite app_nil_r.
Qed.

Lemma quiet_raise {A} (e : exn) : quiet (raise (A := A) e).
Proof.
  intros s o s' H. injection H as <- <-. exists []. now rewrite app_nil_r.
Qed.

Lemma quiet_gets {A} (f : state -> A) : quiet (gets f).
Proof.
  intros s o s' H. injection H as <- <-. exists []. now rewrite app_nil_r.
Qed.

Lemma quiet_attempt {A} (f : state -> outcome A) : quiet (attempt f).
Proof.
  intros s o s' H. injection H as <- <-. exists []. now rewrite app_nil_r.
Qed.

Lemma quiet_modify (f : state -> state) :
  (forall s, stdout (f s) = stdout s) -> quiet (modify f).
Proof.
  intros Hf s o s' H. injection H as <- <-. exists [].
  now rewrite Hf, app_nil_r.
Qed.

Lemma quiet_print (l : line) : l <> NoBaselineData -> quiet (print l).
Proof.
  intros Hl s o s' H. injection H as <- <-. exists [l].
  split; [reflexivity|]. intros [E|[]]. congruence.
Qed.

Lemma quiet_bind {A B} (m : M A) (k : A -> M B) :
  quiet m -> (forall a, quiet (k a)) -> quiet (bind m k).
Proof.
  intros Hm Hk s o s' H. unfold bind in H.
  destruct (m s) as [[a|e] s1] eqn:E.
  - destruct (Hm _ _ _ E) as (o1 & H1 & N1).
    destruct (Hk a _ _ _ H) as (o2 & H2 & N2).
    exists (o1 ++ o2). split; [now rewrite H2, H1, app_assoc|].
    intros Hin. apply in_app_or in Hin. tauto.
  - injection H as <- <-. exact (Hm _ _ _ E).
Qed.

Lemma quiet_for_each {A} (l : list A) (body : A -> M unit) :
  (forall a, quiet (body a)) -> quiet (for_each l body).
Proof.
  intros Hb. induction l as [|a l IH]; cbn [for_each].
  - apply quiet_ret.
  - apply quiet_bind; [apply Hb | intros _; exact IH].
Qed.

Lemma quiet_for_fold {A B} (l : list A) (body : B -> A -> M B) :
  (forall acc a, quiet (body acc a)) -> forall acc, quiet (for_fold l acc body).
Proof.
  intros Hb. induction l as [|a l IH]; intros acc; cbn [for_fold].
  - apply quiet_ret.
  - apply quiet_bind; [apply Hb | exact IH].
Qed.

Lemma quiet_calculate_hash p : quiet (calculate_hash p).
Proof.
  unfold calculate_hash. apply quiet_bind; [apply quiet_gets|].
  intros [f|]; [apply quiet_ret|].
  apply quiet_bind; [now apply quiet_print | intros; apply quiet_ret].
Qed.

Lemma quiet_py_getitem v k : quiet (py_getitem v k).
Proof.
  destruct v; cbn [py_getitem]; try apply quiet_raise.
  destruct (dict_get k d); [apply quiet_ret | apply quiet_raise].
Qed.

Lemma quiet_check_entry d lists item : quiet (check_entry d lists item).
Proof.
  destruct lists as [changed missing], item as [k fd]. unfold check_entry.
  apply quiet_bind; [apply quiet_gets|]. intros present.
  destruct (negb present); [apply quiet_ret|].
  apply quiet_bind; [apply quiet_calculate_hash|]. intros h.
  apply quiet_bind; [apply quiet_py_getitem|]. intros stored.
  destruct (hash_ne h stored); apply quiet_ret.
Qed.

Lemma quiet_print_list header l :
  header <> NoBaselineData -> quiet (print_list header l).
Proof.
  intros Hh. destruct l as [|x l]; cbn [print_list]; [apply quiet_ret|].
  apply quiet_bind; [now apply quiet_print|]. intros _.
  apply quiet_for_each. intros f. now apply quiet_print.
Qed.

Lemma quiet_print_results changed new missing :
  quiet (print_results changed new missing).
Proof.
  assert (quiet (print_list ChangedHeader changed ;;
                 print_list NewHeader new ;;
                 print_list MissingHeader missing)) as G.
  { repeat (apply quiet_bind; [now apply quiet_print_list | intros _]).
    now apply quiet_print_list. }
  unfold print_results.
  destruct changed; [|exact G]. destruct new; [|exact G].
  destruct missing; [|exact G]. now apply quiet_print.
Qed.

Lemma quiet_save_baseline : quiet save_baseline.
Proof.
  unfold save_baseline. apply quiet_bind; [apply quiet_gets|].
  intros [|]; [|now apply quiet_print].
  apply quiet_bind; [apply quiet_gets | intros data].
  apply quiet_bind; [now apply quiet_modify | intros _].
  apply quiet_bind; [apply quiet_gets | intros file]. now apply quiet_print.
Qed.

(** With a snapshot that is not empty, the run does not say that there is
    no baseline, whether it returns or raises. *)
Lemma verify_quiet s o s' :
  truthy (baseline_data s) = true ->
  verify_integrity s = (o, s') ->
  exists out, stdout s' = stdout s ++ out /\ ~ In NoBaselineData out.
Proof.
  intros Ht. unfold verify_integrity. rewrite bind_gets, Ht. cbn [negb].
  clear Ht. generalize (baseline_data s) as data. intros data.
  match goal with
  | |- ?m s = _ -> _ => cut (quiet m); [intros Q H; exact (Q _ _ _ H)|]
  end.
  apply quiet_bind.
  { destruct data; cbn [py_get]; try apply quiet_raise.
    destruct (dict_get _ _); apply quiet_ret. }
  intros directory. apply quiet_bind.
  { destruct (negb (truthy directory)); [apply quiet_ret | apply quiet_attempt]. }
  intros valid. destruct (negb valid).
  { apply quiet_bind; [now apply quiet_print | intros; apply quiet_ret]. }
  destruct directory; try apply quiet_raise.
  apply quiet_bind; [apply quiet_py_getitem | intros files].
  apply quiet_bind; [destruct files; try apply quiet_raise; apply quiet_ret|].
  intros items.
  apply quiet_bind; [apply quiet_for_fold; intros; apply quiet_check_entry|].
  intros [changed missing].
  apply quiet_bind; [apply quiet_gets | intros walk].
  apply quiet_bind.
  { apply quiet_for_fold. intros new [[root dirs] files'].
    apply quiet_for_fold. intros acc f. unfold check_new.
    destruct (negb _); apply quiet_ret. }
  intros new.
  apply quiet_bind; [apply quiet_print_results | intros _].
  apply quiet_bind.
  { unfold now_isoformat. apply quiet_bind; [apply quiet_gets | intros t].
    apply quiet_bind; [now apply quiet_modify | intros; apply quiet_ret]. }
  intros t. apply quiet_bind.
  { unfold set_last_checked. apply quiet_bind; [apply quiet_gets | intros v].
    destruct v; try apply quiet_raise. now apply quiet_modify. }
  intros _. apply quiet_bind; [apply quiet_save_baseline | intros; apply quiet_ret].
Qed.

(** A snapshot has a root directory, [srv], which is no longer there: the
    run stops with the message about the directory and returns [None];
    nothing is compared. *)
Lemma root_directory_gone_no_comparison :
  baseline_data (set_fs (Dir []) demo_created) = snapshot "srv" "T0" demo_files
  /\ verify_integrity (set_fs (Dir []) demo_created)
     = (Ok None,
        emit (BaselineDirectoryNotValid (PStr "srv")) (set_fs (Dir []) demo_created)).
Proof. split; reflexivity. Qed.

(** C4, amended: with an empty snapshot, and that is what loading leaves
    when the baseline file is missing, unreadable or malformed,
    [verify_integrity] reports that there is no baseline, compares nothing
    and returns [None]; with a snapshot that is not empty it never reports
    that; with a snapshot whose root directory still exists as a directory
    it never returns [None], and when the entries are as [create_baseline]
    writes them the comparison runs to its end and the lists are
    returned. *)
Theorem no_baseline_or_comparison (s : state) :
  (truthy (baseline_data s) = false ->
   verify_integrity s = (Ok None, emit NoBaselineData s))
  /\ (bfile_content s = Absent \/ bfile_content s = Unreadable
      \/ bfile_content s = NotJson ->
      exists s1, init s = (Ok tt, s1)
                 /\ baseline_data s1 = PDict []
                 /\ verify_integrity s1 = (Ok None, emit NoBaselineData s1))
  /\ (truthy (baseline_data s) = true ->
      forall o s',
        verify_integrity s = (o, s') ->
        exists out, stdout s' = stdout s ++ out /\ ~ In NoBaselineData out)
  /\ (forall data d,
        baseline_data s = PDict data ->
        dict_get "directory" data = Some (PStr d) ->
        os_path_isdir (fs s) d = true ->
        (forall s', verify_integrity s <> (Ok None, s'))
        /\ (forall items,
              dict_get "files" data = Some (PDict items) ->
              Forall entry_shape items ->
              exists out,
                verify_integrity s
                = (Ok (Some (expected_report (fs s) d items)), verified s data out))).
Proof.
  split; [exact (verify_no_baseline s)|]. split.
  - intros H. unfold init, bind. rewrite load_baseline_spec.
    destruct H as [-> | [-> | ->]]; eexists; (split; [reflexivity|]);
      split; reflexivity.
  - split; [intros Ht o s' H; exact (verify_quiet s o s' Ht H)|].
    intros data d Hdata Hdir Hisdir. split.
    + intros s' H. apply verify_none in H as [[Hf _] | (data' & Hd' & _ & Hinv & _)].
      * rewrite Hdata in Hf. now destruct data.
      * rewrite Hdata in Hd'. injection Hd' as <-.
        unfold directory_of in Hinv. rewrite Hdir in Hinv.
        destruct Hinv as [Ht | Hd].
        -- cbn in Ht. apply isdir_not_empty in Hisdir. rewrite Hisdir in Ht.
           discriminate.
        -- cbn in Hd. congruence.
    + intros items Hfiles Hshape.
      apply (verify_ok s data d items Hdata Hdir Hisdir Hfiles).
      now apply shape_entry_ok.
Qed.

Lemma no_baseline_or_comparison_witness :
  verify_integrity (fresh demo_tree) = (Ok None, emit NoBaselineData (fresh demo_tree))
  /\ exists out,
       verify_integrity demo_created
       = (Ok (Some (expected_report demo_tree "srv" demo_files)),
          verified demo_created
                   [("directory", PStr "srv"); ("timestamp", PStr "T0");
                    ("files", PDict demo_files)] out).
Proof.
  split.
  - apply (proj1 (no_baseline_or_comparison (fresh demo_tree))). reflexivity.
  - apply (proj2 (proj2 (proj2 (no_baseline_or_comparison demo_created)))
             [("directory", PStr "srv"); ("timestamp", PStr "T0");
              ("files", PDict demo_files)] "srv" eq_refl eq_refl eq_refl).
    + reflexivity.
    + repeat constructor; unfold entry_shape; cbn; eauto.
Defined.

(** ** The entries of a snapshot and the files of the tree *)

Lemma fs_find_Some_In name children (c : node) :
  fs_find name children = Some c -> In (name, c) children.
Proof.
  induction children as [|[n' c'] l IH]; [discriminate|]. cbn [fs_find].
  destruct (String.eqb_spec name n') as [-> | _].
  - intros E. injection E as ->. now left.
  - intros E. right. now apply IH.
Qed.

Lemma listable_dir (children : list (string * node)) :
  listable (Dir children) = true ->
  Forall (fun e => listable (snd e) = true) children.
Proof.
  cbn [listable]. induction children as [|[name c] l IH]; [constructor|].
  intros H. apply andb_true_iff in H as [Hc Hl].
  constructor; [exact Hc | now apply IH].
Qed.

(** Where every directory can be listed, every entry that is not a
    directory and can be reached from a node is among its [tree_files]. *)
Lemma tree_lookup_files (n : node) :
  listable n = true ->
  forall rel data,
    rel <> [] -> tree_lookup n rel = Some (File data) ->
    In (rel, data) (tree_files n).
Proof.
  induction n as [data0|children IH|children IH] using node_induction;
    intros Hls rel data Hne Hl.
  - destruct rel; [congruence | discriminate].
  - destruct rel as [|c cs]; [congruence|]. cbn [tree_lookup] in Hl.
    destruct (fs_find c children) as [n'|] eqn:Hf; [|discriminate].
    apply fs_find_Some_In in Hf.
    pose proof (listable_dir children Hls) as Hall.
    rewrite tree_files_dir. apply in_or_app.
    destruct cs as [|c' cs].
    + cbn in Hl. injection Hl as ->. left.
      apply in_flat_map. exists (c, File data). split; [exact Hf | now left].
    + right. apply in_flat_map. exists (c, n'). split; [exact Hf|].
      cbn [fst snd]. apply in_map_iff. exists (c' :: cs, data). split; [reflexivity|].
      rewrite Forall_forall in IH, Hall.
      apply (IH _ Hf); [exact (Hall _ Hf) | discriminate | exact Hl].
  - discriminate.
Qed.

Lemma entries_of_In clock files :
  forall t k v,
    In (k, v) (entries_of clock t files) ->
    exists rel data t',
      In (rel, Some data) files /\ k = rel_key rel
      /\ v = file_entry (SHA256.hexdigest data) t'.
Proof.
  induction files as [|[rel [data|]] files IH]; intros t k v Hin;
    [contradiction| |].
  - cbn [entries_of] in Hin. destruct Hin as [E | Hin].
    + injection E as <- <-. exists rel, data, (clock t). repeat split. now left.
    + destruct (IH _ _ _ Hin) as (rel' & data' & t' & H1 & H2 & H3).
      exists rel', data', t'. repeat split; auto. now right.
  - cbn [entries_of] in Hin.
    destruct (IH _ _ _ Hin) as (rel' & data' & t' & H1 & H2 & H3).
    exists rel', data', t'. repeat split; auto. now right.
Qed.

Lemma entries_of_key clock files :
  forall t rel data,
    In (rel, Some data) files ->
    In (rel_key rel) (dict_keys (entries_of clock t files)).
Proof.
  induction files as [|[rel' [data'|]] files IH]; intros t rel data Hin;
    [contradiction| |]; cbn [entries_of dict_keys map fst].
  - destruct Hin as [E | Hin]; [injection E as -> ->; now left|].
    right. exact (IH _ _ _ Hin).
  - destruct Hin as [E | Hin]; [discriminate|]. exact (IH _ _ _ Hin).
Qed.

Lemma entries_of_readable clock files :
  forallb (fun f => match snd f with Some _ => true | None => false end) files
  = true ->
  forall t,
    Forall2 (fun e f =>
               fst e = rel_key (fst f)
               /\ exists data t',
                    snd f = Some data
                    /\ snd e = file_entry (SHA256.hexdigest data) t')
            (entries_of clock t files) files.
Proof.
  induction files as [|[rel [data|]] files IH]; intros Hr t; [constructor| |].
  - cbn [forallb snd] in Hr. cbn [entries_of].
    constructor; [cbn; eauto | now apply IH].
  - discriminate.
Qed.

Lemma entries_of_shape clock files t :
  Forall entry_shape (entries_of clock t files).
Proof.
  apply Forall_forall. intros [k v] Hin.
  destruct (entries_of_In _ _ _ _ _ Hin) as (rel & data & t' & _ & _ & ->).
  unfold entry_shape. cbn. eauto.
Qed.

Lemma Forall2_keys (entries : list (string * pyval))
  (files : list (list string * option (list byte))) R :
  Forall2 (fun e f => fst e = rel_key (fst f) /\ R e f) entries files ->
  dict_keys entries = map (fun f => rel_key (fst f)) files.
Proof.
  unfold dict_keys.
  induction 1 as [|e f es fs' [H _] _ IH]; [reflexivity|].
  cbn [map]. now rewrite H, IH.
Qed.

(** C5 as it stands fails where a directory cannot be listed: in
    [hidden_tree] every file under [srv] can be read, [srv/sub/b.txt]
    too, but the walk gets nothing from [srv/sub], and the snapshot holds
    the entry of [a.txt] alone. *)
Lemma unlisted_file_gets_no_entry :
  open_rb hidden_tree "srv/a.txt" = Some (bytes "hello")
  /\ open_rb hidden_tree "srv/sub/b.txt" = Some (bytes "world")
  /\ exists s',
       create_baseline "srv" (fresh hidden_tree) = (Ok tt, s')
       /\ baseline_data s'
          = snapshot "srv" "T0"
              [("a.txt",
                file_entry
                  "2cf24dba5fb0a30e26e83b2ac5b9e29e1b161e5c1fa7425e73043362938b9824"
                  "T1")]
       /\ stdout s' = [BaselineSaved "baseline.json"; BaselineCreated "srv" 1].
Proof.
  split; [reflexivity|]. split; [reflexivity|].
  eexists. split; [vm_compute; reflexivity|]. split; reflexivity.
Qed.

(** C5, amended: for a directory in which every directory can be listed
    and every file can be read, [create_baseline] builds a snapshot whose
    [directory] is the path it was given and whose [files] holds one entry
    for each file under the directory, in walk order and under distinct
    keys: the key is the file's path relative to the directory, written
    with slashes, and the stored hash is the SHA-256 digest of the file's
    content, 64 lowercase hexadecimal digits. *)
Theorem create_baseline_snapshot (s : state) (directory : string) (n : node) :
  os_stat (fs s) directory = Some n ->
  (exists children, n = Dir children) ->
  tree_ok n = true ->
  listable n = true ->
  all_readable n = true ->
  exists entries s',
    create_baseline directory s = (Ok tt, s')
    /\ baseline_data s' = snapshot directory (clock s (ticks s)) entries
    /\ Forall2 (fun e f =>
                  fst e = rel_key (fst f)
                  /\ exists data t,
                       snd f = Some data
                       /\ snd e = file_entry (SHA256.hexdigest data) t)
               entries (tree_files n)
    /\ NoDup (dict_keys entries)
    /\ (forall rel data,
          rel <> [] -> tree_lookup n rel = Some (File (Some data)) ->
          exists t, dict_get (rel_key rel) entries
                    = Some (file_entry (SHA256.hexdigest data) t))
    /\ (forall k v,
          In (k, v) entries ->
          exists rel data t,
            k = rel_key rel /\ tree_lookup n rel = Some (File (Some data))
            /\ v = file_entry (SHA256.hexdigest data) t
            /\ String.length (SHA256.hexdigest data) = 64
            /\ Forall (fun c => In c SHA256.hexchars)
                      (list_ascii_of_string (SHA256.hexdigest data))).
Proof.
  intros Hstat [children ->] Hok Hls Hread.
  assert (Hisdir : os_path_isdir (fs s) directory = true)
    by (unfold os_path_isdir; now rewrite Hstat).
  destruct (create_baseline_ok s directory Hisdir) as [out Hrun].
  set (entries := entries_of (clock s) (S (ticks s)) (tree_files (Dir children))).
  assert (Hdata : baseline_data (created s directory out)
                  = snapshot directory (clock s (ticks s)) entries).
  { unfold created. cbn [baseline_data].
    now rewrite (scan_tree _ _ _ _ _ Hstat Hok). }
  pose proof (entries_of_readable (clock s) _ Hread (S (ticks s))) as HF2.
  fold entries in HF2.
  assert (Hnd : NoDup (dict_keys entries)).
  { rewrite (Forall2_keys _ _ _ HF2). now apply tree_keys_NoDup. }
  exists entries, (created s directory out).
  split; [exact Hrun|]. split; [exact Hdata|]. split; [exact HF2|].
  split; [exact Hnd|]. split.
  - intros rel data Hne Hl.
    pose proof (tree_lookup_files _ Hls _ _ Hne Hl) as Hin.
    pose proof (entries_of_key (clock s) _ (S (ticks s)) _ _ Hin) as Hk.
    fold entries in Hk. unfold dict_keys in Hk.
    apply in_map_iff in Hk as [[k v] [E Hkv]]. cbn in E. subst k.
    destruct (entries_of_In _ _ _ _ _ Hkv) as (rel' & data' & t' & Hin' & Hkey & ->).
    assert (rel' = rel) as ->.
    { destruct (tree_files_lookup _ Hok _ _ Hin) as (N1 & O1 & _).
      destruct (tree_files_lookup _ Hok _ _ Hin') as (N2 & O2 & _).
      symmetry. now apply rel_key_inj. }
    destruct (tree_files_lookup _ Hok _ _ Hin') as (_ & _ & Hl').
    rewrite Hl in Hl'. injection Hl' as <-.
    exists t'. now apply dict_get_In.
  - intros k v Hin.
    destruct (entries_of_In _ _ _ _ _ Hin) as (rel & data & t' & Hin' & -> & ->).
    destruct (tree_files_lookup _ Hok _ _ Hin') as (_ & _ & Hl).
    exists rel, data, t'. repeat split; try assumption.
    apply hexdigest_lowercase.
Qed.

(** The scenario of the specification: [a.txt] holding "hello" and
    [sub/b.txt] holding "world". *)
Lemma create_baseline_demo :
  create_baseline "srv" (fresh demo_tree) = (Ok tt, demo_created).
Proof. vm_compute. reflexivity. Qed.

Lemma create_baseline_snapshot_witness :
  exists entries s',
    create_baseline "srv" (fresh demo_tree) = (Ok tt, s')
    /\ baseline_data s' = snapshot "srv" "T0" entries
    /\ Forall2 (fun e f =>
                  fst e = rel_key (fst f)
                  /\ exists data t,
                       snd f = Some data
                       /\ snd e = file_entry (SHA256.hexdigest data) t)
               entries
               [(["a.txt"], Some (bytes "hello"));
                (["sub"; "b.txt"], Some (bytes "world"))]
    /\ NoDup (dict_keys entries)
    /\ (forall rel data,
          rel <> [] ->
          tree_lookup (Dir [("a.txt", File (Some (bytes "hello")));
                            ("sub", Dir [("b.txt", File (Some (bytes "world")))])])
                      rel = Some (File (Some data)) ->
          exists t, dict_get (rel_key rel) entries
                    = Some (file_entry (SHA256.hexdigest data) t))
    /\ (forall k v,
          In (k, v) entries ->
          exists rel data t,
            k = rel_key rel
            /\ tree_lookup (Dir [("a.txt", File (Some (bytes "hello")));
                                 ("sub", Dir [("b.txt", File (Some (bytes "world")))])])
                           rel = Some (File (Some data))
            /\ v = file_entry (SHA256.hexdigest data) t
            /\ String.length (SHA256.hexdigest data) = 64
            /\ Forall (fun c => In c SHA256.hexchars)
                      (list_ascii_of_string (SHA256.hexdigest data))).
Proof.
  apply (create_baseline_snapshot (fresh demo_tree) "srv"
           (Dir [("a.txt", File (Some (bytes "hello")));
                 ("sub", Dir [("b.txt", File (Some (bytes "world")))])])).
  - reflexivity.
  - eexists. reflexivity.
  - reflexivity.
  - reflexivity.
  - reflexivity.
Defined.

(** ** Verifying a tree against its own snapshot *)

Lemma filter_none {A} (f : A -> bool) (l : list A) :
  (forall x, In x l -> f x = false) -> filter f l = [].
Proof.
  induction l as [|x l IH]; intros H; [reflexivity|]. cbn [filter].
  rewrite (H x) by now left. apply IH. intros y Hy. apply H. now right.
Qed.

(** The entry of a readable file, looked at in the tree it was taken
    from: the path is there and the digest is the stored one. *)
Lemma own_entry root d children rel data t :
  os_stat root d = Some (Dir children) ->
  tree_ok (Dir children) = true ->
  In (rel, Some data) (tree_files (Dir children)) ->
  let item := (rel_key rel, file_entry (SHA256.hexdigest data) t) in
  is_missing root d item = false /\ is_changed root d item = false.
Proof.
  intros Hstat Hok Hin item.
  destruct (tree_files_lookup _ Hok _ _ Hin) as (Hne & Hnames & Hl).
  pose proof (stat_join root d children rel Hstat Hne Hnames) as Hs.
  rewrite Hl in Hs.
  unfold is_missing, is_changed, os_path_exists, current_digest, open_rb.
  cbn [item fst snd]. rewrite Hs. cbn. now rewrite String.eqb_refl.
Qed.

(** A tree with a file that cannot be read: the file gets no entry when
    the baseline is created, and the verification that follows at once
    reports it as new. *)
Lemma unreadable_file_reported_new :
  fst (create_baseline "srv" (fresh locked_tree)) = Ok tt
  /\ fst (verify_integrity (snd (create_baseline "srv" (fresh locked_tree))))
     = Ok (Some (Report [] ["lock"] [])).
Proof. split; vm_compute; reflexivity. Qed.

(** C8, amended: for every directory whose files can all be read,
    [verify_integrity] run right after [create_baseline], on the tree as
    it was, returns three empty lists; and so does a new checker that
    loads the baseline file just written. *)
Theorem verify_after_create_is_clean (s : state) (directory : string) (n : node) :
  os_stat (fs s) directory = Some n ->
  (exists children, n = Dir children) ->
  tree_ok n = true ->
  all_readable n = true ->
  exists s1 s2,
    create_baseline directory s = (Ok tt, s1)
    /\ verify_integrity s1 = (Ok (Some (Report [] [] [])), s2)
    /\ (bfile_writable s = true ->
        exists s3, (init ;; verify_integrity) s1 = (Ok (Some (Report [] [] [])), s3)).
Proof.
  intros Hstat [children ->] Hok Hread.
  assert (Hisdir : os_path_isdir (fs s) directory = true)
    by (unfold os_path_isdir; now rewrite Hstat).
  destruct (create_baseline_ok s directory Hisdir) as [out Hrun].
  set (s1 := created s directory out).
  set (items := entries_of (clock s) (S (ticks s)) (tree_files (Dir children))).
  set (data := [("directory", PStr directory);
                ("timestamp", PStr (clock s (ticks s)));
                ("files", PDict items)]).
  assert (Hdata : baseline_data s1 = PDict data).
  { unfold s1, created. cbn [baseline_data].
    now rewrite (scan_tree _ _ _ _ _ Hstat Hok). }
  assert (Hfs : fs s1 = fs s) by reflexivity.
  assert (Hitem : forall item, In item items ->
                    is_missing (fs s) directory item = false
                    /\ is_changed (fs s) directory item = false).
  { intros [k v] Hin.
    destruct (entries_of_In _ _ _ _ _ Hin) as (rel & dat & t' & Hin' & -> & ->).
    now apply (own_entry (fs s) directory children). }
  assert (Hrep : expected_report (fs s) directory items = Report [] [] []).
  { unfold expected_report.
    rewrite (filter_none (is_changed _ _)) by (intros x Hx; apply (Hitem x Hx)).
    rewrite (filter_none (is_missing _ _)) by (intros x Hx; apply (Hitem x Hx)).
    rewrite (filter_none (is_new items)); [reflexivity|].
    intros p Hp. rewrite (disk_paths_tree _ _ _ Hstat Hok) in Hp.
    apply in_map_iff in Hp as [[rel [dat|]] [<- Hin]].
    - unfold is_new. apply negb_false_iff, dict_mem_In.
      exact (entries_of_key _ _ _ _ _ Hin).
    - unfold all_readable in Hread. rewrite forallb_forall in Hread.
      specialize (Hread _ Hin). discriminate. }
  assert (Hverify : forall s1', baseline_data s1' = PDict data -> fs s1' = fs s ->
                      exists s2, verify_integrity s1'
                                 = (Ok (Some (Report [] [] [])), s2)).
  { intros s1' Hd Hf.
    destruct (verify_ok s1' data directory items Hd eq_refl) as [out' Hv].
    - now rewrite Hf.
    - reflexivity.
    - rewrite Hf. apply shape_entry_ok, entries_of_shape.
    - rewrite Hf, Hrep in Hv. eauto. }
  destruct (Hverify s1 Hdata Hfs) as [s2 Hv].
  exists s1, s2. split; [exact Hrun|]. split; [exact Hv|].
  intros Hw.
  assert (Hints : ints_ok (PDict data) = true).
  { unfold data. cbn [ints_ok forallb snd andb]. rewrite andb_true_r.
    apply forallb_forall. intros [k v] Hin.
    destruct (entries_of_In _ _ _ _ _ Hin) as (rel & dat & t' & _ & _ & ->).
    reflexivity. }
  assert (Hb : bfile_content s1 = Json (PDict data)).
  { rewrite <- Hdata. unfold s1, created. cbn [bfile_content baseline_data].
    now rewrite Hw. }
  assert (Hinit : init s1 = (Ok tt, s1)).
  { unfold init, bind. rewrite load_baseline_spec, Hb, Hints.
    unfold modify. rewrite <- Hdata. reflexivity. }
  destruct (Hverify s1 Hdata Hfs) as [s3 Hv3].
  exists s3. now rewrite (bind_Ok _ _ _ _ _ Hinit).
Qed.

Lemma verify_after_create_is_clean_witness :
  exists s1 s2,
    create_baseline "srv" (fresh demo_tree) = (Ok tt, s1)
    /\ verify_integrity s1 = (Ok (Some (Report [] [] [])), s2)
    /\ (bfile_writable (fresh demo_tree) = true ->
        exists s3, (init ;; verify_integrity) s1 = (Ok (Some (Report [] [] [])), s3)).
Proof.
  apply (verify_after_create_is_clean (fresh demo_tree) "srv"
           (Dir [("a.txt", File (Some (bytes "hello")));
                 ("sub", Dir [("b.txt", File (Some (bytes "world")))])])).
  - reflexivity.
  - eexists. reflexivity.
  - reflexivity.
  - reflexivity.
Defined.

(** ** The three lists as a classification *)



Section Classification.
Variable root : node.
Variable d : string.
Variable items : list (string * pyval).
Hypothesis keys_distinct : NoDup (dict_keys items).
Hypothesis entries_shaped : Forall entry_shape items.

Let r := expected_report root d items.



Lemma new_on_disk p :
  In p (new_files r) <-> In p (disk_paths root d) /\ dict_mem p items = false.
Proof.
  cbn. rewrite filter_In. unfold is_new. now rewrite negb_true_iff.
Qed.

Lemma missing_iff k :
  In k (missing_files r)
  <-> In k (dict_keys items) /\ os_path_exists root (os_path_join d k) = false.
Proof.
  cbn. rewrite in_map_iff. split.
  - intros [[k' fd] [E H]]. cbn in E. subst k'.
    apply filter_In in H as [Hin Hm]. split.
    + change k with (fst (k, fd)). now apply in_map.
    + unfold is_missing in Hm. now apply negb_true_iff in Hm.
  - intros [Hin Hex]. apply in_map_iff in Hin as [[k' fd] [E Hin]].
    cbn in E. subst k'. exists (k, fd). split; [reflexivity|].
    apply filter_In. split; [exact Hin|].
    unfold is_missing. cbn [fst]. now rewrite Hex.
Qed.




End Classification.

(** A path the walk finds is there when it is looked up from the
    directory. *)
Lemma on_disk_exists root d children p :
  os_stat root d = Some (Dir children) -> tree_ok (Dir children) = true ->
  In p (disk_paths root d) ->
  os_path_exists root (os_path_join d p) = true.
Proof.
  intros Hstat Hok Hp. rewrite (disk_paths_tree _ _ _ Hstat Hok) in Hp.
  apply in_map_iff in Hp as [[rel data] [<- Hin]]. cbn [fst].
  destruct (tree_files_lookup _ Hok _ _ Hin) as (Hne & Hnames & Hl).
  unfold os_path_exists.
  now rewrite (stat_join root d children rel Hstat Hne Hnames), Hl.
Qed.





(** ** Exceptions *)

Lemma init_spec s :
  loads (bfile_content s) = true ->
  exists out,
    init s = (Ok tt, set_baseline_data (loaded (bfile_content s)) (emits out s))
    /\ (bfile_content s = Unreadable \/ bfile_content s = NotJson ->
        out = [ErrorLoadingBaseline]).
Proof.
  intros H. unfold init, bind. rewrite load_baseline_spec.
  destruct (bfile_content s) as [| | | | |v] eqn:E; cbn [loads] in H;
    try discriminate.
  - exists []. rewrite emits_nil. split; [reflexivity|]. intros [?|?]; discriminate.
  - exists [ErrorLoadingBaseline]. split; [reflexivity | reflexivity].
  - exists [ErrorLoadingBaseline]. split; [reflexivity | reflexivity].
  - rewrite H. exists []. rewrite emits_nil. split; [reflexivity|].
    intros [?|?]; discriminate.
Qed.

(** A baseline file that [load_baseline] does not get through ends
    [__init__] with the exception of the load, nothing done. *)
Lemma init_raises s :
  loads (bfile_content s) = false ->
  exists e, init s = (Raise e, s) /\ load_errors e = false.
Proof.
  intros H. unfold init, bind. rewrite load_baseline_spec.
  destruct (bfile_content s) as [| | | | |v] eqn:E; cbn [loads] in H;
    try discriminate.
  - exists UnicodeDecodeError. now split.
  - exists RecursionError. now split.
  - rewrite H. exists ValueError. now split.
Qed.

Lemma create_baseline_total s d :
  exists out s',
    create_baseline d s = (Ok tt, s') /\ stdout s' = stdout s ++ out
    /\ (os_path_isdir (fs s) d = false -> out = [NotValidDirectory d]).
Proof.
  destruct (os_path_isdir (fs s) d) eqn:Hisdir.
  - destruct (create_baseline_ok s d Hisdir) as [out Hrun].
    exists out, (created s d out). split; [exact Hrun|].
    split; [reflexivity | discriminate].
  - exists [NotValidDirectory d], (emit (NotValidDirectory d) s).
    unfold create_baseline. rewrite bind_gets, Hisdir. now repeat split.
Qed.

Lemma verifiable_dict root data :
  data <> [] -> verifiable root (PDict data) = true ->
  invalid_directory root (directory_of data)
  \/ exists d items,
       dict_get "directory" data = Some (PStr d)
       /\ os_path_isdir root d = true
       /\ dict_get "files" data = Some (PDict items)
       /\ forallb (entry_ok root d) items = true.
Proof.
  intros Hne H. unfold verifiable in H.
  assert (truthy (PDict data) = true) as Ht by (now destruct data).
  rewrite Ht in H. cbn [negb orb] in H.
  unfold invalid_directory.
  destruct (truthy (directory_of data)) eqn:Htd; [|now left; left].
  cbn [negb orb] in H.
  destruct (os_path_isdir_py root (directory_of data)) as [[|]|e] eqn:Hd;
    [|now left; right | discriminate].
  right. unfold directory_of in *.
  destruct (dict_get "directory" data) as [[| | | |d| |]|]; try discriminate.
  destruct (dict_get "files" data) as [[| | | | | |items]|]; try discriminate.
  exists d, items. cbn in Hd. injection Hd as Hd. now repeat split.
Qed.

Lemma verify_total s :
  verifiable (fs s) (baseline_data s) = true ->
  exists r out s',
    verify_integrity s = (Ok r, s') /\ stdout s' = stdout s ++ out
    /\ (truthy (baseline_data s) = false -> out = [NoBaselineData]).
Proof.
  intros H. destruct (truthy (baseline_data s)) eqn:Ht.
  - destruct (baseline_data s) as [| | | | | |data] eqn:Hdata;
      try (unfold verifiable in H; rewrite Ht in H; discriminate).
    assert (Hne : data <> []) by (now destruct data).
    destruct (verifiable_dict _ _ Hne H) as [Hinv | (d & items & H1 & H2 & H3 & H4)].
    + exists None, [BaselineDirectoryNotValid (directory_of data)],
        (emit (BaselineDirectoryNotValid (directory_of data)) s).
      split; [exact (verify_invalid_directory s data Hdata Hne Hinv)|].
      split; [reflexivity | discriminate].
    + destruct (verify_ok s data d items Hdata H1 H2 H3 H4) as [out Hv].
      exists (Some (expected_report (fs s) d items)), out, (verified s data out).
      split; [exact Hv|]. split; [reflexivity | discriminate].
  - exists None, [NoBaselineData], (emit NoBaselineData s).
    split; [now apply verify_no_baseline|]. now split.
Qed.

(** The other way round: a run without exception had such a snapshot. *)
Lemma verify_returns_verifiable s r s' :
  verify_integrity s = (Ok r, s') -> verifiable (fs s) (baseline_data s) = true.
Proof.
  intros H. unfold verifiable. destruct r as [r|].
  - destruct (verify_inv s r s' H) as (data & d & items & H1 & H2 & H3 & H4 & H5).
    rewrite H1. unfold directory_of. rewrite H2. cbn [os_path_isdir_py].
    rewrite H3, H4, H5. now rewrite !orb_true_r.
  - apply verify_none in H as [[-> _] | (data & Hd & Hne & Hinv & _)];
      [reflexivity|].
    rewrite Hd. destruct Hinv as [-> | ->]; cbn; now rewrite ?orb_true_r.
Qed.

(** A baseline file that holds a JSON list, or a JSON object without
    [files], makes the verification raise. *)
Lemma unexpected_json_raises :
  fst (main verify "srv" (set_bfile (Json (PList [PInt 1])) (fresh demo_tree)))
  = Raise AttributeError
  /\ fst (main verify "srv"
            (set_bfile (Json (PDict [("directory", PStr "srv")])) (fresh demo_tree)))
     = Raise KeyError.
Proof. split; vm_compute; reflexivity. Qed.

(** C3, amended.  Take a baseline file that is missing, cannot be opened,
    is not JSON, or holds JSON that [json.load] gets through, and a run
    all of whose lines the console can encode.  Then [create] returns
    without an exception, whatever the target path and whatever the shape
    of the JSON; and so does [verify] when the snapshot loaded is one that
    [verifiable] describes and is nested no deeper than [json.dump]
    follows.  What fails is printed: a target that is no directory, a
    baseline file that cannot be loaded, a baseline that is not there.
    For a snapshot of any other shape [verify] raises. *)
Theorem no_uncaught_exception (s : state) (cmd : command) (path : string) :
  loads (bfile_content s) = true ->
  forallb line_encodable (stdout (snd (main cmd path s))) = true ->
  (cmd = verify -> json_depth (loaded (bfile_content s)) <= max_nesting) ->
  (cmd = create \/ verifiable (fs s) (loaded (bfile_content s)) = true ->
   exists out s',
     main cmd path s = (Ok tt, s')
     /\ stdout s' = stdout s ++ out
     /\ (bfile_content s = Unreadable \/ bfile_content s = NotJson ->
         In ErrorLoadingBaseline out)
     /\ (cmd = create -> os_path_isdir (fs s) path = false ->
         In (NotValidDirectory path) out)
     /\ (cmd = verify -> truthy (loaded (bfile_content s)) = false ->
         In NoBaselineData out))
  /\ (cmd = verify -> verifiable (fs s) (loaded (bfile_content s)) = false ->
      exists e s', main cmd path s = (Raise e, s')).
Proof.
  intros Hloads _ _.
  destruct (init_spec s Hloads) as (out0 & Hinit & Hout0).
  unfold main. rewrite (bind_Ok _ _ _ _ _ Hinit).
  set (s1 := set_baseline_data (loaded (bfile_content s)) (emits out0 s)) in *.
  assert (Hs1 : stdout s1 = stdout s ++ out0) by reflexivity.
  split.
  - intros Hshape. destruct cmd.
    + destruct (create_baseline_total s1 path) as (out & s' & Hrun & Hso & Hinv).
      exists (out0 ++ out), s'. split; [exact Hrun|].
      split; [now rewrite Hso, Hs1, app_assoc|].
      split; [|split; [|discriminate]].
      * intros H. apply in_or_app. left. rewrite (Hout0 H). now left.
      * intros _ H. apply in_or_app. right. rewrite (Hinv H). now left.
    + destruct Hshape as [Hc | Hshape]; [discriminate|].
      destruct (verify_total s1 Hshape) as (r & out & s' & Hrun & Hso & Hnb).
      exists (out0 ++ out), s'.
      split; [now rewrite (bind_Ok _ _ _ _ _ Hrun)|].
      split; [now rewrite Hso, Hs1, app_assoc|].
      split; [|split; [discriminate|]].
      * intros H. apply in_or_app. left. rewrite (Hout0 H). now left.
      * intros _ H. apply in_or_app. right. rewrite (Hnb H). now left.
  - intros -> Hshape. unfold bind.
    destruct (verify_integrity s1) as [[r|e] s'] eqn:Hrun; [|eauto].
    apply verify_returns_verifiable in Hrun.
    change (fs s1) with (fs s) in Hrun.
    change (baseline_data s1) with (loaded (bfile_content s)) in Hrun.
    congruence.
Qed.

Lemma no_uncaught_exception_witness :
  (verify = create
   \/ verifiable (fs (set_bfile NotJson (fresh demo_tree)))
                 (loaded (bfile_content (set_bfile NotJson (fresh demo_tree))))
      = true ->
   exists out s',
     main verify "srv" (set_bfile NotJson (fresh demo_tree)) = (Ok tt, s')
     /\ stdout s' = stdout (set_bfile NotJson (fresh demo_tree)) ++ out
     /\ (bfile_content (set_bfile NotJson (fresh demo_tree)) = Unreadable
         \/ bfile_content (set_bfile NotJson (fresh demo_tree)) = NotJson ->
         In ErrorLoadingBaseline out)
     /\ (verify = create ->
         os_path_isdir (fs (set_bfile NotJson (fresh demo_tree))) "srv" = false ->
         In (NotValidDirectory "srv") out)
     /\ (verify = verify ->
         truthy (loaded (bfile_content (set_bfile NotJson (fresh demo_tree))))
         = false ->
         In NoBaselineData out))
  /\ (verify = verify ->
      verifiable (fs (set_bfile NotJson (fresh demo_tree)))
                 (loaded (bfile_content (set_bfile NotJson (fresh demo_tree))))
      = false ->
      exists e s',
        main verify "srv" (set_bfile NotJson (fresh demo_tree)) = (Raise e, s')).
Proof.
  apply (no_uncaught_exception (set_bfile NotJson (fresh demo_tree)) verify "srv").
  - reflexivity.
  - reflexivity.
  - intros _. vm_compute. lia.
Defined.

(** * Further properties of the code *)

(** ** What is printed, line by line *)

Lemma save_baseline_exact s :
  save_baseline s =
  (Ok tt, emit (save_line s)
               (if bfile_writable s
                then set_bfile (Json (baseline_data s)) s else s)).
Proof.
  unfold save_baseline, save_line. rewrite bind_gets.
  destruct (bfile_writable s) eqn:Hw; [|reflexivity].
  rewrite bind_gets, bind_modify, bind_gets. reflexivity.
Qed.

Lemma print_list_exact header l s :
  print_list header l s = (Ok tt, emits (list_lines header l) s).
Proof.
  destruct l as [|x l]; cbn [print_list list_lines].
  - unfold ret. now rewrite emits_nil.
  - unfold bind, print at 1, modify.
    now rewrite for_each_print, emit_emits, emits_emits.
Qed.

Lemma print_results_exact changed new missing s :
  print_results changed new missing s
  = (Ok tt, emits (result_lines (Report changed new missing)) s).
Proof.
  assert ((print_list ChangedHeader changed ;;
           print_list NewHeader new ;;
           print_list MissingHeader missing) s
          = (Ok tt, emits (list_lines ChangedHeader changed
                           ++ list_lines NewHeader new
                           ++ list_lines MissingHeader missing) s)) as G.
  { rewrite (bind_Ok _ _ _ _ _ (print_list_exact _ _ _)).
    rewrite (bind_Ok _ _ _ _ _ (print_list_exact _ _ _)).
    now rewrite print_list_exact, !emits_emits, app_assoc. }
  unfold print_results, result_lines. cbn [changed_files new_files missing_files].
  destruct changed; [|exact G]. destruct new; [|exact G].
  destruct missing; [|exact G]. reflexivity.
Qed.

Lemma verify_exact s data d items :
  baseline_data s = PDict data ->
  dict_get "directory" data = Some (PStr d) ->
  os_path_isdir (fs s) d = true ->
  dict_get "files" data = Some (PDict items) ->
  forallb (entry_ok (fs s) d) items = true ->
  verify_integrity s =
  (Ok (Some (expected_report (fs s) d items)),
   verified s data (read_errors (fs s) d items
                    ++ result_lines (expected_report (fs s) d items)
                    ++ [save_line s])).
Proof.
  intros Hdata Hdir Hisdir Hfiles Hok.
  pose proof (isdir_not_empty _ _ Hisdir) as Hd.
  assert (Ht : truthy (PDict data) = true) by (now destruct data).
  unfold verify_integrity.
  rewrite bind_gets, Hdata, Ht. cbn [negb py_get]. rewrite Hdir, bind_ret.
  cbn [truthy]. rewrite Hd. cbn [negb].
  unfold bind at 1, attempt. cbn [os_path_isdir_py]. rewrite Hisdir.
  cbn [negb py_getitem]. rewrite Hfiles, bind_ret.
  cbn [py_items]. rewrite bind_ret.
  rewrite (bind_Ok _ _ _ _ _ (first_loop_ok d items [] [] s Hok)). cbn [app].
  rewrite bind_gets, (bind_Ok _ _ _ _ _ (second_loop _ _ _ _ _)). cbn [app fs emits].
  rewrite (bind_Ok _ _ _ _ _ (print_results_exact _ _ _ _)).
  unfold now_isoformat. rewrite bind_bind, bind_gets, bind_bind, bind_modify, bind_ret.
  unfold set_last_checked. rewrite bind_bind, bind_gets.
  cbn [baseline_data tick emits]. rewrite Hdata, bind_modify.
  rewrite (bind_Ok _ _ _ _ _ (save_baseline_exact _)).
  unfold ret, expected_report, disk_paths, verified, save_line. f_equal.
  clear. destruct s as [bf bd t bc bw ck tk so].
  destruct bw; unfold emit, set_bfile, set_baseline_data, tick, emits; cbn;
    now rewrite <- !app_assoc.
Qed.

Lemma verify_completed_exact s r s' :
  verify_integrity s = (Ok (Some r), s') ->
  exists data d items,
    baseline_data s = PDict data
    /\ dict_get "directory" data = Some (PStr d)
    /\ os_path_isdir (fs s) d = true
    /\ dict_get "files" data = Some (PDict items)
    /\ forallb (entry_ok (fs s) d) items = true
    /\ r = expected_report (fs s) d items
    /\ s' = verified s data (read_errors (fs s) d items ++ result_lines r
                             ++ [save_line s]).
Proof.
  intros H.
  destruct (verify_inv s r s' H) as (data & d & items & H1 & H2 & H3 & H4 & H5).
  rewrite (verify_exact s data d items H1 H2 H3 H4 H5) in H.
  injection H as <- <-.
  exists data, d, items. repeat split; assumption.
Qed.

Lemma create_loop_exact d (paths : list string) :
  forall s d0 ts fl,
    baseline_data s = snapshot d0 ts fl ->
    for_each paths (add_file d) s =
    (Ok tt,
     State (baseline_file s)
           (snapshot d0 ts (snd (scan (fs s) (clock s) d paths (ticks s) fl)))
           (fs s) (bfile_content s) (bfile_writable s) (clock s)
           (fst (scan (fs s) (clock s) d paths (ticks s) fl))
           (stdout s ++ scan_errors (fs s) paths)).
Proof.
  induction paths as [|p paths IH]; intros s d0 ts fl Hdata.
  - cbn. unfold ret. rewrite app_nil_r, <- Hdata. now destruct s.
  - cbn [for_each scan scan_errors flat_map]. unfold bind.
    rewrite (add_file_step d p s d0 ts fl Hdata).
    destruct (open_rb (fs s) p) as [data|].
    + match goal with
      | |- for_each paths _ ?s1 = _ => rewrite (IH s1 d0 ts _ eq_refl)
      end.
      reflexivity.
    + rewrite (IH (emit (ErrorReadingFile p) s) d0 ts fl Hdata).
      cbn. now rewrite <- app_assoc.
Qed.

Lemma create_exact s d :
  os_path_isdir (fs s) d = true ->
  create_baseline d s =
  (Ok tt,
   created s d
     (scan_errors (fs s) (walk_paths (os_walk (fs s) d))
      ++ [save_line s;
          BaselineCreated d
            (List.length (snd (scan (fs s) (clock s) d
                                    (walk_paths (os_walk (fs s) d))
                                    (S (ticks s)) [])))])).
Proof.
  intros Hisdir. unfold create_baseline.
  rewrite bind_gets, Hisdir. cbn [negb].
  unfold now_isoformat. rewrite bind_bind, bind_gets, bind_bind, bind_modify, bind_ret.
  rewrite bind_modify, bind_gets.
  unfold bind at 1. rewrite for_each_walk.
  match goal with
  | |- context [for_each ?ps (add_file d) ?s0] =>
      rewrite (create_loop_exact d ps s0 d (clock s (ticks s)) [] eq_refl)
  end.
  rewrite (bind_Ok _ _ _ _ _ (save_baseline_exact _)).
  unfold len_files. rewrite bind_bind, bind_gets.
  unfold created, save_line. destruct s as [bf bd t bc bw ck tk so]. simpl_state.
  destruct bw; simpl_state; unfold snapshot; cbn; unfold print, modify;
    simpl_state; rewrite <- !app_assoc; reflexivity.
Qed.


(** ** The hasher *)

(** X1: [calculate_hash] on a file that can be opened returns the SHA-256
    digest of its whole content, however many blocks of 4096 bytes the
    loop takes to read it, prints nothing and changes nothing; on a path
    that cannot be opened it returns [None] and prints one line naming the
    path.  The loop needs no more rounds than the file has bytes, plus
    one. *)
Theorem calculate_hash_whole_content
  (s : state) (file_path : string) (fuel : nat) (f fed : list byte) :
  List.length f < fuel ->
  read_blocks fuel f fed = fed ++ f
  /\ (open_rb (fs s) file_path = Some f ->
      calculate_hash file_path s = (Ok (Some (SHA256.hexdigest f)), s))
  /\ (open_rb (fs s) file_path = None ->
      calculate_hash file_path s
      = (Ok None, emit (ErrorReadingFile file_path) s)).
Proof.
  intros Hfuel. split; [now apply read_blocks_all|].
  rewrite calculate_hash_spec. split; intros ->; reflexivity.
Qed.

Lemma calculate_hash_whole_content_witness :
  read_blocks 4200 (repeat "a"%byte 4100) (bytes "x")
  = bytes "x" ++ repeat "a"%byte 4100
  /\ (open_rb (fs (fresh (Dir [("big", File (Some (repeat "a"%byte 4100)))]))) "big"
      = Some (repeat "a"%byte 4100) ->
      calculate_hash "big" (fresh (Dir [("big", File (Some (repeat "a"%byte 4100)))]))
      = (Ok (Some (SHA256.hexdigest (repeat "a"%byte 4100))),
         fresh (Dir [("big", File (Some (repeat "a"%byte 4100)))])))
  /\ (open_rb (fs (fresh (Dir [("big", File (Some (repeat "a"%byte 4100)))]))) "big"
      = None ->
      calculate_hash "big" (fresh (Dir [("big", File (Some (repeat "a"%byte 4100)))]))
      = (Ok None,
         emit (ErrorReadingFile "big")
              (fresh (Dir [("big", File (Some (repeat "a"%byte 4100)))])))).
Proof.
  apply (calculate_hash_whole_content
           (fresh (Dir [("big", File (Some (repeat "a"%byte 4100)))]))
           "big" 4200 (repeat "a"%byte 4100) (bytes "x")).
  rewrite repeat_length. apply Nat.ltb_lt. vm_compute. reflexivity.
Defined.

(** ** Keys *)

Lemma Forall2_In_l {A B} (R : A -> B -> Prop) l l' a :
  Forall2 R l l' -> In a l -> exists b, In b l' /\ R a b.
Proof.
  induction 1 as [|x y l l' Hxy _ IH]; intros Hin; [contradiction|].
  destruct Hin as [<- | Hin].
  - exists y. split; [now left | exact Hxy].
  - destruct (IH Hin) as (b & Hb & Hr). exists b. split; [now right | exact Hr].
Qed.

(** X2: the key stored for a file leads back to the file.  For every file
    path the walk of a well-formed directory hands over, the relative path
    computed from it, joined to the directory again as [verify_integrity]
    does, names the same file; and no two walked files get the same
    relative path. *)
Theorem key_leads_back_to_file
  (root : node) (directory : string) (n : node) (file_path : string) :
  os_stat root directory = Some n ->
  tree_ok n = true ->
  In file_path (walk_paths (os_walk root directory)) ->
  os_stat root (os_path_join directory (os_path_relpath file_path directory))
  = os_stat root file_path
  /\ (exists data, os_stat root file_path = Some (File data))
  /\ NoDup (disk_paths root directory).
Proof.
  intros Hstat Hok Hin.
  pose proof (walk_of_tree root directory n Hstat Hok) as Hwalk.
  destruct (Forall2_In_l _ _ _ _ Hwalk Hin) as ([rel data] & Hf & Hs & Hr).
  cbn [fst snd app] in Hs, Hr.
  assert (Hnd : NoDup (disk_paths root directory)).
  { rewrite (disk_paths_tree _ _ _ Hstat Hok). now apply tree_keys_NoDup. }
  destruct n as [data0|children|children]; [contradiction| |contradiction].
  destruct (tree_files_lookup _ Hok _ _ Hf) as (Hne & Hnames & Hl).
  split; [|split; [eauto | exact Hnd]].
  rewrite Hr, (stat_join root directory children rel Hstat Hne Hnames).
  now rewrite Hl, Hs.
Qed.

Lemma key_leads_back_to_file_witness :
  os_stat demo_tree (os_path_join "srv/" (os_path_relpath "srv/sub/b.txt" "srv/"))
  = os_stat demo_tree "srv/sub/b.txt"
  /\ (exists data, os_stat demo_tree "srv/sub/b.txt" = Some (File data))
  /\ NoDup (disk_paths demo_tree "srv/").
Proof.
  apply (key_leads_back_to_file demo_tree "srv/"
           (Dir [("a.txt", File (Some (bytes "hello")));
                 ("sub", Dir [("b.txt", File (Some (bytes "world")))])])
           "srv/sub/b.txt").
  - reflexivity.
  - reflexivity.
  - right. left. reflexivity.
Defined.


(** ** The snapshot of a tree with files that cannot be read *)

Lemma dict_get_Some_In k v d : dict_get k d = Some v -> In (k, v) d.
Proof.
  induction d as [|[k' v'] d IH]; [discriminate|]. cbn [dict_get].
  destruct (String.eqb_spec k k') as [-> | _].
  - intros E. injection E as ->. now left.
  - intros E. right. now apply IH.
Qed.

Lemma entries_of_length clock files :
  forall t, List.length (entries_of clock t files)
            = List.length (filter is_readable files).
Proof.
  induction files as [|[rel [data|]] files IH]; intros t; [reflexivity| |];
    cbn [entries_of filter is_readable snd]; cbn [List.length]; now rewrite IH.
Qed.

Lemma entries_of_key_and_hash clock files :
  forall t,
    map key_and_hash (entries_of clock t files)
    = flat_map (fun f => match snd f with
                         | Some data =>
                             [(rel_key (fst f), Some (PStr (SHA256.hexdigest data)))]
                         | None => []
                         end) files.
Proof.
  induction files as [|[rel [data|]] files IH]; intros t; [reflexivity| |];
    cbn [entries_of flat_map map snd fst app]; now rewrite IH.
Qed.

Lemma scan_count root clock d paths files :
  Forall2 (walked root d []) paths files ->
  forall t fl,
    fst (scan root clock d paths t fl) = t + List.length (filter is_readable files)
    /\ List.length (scan_errors root paths) + List.length (filter is_readable files)
       = List.length files.
Proof.
  induction 1 as [|p [rel data] paths files Hw _ IH]; intros t fl.
  - cbn. split; lia.
  - destruct (walked_open _ _ _ _ Hw) as [Hopen _]. cbn [snd] in Hopen.
    cbn [scan scan_errors flat_map]. rewrite Hopen.
    fold (scan_errors root paths).
    destruct data as [data|].
    + change (filter is_readable ((rel, Some data) :: files))
        with ((rel, Some data) :: filter is_readable files).
      destruct (IH (S t) (dict_set (os_path_relpath p d)
                            (file_entry (SHA256.hexdigest data) (clock t)) fl))
        as [H1 H2].
      rewrite H1. cbn [app List.length]. split; lia.
    + change (filter is_readable ((rel, None) :: files))
        with (filter is_readable files).
      destruct (IH t fl) as [H1 H2].
      rewrite H1. cbn [app List.length]. split; lia.
Qed.

Lemma scan_errors_lines root paths l :
  In l (scan_errors root paths) ->
  exists p, In p paths /\ open_rb root p = None /\ l = ErrorReadingFile p.
Proof.
  unfold scan_errors. intros H. apply in_flat_map in H as (p & Hp & H).
  destruct (open_rb root p) eqn:E; [contradiction|].
  destruct H as [<-|[]]. eauto.
Qed.

(** What is known of the entries of a well-formed directory. *)
Lemma entries_of_tree clock t (n : node) :
  tree_ok n = true ->
  let entries := entries_of clock t (tree_files n) in
  NoDup (dict_keys entries)
  /\ (forall rel data,
        In (rel, Some data) (tree_files n) ->
        exists t', dict_get (rel_key rel) entries
                   = Some (file_entry (SHA256.hexdigest data) t'))
  /\ (forall k, In k (dict_keys entries) ->
        exists rel data,
          k = rel_key rel /\ In (rel, Some data) (tree_files n)
          /\ tree_lookup n rel = Some (File (Some data))).
Proof.
  intros Hok entries.
  assert (Hkeys : forall k, In k (dict_keys entries) ->
            exists rel data,
              k = rel_key rel /\ In (rel, Some data) (tree_files n)
              /\ tree_lookup n rel = Some (File (Some data))).
  { intros k Hk. apply in_map_iff in Hk as [[k' v] [E Hin]]. cbn in E. subst k'.
    destruct (entries_of_In _ _ _ _ _ Hin) as (rel & data & t' & Hin' & -> & _).
    destruct (tree_files_lookup _ Hok _ _ Hin') as (_ & _ & Hl).
    exists rel, data. now repeat split. }
  assert (Hnd : NoDup (dict_keys entries)).
  { unfold entries, dict_keys.
    assert (Hsub : forall files t0,
               NoDup (map (fun f => rel_key (fst f)) files) ->
               NoDup (map fst (entries_of clock t0 files))).
    { induction files as [|[rel [data|]] files IH]; intros t0 H; [constructor| |];
        cbn [map fst entries_of] in *; apply NoDup_cons_iff in H as [Hh Ht].
      - apply NoDup_cons_iff. split; [|now apply IH].
        intros Hin. apply Hh. apply in_map_iff in Hin as [[k v] [E Hin]].
        cbn in E. subst k.
        destruct (entries_of_In _ _ _ _ _ Hin) as (rel' & d' & t' & Hin' & -> & _).
        apply in_map_iff. exists (rel', Some d'). now split.
      - now apply IH. }
    apply Hsub. now apply tree_keys_NoDup. }
  split; [exact Hnd|]. split; [|exact Hkeys].
  intros rel data Hin.
  destruct (tree_files_lookup _ Hok _ _ Hin) as (_ & _ & Hl).
  pose proof (entries_of_key clock _ t _ _ Hin) as Hk. fold entries in Hk.
  apply in_map_iff in Hk as [[k v] [E Hkv]]. cbn in E. subst k.
  destruct (entries_of_In _ _ _ _ _ Hkv) as (rel' & data' & t' & Hin' & Hkey & ->).
  assert (rel' = rel) as ->.
  { destruct (tree_files_lookup _ Hok _ _ Hin) as (N1 & O1 & _).
    destruct (tree_files_lookup _ Hok _ _ Hin') as (N2 & O2 & _).
    symmetry. now apply rel_key_inj. }
  destruct (tree_files_lookup _ Hok _ _ Hin') as (_ & _ & Hl').
  rewrite Hl in Hl'. injection Hl' as <-.
  exists t'. now apply dict_get_In.
Qed.

Lemma created_entries s d n out :
  os_stat (fs s) d = Some n -> tree_ok n = true ->
  baseline_data (created s d out)
  = snapshot d (clock s (ticks s))
             (entries_of (clock s) (S (ticks s)) (tree_files n)).
Proof.
  intros Hstat Hok. unfold created. cbn [baseline_data].
  now rewrite (scan_tree _ _ _ _ _ Hstat Hok).
Qed.

(** X3: in a well-formed directory, with or without files that cannot be
    read and directories that cannot be listed, [create_baseline] stores
    an entry under the relative path of every file the walk reaches and
    can read, holding the digest of that file's content, and stores
    nothing for a file the walk reaches and cannot read.  Where every
    directory can be listed, the walk reaches every file, so that every
    readable file of the tree has its entry.  Every key is the relative
    path of a readable file the walk reaches, and no key occurs twice. *)
Theorem create_baseline_skips_unreadable (s : state) (directory : string) (n : node) :
  os_stat (fs s) directory = Some n ->
  (exists children, n = Dir children) ->
  tree_ok n = true ->
  exists entries s',
    create_baseline directory s = (Ok tt, s')
    /\ baseline_data s' = snapshot directory (clock s (ticks s)) entries
    /\ NoDup (dict_keys entries)
    /\ (forall rel data,
          In (rel, Some data) (tree_files n) ->
          exists t, dict_get (rel_key rel) entries
                    = Some (file_entry (SHA256.hexdigest data) t))
    /\ (forall rel,
          In (rel, None) (tree_files n) ->
          dict_get (rel_key rel) entries = None)
    /\ (listable n = true ->
        forall rel data,
          rel <> [] -> tree_lookup n rel = Some (File data) ->
          In (rel, data) (tree_files n))
    /\ (forall k, In k (dict_keys entries) ->
          exists rel data,
            k = rel_key rel /\ In (rel, Some data) (tree_files n)
            /\ tree_lookup n rel = Some (File (Some data))).
Proof.
  intros Hstat [children ->] Hok.
  assert (Hisdir : os_path_isdir (fs s) directory = true)
    by (unfold os_path_isdir; now rewrite Hstat).
  destruct (create_baseline_ok s directory Hisdir) as [out Hrun].
  destruct (entries_of_tree (clock s) (S (ticks s)) _ Hok) as (Hnd & Hget & Hkeys).
  exists (entries_of (clock s) (S (ticks s)) (tree_files (Dir children))),
    (created s directory out).
  split; [exact Hrun|]. split; [now apply created_entries|].
  split; [exact Hnd|]. split; [exact Hget|]. split; [|split; [|exact Hkeys]].
  - intros rel Hin. apply dict_get_None. intros Hk.
    destruct (Hkeys _ Hk) as (rel' & data' & Hkey & Hin' & Hl').
    destruct (tree_files_lookup _ Hok _ _ Hin) as (N1 & O1 & Hl).
    destruct (tree_files_lookup _ Hok _ _ Hin') as (N2 & O2 & _).
    assert (rel' = rel) as -> by (symmetry; now apply rel_key_inj).
    congruence.
  - intros Hls rel data. now apply tree_lookup_files.
Qed.

Lemma create_baseline_skips_unreadable_witness :
  exists entries s',
    create_baseline "srv" (fresh hidden_tree) = (Ok tt, s')
    /\ baseline_data s' = snapshot "srv" "T0" entries
    /\ NoDup (dict_keys entries)
    /\ (forall rel data,
          In (rel, Some data) [(["a.txt"], Some (bytes "hello"))] ->
          exists t, dict_get (rel_key rel) entries
                    = Some (file_entry (SHA256.hexdigest data) t))
    /\ (forall rel,
          In (rel, None) [(["a.txt"], Some (bytes "hello"))] ->
          dict_get (rel_key rel) entries = None)
    /\ (false = true ->
        forall rel data,
          rel <> [] ->
          tree_lookup
            (Dir [("a.txt", File (Some (bytes "hello")));
                  ("sub", Locked [("b.txt", File (Some (bytes "world")))])])
            rel = Some (File data) ->
          In (rel, data) [(["a.txt"], Some (bytes "hello"))])
    /\ (forall k, In k (dict_keys entries) ->
          exists rel data,
            k = rel_key rel
            /\ In (rel, Some data) [(["a.txt"], Some (bytes "hello"))]
            /\ tree_lookup
                 (Dir [("a.txt", File (Some (bytes "hello")));
                       ("sub", Locked [("b.txt", File (Some (bytes "world")))])])
                 rel = Some (File (Some data))).
Proof.
  apply (create_baseline_skips_unreadable (fresh hidden_tree) "srv"
           (Dir [("a.txt", File (Some (bytes "hello")));
                 ("sub", Locked [("b.txt", File (Some (bytes "world")))])])).
  - reflexivity.
  - eexists. reflexivity.
  - reflexivity.
Defined.

(** X4: the keys and digests [create_baseline] stores depend on the tree
    under the directory and on nothing else: not on the baseline that was
    loaded before, not on the baseline file, not on the clock, not on what
    lies outside the directory, and not on how the path of the directory
    is written. *)
Theorem snapshot_depends_on_tree_only
  (s1 s2 : state) (d1 d2 : string) (n : node) :
  os_stat (fs s1) d1 = Some n ->
  os_stat (fs s2) d2 = Some n ->
  (exists children, n = Dir children) ->
  tree_ok n = true ->
  exists e1 e2 s1' s2',
    create_baseline d1 s1 = (Ok tt, s1')
    /\ create_baseline d2 s2 = (Ok tt, s2')
    /\ baseline_data s1' = snapshot d1 (clock s1 (ticks s1)) e1
    /\ baseline_data s2' = snapshot d2 (clock s2 (ticks s2)) e2
    /\ map key_and_hash e1 = map key_and_hash e2.
Proof.
  intros H1 H2 [children ->] Hok.
  assert (I1 : os_path_isdir (fs s1) d1 = true)
    by (unfold os_path_isdir; now rewrite H1).
  assert (I2 : os_path_isdir (fs s2) d2 = true)
    by (unfold os_path_isdir; now rewrite H2).
  destruct (create_baseline_ok s1 d1 I1) as [o1 R1].
  destruct (create_baseline_ok s2 d2 I2) as [o2 R2].
  exists (entries_of (clock s1) (S (ticks s1)) (tree_files (Dir children))),
    (entries_of (clock s2) (S (ticks s2)) (tree_files (Dir children))),
    (created s1 d1 o1), (created s2 d2 o2).
  split; [exact R1|]. split; [exact R2|].
  split; [now apply created_entries|]. split; [now apply created_entries|].
  now rewrite !entries_of_key_and_hash.
Qed.

Lemma snapshot_depends_on_tree_only_witness :
  exists e1 e2 s1' s2',
    create_baseline "srv" (fresh demo_tree) = (Ok tt, s1')
    /\ create_baseline "./srv/sub/../" demo_created = (Ok tt, s2')
    /\ baseline_data s1' = snapshot "srv" "T0" e1
    /\ baseline_data s2' = snapshot "./srv/sub/../" "T3" e2
    /\ map key_and_hash e1 = map key_and_hash e2.
Proof.
  apply (snapshot_depends_on_tree_only (fresh demo_tree) demo_created
           "srv" "./srv/sub/../"
           (Dir [("a.txt", File (Some (bytes "hello")));
                 ("sub", Dir [("b.txt", File (Some (bytes "world")))])])).
  - reflexivity.
  - reflexivity.
  - eexists. reflexivity.
  - reflexivity.
Defined.


(** X5: on a well-formed directory [create_baseline] prints one line for
    every file the walk reached and it could not read, then the line of
    the save, then the count of files, and the count is the number of
    entries it stored, which is the number of files the walk reached and
    it could read: files under a directory that cannot be listed are
    neither counted nor reported.  It has read the clock once for the
    snapshot and once for every entry; and the baseline file holds the new
    snapshot if it can be written and is as it was if not.  Where every
    directory can be listed the walk reaches every file of the tree. *)
Theorem create_baseline_counts (s : state) (directory : string) (n : node) :
  os_stat (fs s) directory = Some n ->
  (exists children, n = Dir children) ->
  tree_ok n = true ->
  exists entries errors s',
    create_baseline directory s = (Ok tt, s')
    /\ baseline_data s' = snapshot directory (clock s (ticks s)) entries
    /\ stdout s'
       = stdout s ++ errors
         ++ [save_line s; BaselineCreated directory (List.length entries)]
    /\ (forall l, In l errors -> exists p, l = ErrorReadingFile p)
    /\ List.length entries = List.length (filter is_readable (tree_files n))
    /\ List.length errors + List.length entries = List.length (tree_files n)
    /\ ticks s' = S (ticks s) + List.length entries
    /\ bfile_content s'
       = (if bfile_writable s then Json (baseline_data s') else bfile_content s)
    /\ (listable n = true ->
        forall rel data,
          rel <> [] -> tree_lookup n rel = Some (File data) ->
          In (rel, data) (tree_files n)).
Proof.
  intros Hstat [children ->] Hok.
  assert (Hisdir : os_path_isdir (fs s) directory = true)
    by (unfold os_path_isdir; now rewrite Hstat).
  pose proof (create_exact s directory Hisdir) as Hrun.
  pose proof (walk_of_tree _ _ _ Hstat Hok) as Hwalk.
  destruct (scan_count (fs s) (clock s) directory _ _ Hwalk (S (ticks s)) [])
    as [Hticks Hcount].
  pose proof (scan_tree (fs s) (clock s) directory _ (S (ticks s)) Hstat Hok)
    as Hscan.
  rewrite Hscan in Hrun.
  pose proof (entries_of_length (clock s) (tree_files (Dir children)) (S (ticks s)))
    as Hlen.
  exists (entries_of (clock s) (S (ticks s)) (tree_files (Dir children))),
    (scan_errors (fs s) (walk_paths (os_walk (fs s) directory))).
  eexists. split; [exact Hrun|].
  split; [exact (created_entries s directory _ _ Hstat Hok)|].
  split; [reflexivity|].
  split. { intros l Hl. apply scan_errors_lines in Hl as (p & _ & _ & ->). eauto. }
  split; [exact Hlen|]. split; [now rewrite Hlen|].
  split. { unfold created. cbn [ticks]. now rewrite Hticks, Hlen. }
  split; [unfold created; cbn [bfile_content baseline_data]; reflexivity|].
  intros Hls rel data. now apply tree_lookup_files.
Qed.

Lemma create_baseline_counts_witness :
  exists entries errors s',
    create_baseline "srv" (fresh locked_tree) = (Ok tt, s')
    /\ baseline_data s' = snapshot "srv" "T0" entries
    /\ stdout s'
       = [] ++ errors
         ++ [BaselineSaved "baseline.json";
             BaselineCreated "srv" (List.length entries)]
    /\ (forall l, In l errors -> exists p, l = ErrorReadingFile p)
    /\ List.length entries = 2
    /\ List.length errors + List.length entries = 3
    /\ ticks s' = 1 + List.length entries
    /\ bfile_content s' = Json (baseline_data s')
    /\ (true = true ->
        forall rel data,
          rel <> [] ->
          tree_lookup (Dir [("a.txt", File (Some (bytes "hello")));
                            ("lock", File None);
                            ("sub", Dir [("b.txt", File (Some (bytes "world")))])])
                      rel = Some (File data) ->
          In (rel, data)
             [(["a.txt"], Some (bytes "hello")); (["lock"], None);
              (["sub"; "b.txt"], Some (bytes "world"))]).
Proof.
  apply (create_baseline_counts (fresh locked_tree) "srv"
           (Dir [("a.txt", File (Some (bytes "hello")));
                 ("lock", File None);
                 ("sub", Dir [("b.txt", File (Some (bytes "world")))])])).
  - reflexivity.
  - eexists. reflexivity.
  - reflexivity.
Defined.

(** ** Verifying what was just recorded *)

Lemma new_after_create clock t (n : node) :
  tree_ok n = true ->
  filter (is_new (entries_of clock t (tree_files n)))
         (map (fun f => rel_key (fst f)) (tree_files n))
  = map (fun f => rel_key (fst f))
        (filter (fun f => negb (is_readable f)) (tree_files n)).
Proof.
  intros Hok. rewrite filter_map_swap. f_equal.
  apply filter_ext_in. intros [rel data] Hin. cbn [fst].
  destruct (entries_of_tree clock t n Hok) as (_ & _ & Hkeys).
  unfold is_new, is_readable. cbn [snd]. destruct data as [data|]; cbn [negb].
  - apply negb_false_iff, dict_mem_In. exact (entries_of_key _ _ _ _ _ Hin).
  - apply negb_true_iff. destruct (dict_mem _ _) eqn:Hm; [|reflexivity].
    apply dict_mem_In in Hm.
    destruct (Hkeys _ Hm) as (rel' & data' & Hkey & Hin' & _).
    destruct (tree_files_lookup _ Hok _ _ Hin) as (N1 & O1 & L1).
    destruct (tree_files_lookup _ Hok _ _ Hin') as (N2 & O2 & L2).
    assert (rel' = rel) as -> by (symmetry; now apply rel_key_inj).
    congruence.
Qed.

(** X6: [verify_integrity] run right after [create_baseline] on a
    well-formed directory, the tree being as it was, reports nothing
    changed, nothing missing, and as new exactly the files that could not
    be read, in the order of the walk. *)
Theorem verify_after_create_reports_unreadable
  (s : state) (directory : string) (n : node) :
  os_stat (fs s) directory = Some n ->
  (exists children, n = Dir children) ->
  tree_ok n = true ->
  exists s1 s2,
    create_baseline directory s = (Ok tt, s1)
    /\ verify_integrity s1
       = (Ok (Some (Report []
                      (map (fun f => rel_key (fst f))
                           (filter (fun f => negb (is_readable f)) (tree_files n)))
                      [])),
          s2).
Proof.
  intros Hstat [children ->] Hok.
  assert (Hisdir : os_path_isdir (fs s) directory = true)
    by (unfold os_path_isdir; now rewrite Hstat).
  destruct (create_baseline_ok s directory Hisdir) as [out Hrun].
  set (items := entries_of (clock s) (S (ticks s)) (tree_files (Dir children))).
  pose proof (created_entries s directory _ out Hstat Hok) as Hdata.
  fold items in Hdata.
  assert (Hitem : forall item, In item items ->
                    is_missing (fs s) directory item = false
                    /\ is_changed (fs s) directory item = false).
  { intros [k v] Hin.
    destruct (entries_of_In _ _ _ _ _ Hin) as (rel & dat & t' & Hin' & -> & ->).
    now apply (own_entry (fs s) directory children). }
  destruct (verify_ok (created s directory out) _ directory items Hdata eq_refl)
    as [out' Hv]; [exact Hisdir | reflexivity | |].
  { apply shape_entry_ok, entries_of_shape. }
  exists (created s directory out). eexists. split; [exact Hrun|].
  rewrite Hv. f_equal. f_equal. unfold expected_report.
  change (fs (created s directory out)) with (fs s).
  rewrite (filter_none (is_changed _ _)) by (intros x Hx; apply (Hitem x Hx)).
  rewrite (filter_none (is_missing _ _)) by (intros x Hx; apply (Hitem x Hx)).
  rewrite (disk_paths_tree _ _ _ Hstat Hok).
  unfold items. now rewrite new_after_create.
Qed.

Lemma verify_after_create_reports_unreadable_witness :
  exists s1 s2,
    create_baseline "srv" (fresh locked_tree) = (Ok tt, s1)
    /\ verify_integrity s1 = (Ok (Some (Report [] ["lock"] [])), s2).
Proof.
  apply (verify_after_create_reports_unreadable (fresh locked_tree) "srv"
           (Dir [("a.txt", File (Some (bytes "hello")));
                 ("lock", File None);
                 ("sub", Dir [("b.txt", File (Some (bytes "world")))])])).
  - reflexivity.
  - eexists. reflexivity.
  - reflexivity.
Defined.

(** X7: a second [verify_integrity] after one that completed, the tree
    being as it was, completes too and returns the same three lists: what
    the first run wrote into the snapshot does not bear on the
    comparison. *)
Theorem verify_again_same_report (s : state) (r : report) (s' : state) :
  verify_integrity s = (Ok (Some r), s') ->
  exists s'', verify_integrity s' = (Ok (Some r), s'').
Proof.
  intros H.
  destruct (verify_completed s r s' H)
    as (data & d & items & out & H1 & H2 & H3 & H4 & H5 & -> & ->).
  destruct (verify_ok (verified s data out)
              (dict_set "last_checked" (PStr (clock s (ticks s))) data) d items)
    as [out' Hv]; try reflexivity; try assumption.
  - rewrite dict_get_set_other by discriminate. exact H2.
  - rewrite dict_get_set_other by discriminate. exact H4.
  - eauto.
Qed.

Lemma verify_again_same_report_witness :
  exists s'',
    verify_integrity (snd (verify_integrity (set_fs later_tree demo_created)))
    = (Ok (Some (Report ["a.txt"; "sub/b.txt"] ["c.txt"] [])), s'').
Proof.
  apply (verify_again_same_report (set_fs later_tree demo_created)).
  vm_compute. reflexivity.
Defined.

(** X8: what a completed [verify_integrity] returns, for any baseline it
    got through.  A path is in [missing_files] exactly if it is a key of
    the baseline whose file is not there; in [new_files] exactly if the
    walk finds it and it is no key of the baseline; in [changed_files]
    exactly if the baseline has an entry under it whose file is there and
    whose stored digest is not the digest computed now. *)
Theorem report_characterised
  (s : state) (r : report) (s' : state) (data items : list (string * pyval))
  (d : string) :
  verify_integrity s = (Ok (Some r), s') ->
  baseline_data s = PDict data ->
  dict_get "directory" data = Some (PStr d) ->
  dict_get "files" data = Some (PDict items) ->
  (forall k, In k (missing_files r)
             <-> In k (dict_keys items)
                 /\ os_path_exists (fs s) (os_path_join d k) = false)
  /\ (forall p, In p (new_files r)
                <-> In p (disk_paths (fs s) d) /\ ~ In p (dict_keys items))
  /\ (forall k, In k (changed_files r)
                <-> exists file_data stored,
                      In (k, file_data) items
                      /\ os_path_exists (fs s) (os_path_join d k) = true
                      /\ stored_hash file_data = Some stored
                      /\ hash_ne (current_digest (fs s) (os_path_join d k)) stored
                         = true).
Proof.
  intros H Hdata Hdir Hfiles.
  destruct (verify_completed s r s' H)
    as (data' & d' & items' & out & H1 & H2 & _ & H4 & _ & -> & _).
  rewrite Hdata in H1. injection H1 as <-.
  rewrite Hdir in H2. injection H2 as <-.
  rewrite Hfiles in H4. injection H4 as <-.
  split; [apply missing_iff|]. split.
  - intros p. rewrite new_on_disk. split; intros [Hp Hm]; (split; [exact Hp|]).
    + intros Hk. apply dict_mem_In in Hk. congruence.
    + destruct (dict_mem p items) eqn:E; [|reflexivity].
      apply dict_mem_In in E. contradiction.
  - intros k. cbn [expected_report changed_files]. rewrite in_map_iff. split.
    + intros [[k' fd] [E Hin]]. cbn in E. subst k'.
      apply filter_In in Hin as [Hin Hc]. unfold is_changed in Hc. cbn [fst snd] in Hc.
      apply andb_true_iff in Hc as [Hex Hc].
      destruct (stored_hash fd) as [stored|] eqn:Hs; [|discriminate].
      exists fd, stored. now repeat split.
    + intros (fd & stored & Hin & Hex & Hs & Hne).
      exists (k, fd). split; [reflexivity|]. apply filter_In. split; [exact Hin|].
      unfold is_changed. cbn [fst snd]. now rewrite Hex, Hs.
Qed.

Lemma report_characterised_witness :
  (forall k, In k (@nil string)
             <-> In k (dict_keys demo_files)
                 /\ os_path_exists later_tree (os_path_join "srv" k) = false)
  /\ (forall p, In p ["c.txt"]
                <-> In p (disk_paths later_tree "srv") /\ ~ In p (dict_keys demo_files))
  /\ (forall k, In k ["a.txt"; "sub/b.txt"]
                <-> exists file_data stored,
                      In (k, file_data) demo_files
                      /\ os_path_exists later_tree (os_path_join "srv" k) = true
                      /\ stored_hash file_data = Some stored
                      /\ hash_ne (current_digest later_tree (os_path_join "srv" k))
                                 stored = true).
Proof.
  apply (report_characterised
           (set_fs later_tree demo_created)
           (Report ["a.txt"; "sub/b.txt"] ["c.txt"] [])
           (snd (verify_integrity (set_fs later_tree demo_created)))
           [("directory", PStr "srv"); ("timestamp", PStr "T0");
            ("files", PDict demo_files)]
           demo_files "srv").
  - vm_compute. reflexivity.
  - reflexivity.
  - reflexivity.
  - reflexivity.
Defined.


(** ** What a completed verification prints *)

Lemma list_lines_In header files l :
  In l (list_lines header files)
  <-> files <> [] /\ (l = header \/ exists f, In f files /\ l = Item f).
Proof.
  destruct files as [|x files]; cbn [list_lines].
  - split; [contradiction | intros [H _]; congruence].
  - split.
    + intros [<- | H]; (split; [discriminate|]); [now left|].
      apply in_map_iff in H as (f & <- & Hf). right. eauto.
    + intros [_ [-> | (f & Hf & ->)]]; [now left|].
      right. apply in_map_iff. eauto.
Qed.

Lemma result_lines_In (r : report) l :
  In l (result_lines r)
  <-> (l = AllFilesMatch
       /\ changed_files r = [] /\ new_files r = [] /\ missing_files r = [])
      \/ In l (list_lines ChangedHeader (changed_files r))
      \/ In l (list_lines NewHeader (new_files r))
      \/ In l (list_lines MissingHeader (missing_files r)).
Proof.
  unfold result_lines.
  destruct (changed_files r) as [|c cs] eqn:Hc;
    [destruct (new_files r) as [|n ns] eqn:Hn;
     [destruct (missing_files r) as [|m ms] eqn:Hm|]|].
  - cbn. split; [intros [<-|[]]; now left | intros [[-> _]|[[]|[[]|[]]]]; now left].
  - rewrite !in_app_iff. split; [tauto|].
    intros [[_ (_ & _ & E)]|H]; [discriminate | exact H].
  - rewrite !in_app_iff. split; [tauto|].
    intros [[_ (_ & E & _)]|H]; [discriminate | exact H].
  - rewrite !in_app_iff. split; [tauto|].
    intros [[_ (E & _)]|H]; [discriminate | exact H].
Qed.

Lemma result_lines_all_match (r : report) :
  In AllFilesMatch (result_lines r)
  <-> changed_files r = [] /\ new_files r = [] /\ missing_files r = [].
Proof.
  rewrite result_lines_In, !list_lines_In. split.
  - intros [[_ H] | [[_ [E | (f & _ & E)]]
                    | [[_ [E | (f & _ & E)]] | [_ [E | (f & _ & E)]]]]];
      try discriminate; exact H.
  - intros H. left. now split.
Qed.

Lemma result_lines_item (r : report) (f : string) :
  In (Item f) (result_lines r)
  <-> In f (changed_files r) \/ In f (new_files r) \/ In f (missing_files r).
Proof.
  rewrite result_lines_In, !list_lines_In. split.
  - intros [[E _] | [[_ [E | (f' & Hf & E)]]
                    | [[_ [E | (f' & Hf & E)]] | [_ [E | (f' & Hf & E)]]]]];
      try discriminate; injection E as ->; tauto.
  - intros [H | [H | H]];
      [right; left | right; right; left | right; right; right];
      (split; [intros E; rewrite E in H; contradiction | right; eauto]).
Qed.

Lemma result_lines_headers (r : report) :
  (In ChangedHeader (result_lines r) <-> changed_files r <> [])
  /\ (In NewHeader (result_lines r) <-> new_files r <> [])
  /\ (In MissingHeader (result_lines r) <-> missing_files r <> []).
Proof.
  rewrite !result_lines_In, !list_lines_In. repeat split.
  - intros [[E _] | [[Hne _] | [[_ [E | (f & _ & E)]] | [_ [E | (f & _ & E)]]]]];
      try discriminate; exact Hne.
  - intros Hne. right. left. split; [exact Hne | now left].
  - intros [[E _] | [[_ [E | (f & _ & E)]] | [[Hne _] | [_ [E | (f & _ & E)]]]]];
      try discriminate; exact Hne.
  - intros Hne. right. right. left. split; [exact Hne | now left].
  - intros [[E _] | [[_ [E | (f & _ & E)]] | [[_ [E | (f & _ & E)]] | [Hne _]]]];
      try discriminate; exact Hne.
  - intros Hne. right. right. right. split; [exact Hne | now left].
Qed.

(** X9: a completed [verify_integrity] prints, after the lines of the
    files it could not read, the report and then the line of the save.
    The report says that all files match exactly if the three lists are
    empty; otherwise a list that is not empty is printed under its header,
    an empty list not at all, and the paths printed are the paths of the
    three lists. *)
Theorem verify_prints_report (s : state) (r : report) (s' : state) :
  verify_integrity s = (Ok (Some r), s') ->
  exists errors,
    stdout s' = stdout s ++ errors ++ result_lines r ++ [save_line s]
    /\ (forall l, In l errors -> exists p, l = ErrorReadingFile p)
    /\ (In AllFilesMatch (result_lines r)
        <-> changed_files r = [] /\ new_files r = [] /\ missing_files r = [])
    /\ (forall f, In (Item f) (result_lines r)
                  <-> In f (changed_files r) \/ In f (new_files r)
                      \/ In f (missing_files r))
    /\ (In ChangedHeader (result_lines r) <-> changed_files r <> [])
    /\ (In NewHeader (result_lines r) <-> new_files r <> [])
    /\ (In MissingHeader (result_lines r) <-> missing_files r <> []).
Proof.
  intros H.
  destruct (verify_completed_exact s r s' H)
    as (data & d & items & _ & _ & _ & _ & _ & _ & ->).
  exists (read_errors (fs s) d items). split; [reflexivity|]. split.
  { intros l Hl. unfold read_errors in Hl.
    apply in_flat_map in Hl as (item & _ & Hl).
    destruct (os_path_exists _ _); [|contradiction].
    destruct (open_rb _ _); [contradiction|]. destruct Hl as [<-|[]]. eauto. }
  split; [apply result_lines_all_match|].
  split; [intros f; apply result_lines_item|].
  apply result_lines_headers.
Qed.

Lemma verify_prints_report_witness :
  exists errors,
    stdout (snd (verify_integrity (set_fs later_tree demo_created)))
    = stdout (set_fs later_tree demo_created) ++ errors
      ++ result_lines (Report ["a.txt"; "sub/b.txt"] ["c.txt"] [])
      ++ [save_line (set_fs later_tree demo_created)]
    /\ (forall l, In l errors -> exists p, l = ErrorReadingFile p)
    /\ (In AllFilesMatch (result_lines (Report ["a.txt"; "sub/b.txt"] ["c.txt"] []))
        <-> ["a.txt"; "sub/b.txt"] = [] /\ ["c.txt"] = [] /\ @nil string = [])
    /\ (forall f, In (Item f)
                     (result_lines (Report ["a.txt"; "sub/b.txt"] ["c.txt"] []))
                  <-> In f ["a.txt"; "sub/b.txt"] \/ In f ["c.txt"] \/ In f [])
    /\ (In ChangedHeader (result_lines (Report ["a.txt"; "sub/b.txt"] ["c.txt"] []))
        <-> ["a.txt"; "sub/b.txt"] <> [])
    /\ (In NewHeader (result_lines (Report ["a.txt"; "sub/b.txt"] ["c.txt"] []))
        <-> ["c.txt"] <> [])
    /\ (In MissingHeader (result_lines (Report ["a.txt"; "sub/b.txt"] ["c.txt"] []))
        <-> @nil string <> []).
Proof.
  apply (verify_prints_report (set_fs later_tree demo_created)
           (Report ["a.txt"; "sub/b.txt"] ["c.txt"] [])).
  vm_compute. reflexivity.
Defined.

(** ** A run that ends in an exception *)

Lemma read_errors_lines root d items l :
  In l (read_errors root d items) -> exists p, l = ErrorReadingFile p.
Proof.
  unfold read_errors. intros Hl.
  apply in_flat_map in Hl as (item & _ & Hl).
  destruct (os_path_exists _ _); [|contradiction].
  destruct (open_rb _ _); [contradiction|]. destruct Hl as [<-|[]]. eauto.
Qed.

(** However the first loop ends, it has only printed lines about files it
    could not read, and an exception of it is a [KeyError] or a
    [TypeError] of [file_data["hash"]]. *)
Lemma first_loop_frame d (items : list (string * pyval)) :
  forall lists s o s',
    for_fold items lists (check_entry d) s = (o, s') ->
    exists out,
      s' = emits out s
      /\ (forall l, In l out -> exists p, l = ErrorReadingFile p)
      /\ (forall e, o = Raise e -> e = KeyError \/ e = TypeError).
Proof.
  induction items as [|item items IH]; intros [changed missing] s o s' H.
  - cbn in H. injection H as <- <-. exists []. rewrite emits_nil.
    split; [reflexivity|]. split; [intros l []|discriminate].
  - cbn [for_fold] in H. unfold bind in H. rewrite check_entry_step in H.
    destruct (is_missing (fs s) d item); [exact (IH _ _ _ _ H)|].
    destruct (stored_hash (snd item)) as [stored|].
    + apply IH in H as (out & -> & Hout & He).
      exists (read_errors (fs s) d [item] ++ out).
      split; [now rewrite emits_emits|]. split; [|exact He].
      intros l Hl. apply in_app_or in Hl as [Hl|Hl];
        [exact (read_errors_lines _ _ _ _ Hl) | exact (Hout l Hl)].
    + injection H as <- <-. exists (read_errors (fs s) d [item]).
      split; [reflexivity|]. split; [apply read_errors_lines|].
      intros e E. injection E as <-. destruct (snd item); auto.
Qed.

Lemma untouched_emits out s : untouched s (emits out s).
Proof. unfold untouched, emits. cbn. repeat split. Qed.

(** X10: take a snapshot nested no deeper than [json.dump] follows and a
    run of [verify_integrity] all of whose lines the console can encode.
    If the run ends in an exception, it has changed nothing: the snapshot
    in memory, the baseline file and the tree are as they were and the
    clock has not been read.  All it has printed are lines about files it
    could not read; the exception is an [AttributeError], a [KeyError], a
    [TypeError] or an [OverflowError], raised on the shape of the
    snapshot; and the snapshot is not one of those [verifiable]
    describes. *)
Theorem verify_exception_changes_nothing (s : state) (e : exn) (s' : state) :
  verify_integrity s = (Raise e, s') ->
  forallb line_encodable (stdout s') = true ->
  json_depth (baseline_data s) <= max_nesting ->
  untouched s s'
  /\ (exists out,
        stdout s' = stdout s ++ out
        /\ forall l, In l out -> exists p, l = ErrorReadingFile p)
  /\ (e = AttributeError \/ e = KeyError \/ e = TypeError \/ e = OverflowError)
  /\ verifiable (fs s) (baseline_data s) = false.
Proof.
  intros H _ _.
  assert (Hv : verifiable (fs s) (baseline_data s) = false).
  { destruct (verifiable _ _) eqn:E; [|reflexivity].
    destruct (verify_total s E) as (r & out & s'' & Hrun & _).
    rewrite Hrun in H. discriminate. }
  assert (G : exists out,
             s' = emits out s
             /\ (forall l, In l out -> exists p, l = ErrorReadingFile p)
             /\ (e = AttributeError \/ e = KeyError \/ e = TypeError
                 \/ e = OverflowError)).
  { assert (Here : forall e0 s0, (@Raise (option report) e0, s) = (Raise e, s0) ->
               (e0 = AttributeError \/ e0 = KeyError \/ e0 = TypeError
                \/ e0 = OverflowError) ->
               exists out,
                 s0 = emits out s
                 /\ (forall l, In l out -> exists p, l = ErrorReadingFile p)
                 /\ (e = AttributeError \/ e = KeyError \/ e = TypeError
                     \/ e = OverflowError)).
    { intros e0 s0 E He0. injection E as <- <-. exists [].
      rewrite emits_nil. split; [reflexivity|]. split; [intros l []|exact He0]. }
    pose proof H as H0. unfold verify_integrity in H. rewrite bind_gets in H.
    destruct (truthy (baseline_data s)) eqn:Ht; cbn [negb] in H; [|discriminate].
    destruct (baseline_data s) as [| | | | | |data] eqn:Hdata;
      try (apply (Here _ _ H); tauto).
    cbn [py_get] in H.
    replace (match dict_get "directory" data with
             | Some x => ret x | None => ret PNone end)
      with (ret (A := pyval) (directory_of data)) in H
      by (unfold directory_of; now destruct (dict_get "directory" data)).
    rewrite bind_ret in H. unfold bind at 1 in H.
    destruct (truthy (directory_of data)) eqn:Htd; cbn [negb] in H;
      [|discriminate].
    unfold attempt in H.
    destruct (directory_of data) as [|b|z|m x|d|l|dd] eqn:Hd;
      cbn [os_path_isdir_py] in H;
      try discriminate; try (apply (Here _ _ H); tauto).
    { destruct (_ && _)%bool in H; [discriminate|]. apply (Here _ _ H); tauto. }
    destruct (os_path_isdir (fs s) d) eqn:Hisdir; cbn [negb] in H; [|discriminate].
    cbn [py_getitem] in H.
    destruct (dict_get "files" data) as [files|] eqn:Hfiles;
      [|apply (Here _ _ H); tauto].
    rewrite bind_ret in H.
    destruct files as [| | | | | |items]; try (apply (Here _ _ H); tauto).
    cbn [py_items] in H. rewrite bind_ret in H. unfold bind at 1 in H.
    destruct (for_fold items ([], []) (check_entry d) s) as [[lists|e1] s1] eqn:Hloop.
    - exfalso. pose proof (first_loop_inv _ _ _ _ _ _ Hloop) as Hok.
      assert (Hdir : dict_get "directory" data = Some (PStr d)).
      { unfold directory_of in Hd.
        destruct (dict_get "directory" data); [congruence|discriminate]. }
      rewrite (verify_exact s data d items Hdata Hdir Hisdir Hfiles Hok) in H0.
      discriminate.
    - injection H as <- <-.
      destruct (first_loop_frame _ _ _ _ _ _ Hloop) as (out & -> & Hout & He).
      exists out. split; [reflexivity|]. split; [exact Hout|].
      destruct (He _ eq_refl); tauto. }
  destruct G as (out & -> & Hout & He).
  split; [apply untouched_emits|]. split; [|split; assumption].
  exists out. split; [reflexivity | exact Hout].
Qed.

Lemma verify_exception_changes_nothing_witness :
  untouched
    (set_baseline_data
       (PDict [("directory", PStr "srv");
               ("files", PDict [("a.txt", PStr "2cf2")])])
       (fresh later_tree))
    (emit (ErrorReadingFile "srv/a.txt")
       (set_baseline_data
          (PDict [("directory", PStr "srv");
                  ("files", PDict [("a.txt", PStr "2cf2")])])
          (fresh later_tree)))
  /\ (exists out,
        [ErrorReadingFile "srv/a.txt"] = [] ++ out
        /\ forall l, In l out -> exists p, l = ErrorReadingFile p)
  /\ (TypeError = AttributeError \/ TypeError = KeyError
      \/ TypeError = TypeError \/ TypeError = OverflowError)
  /\ verifiable later_tree
       (PDict [("directory", PStr "srv");
               ("files", PDict [("a.txt", PStr "2cf2")])]) = false.
Proof.
  apply (verify_exception_changes_nothing
           (set_baseline_data
              (PDict [("directory", PStr "srv");
                      ("files", PDict [("a.txt", PStr "2cf2")])])
              (fresh later_tree))
           TypeError).
  - vm_compute. reflexivity.
  - reflexivity.
  - vm_compute. lia.
Defined.

(** ** The commands from [main] *)

(** X11: [main] with the command [create], on a well-formed directory,
    with a baseline file that can be written and that [load_baseline]
    gets through, and with lines the console can encode, leaves in memory
    and in the baseline file the snapshot of that directory, whatever the
    baseline file held before, be it a snapshot of another directory, JSON
    of another shape or no JSON at all: nothing of what was loaded is
    kept. *)
Theorem main_create_replaces_baseline (s : state) (path : string) (n : node) :
  loads (bfile_content s) = true ->
  forallb line_encodable (stdout (snd (main create path s))) = true ->
  bfile_writable s = true ->
  os_stat (fs s) path = Some n ->
  (exists children, n = Dir children) ->
  tree_ok n = true ->
  exists s',
    main create path s = (Ok tt, s')
    /\ baseline_data s'
       = snapshot path (clock s (ticks s))
                  (entries_of (clock s) (S (ticks s)) (tree_files n))
    /\ bfile_content s' = Json (baseline_data s').
Proof.
  intros Htext _ Hw Hstat [children ->] Hok.
  destruct (init_spec s Htext) as (out0 & Hinit & _).
  set (s1 := set_baseline_data (loaded (bfile_content s)) (emits out0 s)) in *.
  assert (Hisdir : os_path_isdir (fs s1) path = true)
    by (unfold os_path_isdir; cbn [s1 fs set_baseline_data emits]; now rewrite Hstat).
  destruct (create_baseline_ok s1 path Hisdir) as [out Hrun].
  exists (created s1 path out). unfold main.
  rewrite (bind_Ok _ _ _ _ _ Hinit). split; [exact Hrun|].
  pose proof (created_entries s1 path (Dir children) out Hstat Hok) as Hdata.
  split; [exact Hdata|].
  unfold created at 1. cbn [bfile_content]. unfold created.
  cbn [baseline_data s1 bfile_writable set_baseline_data emits]. now rewrite Hw.
Qed.

Lemma main_create_replaces_baseline_witness :
  exists s',
    main create "srv"
         (set_bfile (Json (PList [PInt 1; PStr "x"])) (fresh demo_tree))
    = (Ok tt, s')
    /\ baseline_data s'
       = snapshot "srv" "T0"
           (entries_of demo_clock 1
              (tree_files
                 (Dir [("a.txt", File (Some (bytes "hello")));
                       ("sub", Dir [("b.txt", File (Some (bytes "world")))])])))
    /\ bfile_content s' = Json (baseline_data s').
Proof.
  apply (main_create_replaces_baseline
           (set_bfile (Json (PList [PInt 1; PStr "x"])) (fresh demo_tree)) "srv"
           (Dir [("a.txt", File (Some (bytes "hello")));
                 ("sub", Dir [("b.txt", File (Some (bytes "world")))])])).
  - vm_compute. reflexivity.
  - vm_compute. reflexivity.
  - reflexivity.
  - reflexivity.
  - eexists. reflexivity.
  - reflexivity.
Defined.

(** X12: when reading the baseline file fails, [load_baseline] handles
    the failure exactly if it is of one of the two classes its [except]
    clause names: it prints that the baseline could not be loaded and
    returns the empty baseline.  A failure of any other class, the
    [UnicodeDecodeError] of bytes that are not text, the [ValueError] of an
    integer of too many digits, the [RecursionError] of nesting too deep,
    goes through [__init__] and ends [main] before it looks at the
    command, whatever the path: nothing is printed, nothing is written,
    and [create] does not get to replace the file. *)
Theorem load_failure_handled_or_fatal
  (s : state) (e : exn) (s1 : state) (cmd : command) (path : string) :
  bfile_content s <> Absent ->
  json_load_file s = (Raise e, s1) ->
  (load_errors e = true ->
   load_baseline s = (Ok (PDict []), emit ErrorLoadingBaseline s))
  /\ (load_errors e = false ->
      main cmd path s = (Raise e, s)
      /\ (e = UnicodeDecodeError \/ e = ValueError \/ e = RecursionError)).
Proof.
  intros Hfound Hload.
  unfold main, init. rewrite !bind_bind. unfold bind at 1.
  rewrite load_baseline_spec.
  unfold json_load_file in Hload. rewrite bind_gets in Hload.
  revert Hload.
  destruct (bfile_content s) as [| | | | |v] eqn:E; [congruence|..];
    intros Hload; unfold raise, ret in Hload.
  - injection Hload as <- <-. split; [reflexivity | discriminate].
  - injection Hload as <- <-. split; [discriminate|]. intros _. now split; [|left].
  - injection Hload as <- <-. split; [reflexivity | discriminate].
  - injection Hload as <- <-. split; [discriminate|]. intros _.
    now split; [|right; right].
  - destruct (ints_ok v); [discriminate|].
    injection Hload as <- <-. split; [discriminate|]. intros _.
    now split; [|right; left].
Qed.

Lemma load_failure_handled_or_fatal_witness :
  (load_errors UnicodeDecodeError = true ->
   load_baseline (set_bfile NotText (fresh demo_tree))
   = (Ok (PDict []),
      emit ErrorLoadingBaseline (set_bfile NotText (fresh demo_tree))))
  /\ (load_errors UnicodeDecodeError = false ->
      main create "srv" (set_bfile NotText (fresh demo_tree))
      = (Raise UnicodeDecodeError, set_bfile NotText (fresh demo_tree))
      /\ (UnicodeDecodeError = UnicodeDecodeError
          \/ UnicodeDecodeError = ValueError
          \/ UnicodeDecodeError = RecursionError)).
Proof.
  apply (load_failure_handled_or_fatal
           (set_bfile NotText (fresh demo_tree)) UnicodeDecodeError
           (set_bfile NotText (fresh demo_tree)) create "srv").
  - discriminate.
  - reflexivity.
Defined.

(** ** Directories do not count *)

(** X13: [verify_integrity] sees files only.  Take a baseline made by
    [create_baseline] on a well-formed directory and any later tree in
    which that directory, still well formed, holds the same files with the
    same content under the same relative paths: whatever directories have
    been added or removed, the run reports nothing changed and nothing
    missing, and as new only the files that could not be read when the
    baseline was made. *)
Theorem verify_ignores_directories
  (s : state) (directory : string) (n : node) (later : node) (n' : node) :
  os_stat (fs s) directory = Some n ->
  (exists children, n = Dir children) ->
  tree_ok n = true ->
  os_stat later directory = Some n' ->
  (exists children', n' = Dir children') ->
  tree_ok n' = true ->
  tree_files n' = tree_files n ->
  exists s1 s2,
    create_baseline directory s = (Ok tt, s1)
    /\ verify_integrity (set_fs later s1)
       = (Ok (Some (Report []
                      (map (fun f => rel_key (fst f))
                           (filter (fun f => negb (is_readable f)) (tree_files n)))
                      [])),
          s2).
Proof.
  intros Hstat [children ->] Hok Hstat' [children' ->] Hok' Hsame.
  assert (Hisdir : os_path_isdir (fs s) directory = true)
    by (unfold os_path_isdir; now rewrite Hstat).
  assert (Hisdir' : os_path_isdir later directory = true)
    by (unfold os_path_isdir; now rewrite Hstat').
  destruct (create_baseline_ok s directory Hisdir) as [out Hrun].
  set (items := entries_of (clock s) (S (ticks s)) (tree_files (Dir children'))).
  pose proof (created_entries s directory _ out Hstat Hok) as Hdata.
  rewrite <- Hsame in Hdata. fold items in Hdata.
  assert (Hitem : forall item, In item items ->
                    is_missing later directory item = false
                    /\ is_changed later directory item = false).
  { intros [k v] Hin.
    destruct (entries_of_In _ _ _ _ _ Hin) as (rel & dat & t' & Hin' & -> & ->).
    now apply (own_entry later directory children'). }
  destruct (verify_ok (set_fs later (created s directory out)) _ directory items
              Hdata eq_refl)
    as [out' Hv]; [exact Hisdir' | reflexivity | |].
  { apply shape_entry_ok, entries_of_shape. }
  exists (created s directory out). eexists. split; [exact Hrun|].
  rewrite Hv. f_equal. f_equal. unfold expected_report.
  change (fs (set_fs later (created s directory out))) with later.
  rewrite (filter_none (is_changed _ _)) by (intros x Hx; apply (Hitem x Hx)).
  rewrite (filter_none (is_missing _ _)) by (intros x Hx; apply (Hitem x Hx)).
  rewrite (disk_paths_tree _ _ _ Hstat' Hok').
  unfold items. rewrite new_after_create by exact Hok'. now rewrite Hsame.
Qed.

Lemma verify_ignores_directories_witness :
  exists s1 s2,
    create_baseline "srv" (fresh demo_tree) = (Ok tt, s1)
    /\ verify_integrity (set_fs padded_tree s1)
       = (Ok (Some (Report [] [] [])), s2).
Proof.
  apply (verify_ignores_directories (fresh demo_tree) "srv"
           (Dir [("a.txt", File (Some (bytes "hello")));
                 ("sub", Dir [("b.txt", File (Some (bytes "world")))])])
           padded_tree
           (Dir [("a.txt", File (Some (bytes "hello")));
                 ("empty", Dir []);
                 ("sub", Dir [("b.txt", File (Some (bytes "world")));
                              ("deep", Dir [("deeper", Dir [])])])])).
  - reflexivity.
  - eexists. reflexivity.
  - reflexivity.
  - reflexivity.
  - eexists. reflexivity.
  - reflexivity.
  - reflexivity.
Defined.
